(** * malloc_debug option parsing (libc/malloc_debug/Config.cpp)

    A shallow embedding of [PropertyParser::Get], [SetFeature] and
    [Config::SetFromProperties], and the properties of the option string
    parser that the specification states about them.

    Conventions of the embedding:
    - a [const char*] into the NUL-terminated property buffer is the
      [string] of the characters from the pointer on; [*p] is [peek p],
      which is NUL at the end of the string, and [++p] is [advance p];
    - [size_t], [long] and [uint64_t] values are [Z]; the bounds of the
      target ([SIZE_MAX], [LONG_MAX]) and the constants of the headers
      that Config.cpp includes are the fields of a [Target];
    - [error_log] appends a [LogMsg] to the error log of the state;
    - [size_t* value] and [bool* config] of a [Feature] are the names of
      the [Config] members they point to. *)

From Stdlib Require Import ZArith List String Ascii Bool Lia.
Import ListNotations.

Local Open Scope string_scope.
Local Open Scope Z_scope.

(** ** The target: what the included headers define *)

Class Target : Type := {
  (* <stdint.h>, <limits.h> *)
  SIZE_MAX : Z;
  LONG_MAX : Z;
  (* <signal.h> *)
  SIGRTMIN : Z;
  (* malloc_debug.h *)
  MINIMUM_ALIGNMENT_BYTES : Z;
  (* Config.h: the bits of Config::options *)
  FRONT_GUARD : Z;
  REAR_GUARD : Z;
  BACKTRACE : Z;
  FILL_ON_ALLOC : Z;
  FILL_ON_FREE : Z;
  EXPAND_ALLOC : Z;
  FREE_TRACK : Z;
  TRACK_ALLOCS : Z;
  LEAK_TRACK : Z
}.

(** Two instances, to run the definitions on.  The 64-bit Android target,
    each option of Config.h on a bit of its own. *)
Definition lp64 : Target := {|
  SIZE_MAX := 18446744073709551615;
  LONG_MAX := 9223372036854775807;
  SIGRTMIN := 35;
  MINIMUM_ALIGNMENT_BYTES := 16;
  FRONT_GUARD := 1;
  REAR_GUARD := 2;
  BACKTRACE := 4;
  FILL_ON_ALLOC := 8;
  FILL_ON_FREE := 16;
  EXPAND_ALLOC := 32;
  FREE_TRACK := 64;
  TRACK_ALLOCS := 128;
  LEAK_TRACK := 256
|}.

(** The 32-bit Android target. *)
Definition ilp32 : Target := {|
  SIZE_MAX := 4294967295;
  LONG_MAX := 2147483647;
  SIGRTMIN := 35;
  MINIMUM_ALIGNMENT_BYTES := 8;
  FRONT_GUARD := 1;
  REAR_GUARD := 2;
  BACKTRACE := 4;
  FILL_ON_ALLOC := 8;
  FILL_ON_FREE := 16;
  EXPAND_ALLOC := 32;
  FREE_TRACK := 64;
  TRACK_ALLOCS := 128;
  LEAK_TRACK := 256
|}.

Definition LONG_MIN `{Target} : Z := - LONG_MAX - 1.

Definition ERANGE : Z := 34.

(** ** Characters and pointers into the buffer *)

Definition NUL : ascii := Ascii.zero.

(** [*p] *)
Definition peek (p : string) : ascii :=
  match p with
  | EmptyString => NUL
  | String c _ => c
  end.

(** [++p]; the source never steps over the terminating NUL. *)
Definition advance (p : string) : string :=
  match p with
  | EmptyString => EmptyString
  | String _ r => r
  end.

(** [p == q] for two pointers into the same buffer: both strings run to
    the same terminator, so the pointers are equal when as many
    characters remain. *)
Definition ptr_eq (p q : string) : bool :=
  Nat.eqb (String.length p) (String.length q).

(** <ctype.h>, C locale: space, \t, \n, \v, \f, \r. *)
Definition isspace (c : ascii) : bool :=
  let n := N_of_ascii c in
  ((9 <=? n) && (n <=? 13) || (n =? 32))%N.

Definition isdigit (c : ascii) : bool :=
  let n := N_of_ascii c in
  ((48 <=? n) && (n <=? 57))%N.

Definition digit_value (c : ascii) : Z := Z.of_N (N_of_ascii c) - 48.

Definition is_eq_sign (c : ascii) : bool := Ascii.eqb c "=".
Definition is_nul (c : ascii) : bool := Ascii.eqb c NUL.

(** [strlen] *)
Fixpoint strlen (p : string) : nat :=
  match p with
  | EmptyString => O
  | String c r => if is_nul c then O else S (strlen r)
  end.

(** ** strtol *)

(** The digits of a number, most significant first, accumulated onto
    [acc]; returns the number and the first character that is no digit. *)
Fixpoint strtol_digits (p : string) (acc : Z) : Z * string :=
  match p with
  | EmptyString => (acc, p)
  | String c r =>
      if isdigit c then strtol_digits r (10 * acc + digit_value c)
      else (acc, p)
  end.

(** Stepping over white space, as strtol does before a number and as
    [while (isspace( *cur_ )) ++cur_;] does in [PropertyParser::Get]. *)
Fixpoint skip_space (p : string) : string :=
  match p with
  | EmptyString => p
  | String c r => if isspace c then skip_space r else p
  end.

(** Modelled from the spec: [strtol(nptr, &end, 10)] of the C library
    (stdlib, not among the sources at hand), which the specification
    refers to as the standard C numeric-parsing semantics: optional white
    space, an optional sign, then decimal digits.  The result is
    [(read_value, end, errno)]: without a digit no conversion is made,
    [end == nptr] and 0 is returned; a number outside [LONG_MIN, LONG_MAX]
    is clamped and [errno] is [ERANGE]. *)
Definition strtol `{Target} (nptr : string) : Z * string * Z :=
  let p := skip_space nptr in
  let '(neg, p) :=
    if Ascii.eqb (peek p) "-" then (true, advance p)
    else if Ascii.eqb (peek p) "+" then (false, advance p)
    else (false, p) in
  if isdigit (peek p) then
    let '(n, endp) := strtol_digits p 0 in
    let v := if neg then - n else n in
    if v >? LONG_MAX then (LONG_MAX, endp, ERANGE)
    else if v <? LONG_MIN then (LONG_MIN, endp, ERANGE)
    else (v, endp, 0)
  else (0, nptr, 0).

(** ** The error log *)

Inductive LogMsg : Type :=
  (* "bad value for option '%s': %s", strerror(errno) *)
| BadValueErrno (property : string) (errno : Z)
  (* "bad value for option '%s'" *)
| BadValue (property : string)
  (* "bad value for option '%s', non space found after option: %s" *)
| NonSpaceAfter (property : string) (endp : string)
  (* "bad value for option '%s', value cannot be negative: %ld" *)
| NegativeValue (property : string) (read_value : Z)
  (* "bad value for option '%s', value must be >= %zu: %zu" *)
| ValueBelowMin (name : string) (min_value value : Z)
  (* "bad value for option '%s', value must be <= %zu: %zu" *)
| ValueAboveMax (name : string) (max_value value : Z)
  (* "value set for option '%s' which does not take a value" *)
| ValueNotTaken (name : string)
  (* "unknown option %s" *)
| UnknownOption (property : string)
  (* the text of PropertyParser::LogUsage *)
| Usage.

(** ** PropertyParser *)

Record PropertyParser : Type := mkParser {
  cur_ : string;
  done_ : bool
}.

(** The outcome of one call of [Get].
    - [GetOk p property ov]: returned true; [*property] was written,
      [*value_set] is true and [*value] written when [ov] is [Some _],
      [*value_set] is false and [*value] untouched when it is [None];
    - [GetDone p]: returned false with [done_] set, nothing written;
    - [GetErr p property m]: returned false after logging [m];
      [*property] was written and [*value_set] set to true. *)
Inductive GetResult : Type :=
| GetOk (p : PropertyParser) (property : string) (ov : option Z)
| GetDone (p : PropertyParser)
| GetErr (p : PropertyParser) (property : string) (m : LogMsg).

(** [while (!isspace( *cur_ ) && *cur_ != '=' && *cur_ != '\0') ++cur_;]
    returns the characters stepped over and the new [cur_]. *)
Fixpoint scan_name (p : string) : string * string :=
  match p with
  | EmptyString => (EmptyString, p)
  | String c r =>
      if negb (isspace c) && negb (is_eq_sign c) && negb (is_nul c) then
        let '(n, q) := scan_name r in (String c n, q)
      else (EmptyString, p)
  end.

(** [while (isspace( *cur_ ) && *cur_ != '=' && *cur_ != '\0') ++cur_;] *)
Fixpoint skip_space_before_eq (p : string) : string :=
  match p with
  | EmptyString => p
  | String c r =>
      if isspace c && negb (is_eq_sign c) && negb (is_nul c)
      then skip_space_before_eq r else p
  end.

(** [static_cast<size_t>(read_value)] *)
Definition to_size_t `{Target} (v : Z) : Z := v mod (SIZE_MAX + 1).

(** Lines 110-134: the value after the '=' ([cur] points behind it). *)
Definition Get_value `{Target} (done : bool) (property : string)
    (cur : string) : GetResult :=
  let '(read_value, endp, errno) := strtol cur in
  if negb (errno =? 0) then
    GetErr (mkParser cur done) property (BadValueErrno property errno)
  else if ptr_eq cur endp || (negb (isspace (peek endp)) && negb (is_nul (peek endp))) then
    if ptr_eq cur endp then
      GetErr (mkParser cur done) property (BadValue property)
    else
      GetErr (mkParser cur done) property (NonSpaceAfter property endp)
  else if read_value <? 0 then
    GetErr (mkParser cur done) property (NegativeValue property read_value)
  else
    GetOk (mkParser endp done) property (Some (to_size_t read_value)).

Definition Get `{Target} (p : PropertyParser) : GetResult :=
  let cur := skip_space (cur_ p) in
  if is_nul (peek cur) then GetDone (mkParser cur true)
  else
    let '(property, cur) := scan_name cur in
    let cur := skip_space_before_eq cur in
    if is_eq_sign (peek cur) then Get_value (done_ p) property (advance cur)
    else GetOk (mkParser cur (done_ p)) property None.

(** ** Config *)

(** The members of [Config] (Config.h). *)
Record Config : Type := mkConfig {
  front_guard_bytes : Z;
  rear_guard_bytes : Z;
  backtrace_enable_on_signal : bool;
  backtrace_signal : Z;
  backtrace_enabled : bool;
  backtrace_frames : Z;
  fill_on_alloc_bytes : Z;
  fill_on_free_bytes : Z;
  expand_alloc_bytes : Z;
  free_track_allocations : Z;
  free_track_backtrace_num_frames : Z;
  options : Z;
  fill_alloc_value : Z;
  fill_free_value : Z;
  front_guard_value : Z;
  rear_guard_value : Z
}.

(** The [size_t] members a [Feature::value] can point to. *)
Inductive NumField : Type :=
| p_front_guard_bytes
| p_rear_guard_bytes
| p_backtrace_frames
| p_fill_on_alloc_bytes
| p_fill_on_free_bytes
| p_expand_alloc_bytes
| p_free_track_allocations
| p_free_track_backtrace_num_frames.

(** The [bool] members a [Feature::config] can point to. *)
Inductive BoolField : Type :=
| p_backtrace_enabled
| p_backtrace_enable_on_signal.

(** [*f] for [f] a pointer to a [size_t] member. *)
Definition get_num (f : NumField) (c : Config) : Z :=
  match f with
  | p_front_guard_bytes => front_guard_bytes c
  | p_rear_guard_bytes => rear_guard_bytes c
  | p_backtrace_frames => backtrace_frames c
  | p_fill_on_alloc_bytes => fill_on_alloc_bytes c
  | p_fill_on_free_bytes => fill_on_free_bytes c
  | p_expand_alloc_bytes => expand_alloc_bytes c
  | p_free_track_allocations => free_track_allocations c
  | p_free_track_backtrace_num_frames => free_track_backtrace_num_frames c
  end.

(** [*f = v] *)
Definition set_num (f : NumField) (v : Z) (c : Config) : Config :=
  let '(mkConfig fg rg bs sig be bf fa ff ea ft fn o av fv gv rv) := c in
  match f with
  | p_front_guard_bytes => mkConfig v rg bs sig be bf fa ff ea ft fn o av fv gv rv
  | p_rear_guard_bytes => mkConfig fg v bs sig be bf fa ff ea ft fn o av fv gv rv
  | p_backtrace_frames => mkConfig fg rg bs sig be v fa ff ea ft fn o av fv gv rv
  | p_fill_on_alloc_bytes => mkConfig fg rg bs sig be bf v ff ea ft fn o av fv gv rv
  | p_fill_on_free_bytes => mkConfig fg rg bs sig be bf fa v ea ft fn o av fv gv rv
  | p_expand_alloc_bytes => mkConfig fg rg bs sig be bf fa ff v ft fn o av fv gv rv
  | p_free_track_allocations => mkConfig fg rg bs sig be bf fa ff ea v fn o av fv gv rv
  | p_free_track_backtrace_num_frames =>
      mkConfig fg rg bs sig be bf fa ff ea ft v o av fv gv rv
  end.

Definition get_bool (f : BoolField) (c : Config) : bool :=
  match f with
  | p_backtrace_enabled => backtrace_enabled c
  | p_backtrace_enable_on_signal => backtrace_enable_on_signal c
  end.

(** [*f = b] for [f] a pointer to a [bool] member. *)
Definition set_bool (f : BoolField) (b : bool) (c : Config) : Config :=
  let '(mkConfig fg rg bs sig be bf fa ff ea ft fn o av fv gv rv) := c in
  match f with
  | p_backtrace_enabled => mkConfig fg rg bs sig b bf fa ff ea ft fn o av fv gv rv
  | p_backtrace_enable_on_signal =>
      mkConfig fg rg b sig be bf fa ff ea ft fn o av fv gv rv
  end.

(** [options |= m] *)
Definition or_options (m : Z) (c : Config) : Config :=
  let '(mkConfig fg rg bs sig be bf fa ff ea ft fn o av fv gv rv) := c in
  mkConfig fg rg bs sig be bf fa ff ea ft fn (Z.lor o m) av fv gv rv.

(** The machine state: the [Config] object and what [error_log] wrote. *)
Record State : Type := mkState {
  config : Config;
  errlog : list LogMsg
}.

Definition error_log (m : LogMsg) (st : State) : State :=
  mkState (config st) (errlog st ++ [m]).

Definition with_config (g : Config -> Config) (st : State) : State :=
  mkState (g (config st)) (errlog st).

(** ** Feature and SetFeature *)

Record Feature : Type := mkFeature {
  name : string;
  default_value : Z;
  min_value : Z;
  max_value : Z;
  option_ : Z;                  (* uint64_t option *)
  value : option NumField;      (* size_t* value, None for nullptr *)
  config_ : option BoolField;   (* bool* config, None for nullptr *)
  combo_option : bool
}.

(** Lines 215-217: [if (feature.config) *feature.config = true;] *)
Definition set_config_flag (feature : Feature) (st : State) : State :=
  match config_ feature with
  | Some b => with_config (set_bool b true) st
  | None => st
  end.

Definition SetFeature (nm : string) (feature : Feature) (v : Z)
    (value_set : bool) (st : State) : bool * State :=
  let st := set_config_flag feature st in
  match value feature with
  | Some slot =>
      if value_set then
        if v <? min_value feature then
          (false, error_log (ValueBelowMin nm (min_value feature) v) st)
        else if v >? max_value feature then
          (false, error_log (ValueAboveMax nm (max_value feature) v) st)
        else (true, with_config (set_num slot v) st)
      else (true, with_config (set_num slot (default_value feature)) st)
  | None =>
      if value_set then (false, error_log (ValueNotTaken nm) st)
      else (true, st)
  end.

(** ** Config::SetFromProperties *)

(** The table [features] of [SetFromProperties], in the order of the
    source. *)
Definition features `{Target} : list Feature := [
  mkFeature "guard" 32 1 16384 0 None None true;
  mkFeature "front_guard" 32 1 16384 FRONT_GUARD
    (Some p_front_guard_bytes) None true;
  mkFeature "rear_guard" 32 1 16384 REAR_GUARD
    (Some p_rear_guard_bytes) None true;
  mkFeature "backtrace" 16 1 256 (Z.lor BACKTRACE TRACK_ALLOCS)
    (Some p_backtrace_frames) (Some p_backtrace_enabled) false;
  mkFeature "backtrace_enable_on_signal" 16 1 256 (Z.lor BACKTRACE TRACK_ALLOCS)
    (Some p_backtrace_frames) (Some p_backtrace_enable_on_signal) false;
  mkFeature "fill" SIZE_MAX 1 SIZE_MAX 0 None None true;
  mkFeature "fill_on_alloc" SIZE_MAX 1 SIZE_MAX FILL_ON_ALLOC
    (Some p_fill_on_alloc_bytes) None true;
  mkFeature "fill_on_free" SIZE_MAX 1 SIZE_MAX FILL_ON_FREE
    (Some p_fill_on_free_bytes) None true;
  mkFeature "expand_alloc" 16 1 16384 EXPAND_ALLOC
    (Some p_expand_alloc_bytes) None false;
  mkFeature "free_track" 100 1 16384 (Z.lor FREE_TRACK FILL_ON_FREE)
    (Some p_free_track_allocations) None false;
  mkFeature "free_track_backtrace_num_frames" 16 0 256 0
    (Some p_free_track_backtrace_num_frames) None false;
  mkFeature "leak_track" 0 0 0 (Z.lor LEAK_TRACK TRACK_ALLOCS) None None false
].

(** The locals of [SetFromProperties] that the loops share. *)
Record Locals : Type := mkLocals {
  l_property : string;
  l_value : Z;
  l_value_set : bool;
  found : bool;
  valid : bool
}.

Definition set_found (l : Locals) : Locals :=
  mkLocals (l_property l) (l_value l) (l_value_set l) true (valid l).

Definition set_invalid (l : Locals) : Locals :=
  mkLocals (l_property l) (l_value l) (l_value_set l) (found l) false.

(** Lines 319-325: the inner loop over the entries that follow a combo
    marker, from the entry behind the marker on.  Returns false when a
    [SetFeature] failed (the source then clears [valid] and breaks). *)
Fixpoint combo_loop (fs : list Feature) (l : Locals) (st : State)
    : bool * State :=
  match fs with
  | [] => (true, st)
  | f :: rest =>
      if combo_option f then
        let '(ok, st) := SetFeature (l_property l) f (l_value l) (l_value_set l) st in
        if ok then combo_loop rest l (with_config (or_options (option_ f)) st)
        else (false, st)
      else (true, st)
  end.

(** Lines 315-339: the loop over the table, from the entries [fs] that
    are still to be compared with the property. *)
Fixpoint feature_loop (fs : list Feature) (l : Locals) (st : State)
    : Locals * State :=
  match fs with
  | [] => (l, st)
  | f :: rest =>
      if String.eqb (l_property l) (name f) then
        if (option_ f =? 0) && combo_option f then
          let '(ok, st) := combo_loop rest l st in
          if ok then (set_found l, st) else (set_invalid l, st)
        else
          let '(ok, st) := SetFeature (l_property l) f (l_value l) (l_value_set l) st in
          if ok then (set_found l, with_config (or_options (option_ f)) st)
          else (set_invalid l, st)
      else feature_loop rest l st
  end.

(** What a returned [Get] leaves in the locals it was given pointers to. *)
Definition store_token (property : string) (ov : Datatypes.option Z)
    (l : Locals) : Locals :=
  match ov with
  | Some v => mkLocals property v true (found l) (valid l)
  | None => mkLocals property (l_value l) false (found l) (valid l)
  end.

(** Lines 314-345: [while (valid && parser.Get(...))].  Every iteration
    that goes round again has moved [cur_] forward, so the length of the
    buffer bounds the iterations; [fuel] counts them and [None] is the
    loop still running when it is used up. *)
Fixpoint while_loop `{Target} (fuel : nat) (p : PropertyParser) (l : Locals)
    (st : State) : Datatypes.option (PropertyParser * Locals * State) :=
  match fuel with
  | O => None
  | S fuel =>
      if valid l then
        match Get p with
        | GetOk p property ov =>
            let l := store_token property ov l in
            let '(l, st) := feature_loop features l st in
            if valid l && negb (found l) then
              Some (p, set_invalid l, error_log (UnknownOption (l_property l)) st)
            else while_loop fuel p l st
        | GetDone p => Some (p, l, st)
        | GetErr p property m =>
            Some (p, mkLocals property (l_value l) true (found l) (valid l),
                  error_log m st)
        end
      else Some (p, l, st)
  end.

(** Modelled from the spec: [BIONIC_ALIGN(value, alignment)] of
    private/bionic_macros.h (not among the sources at hand), which rounds
    [value] up to the next multiple of [alignment] in [size_t]
    arithmetic. *)
Definition BIONIC_ALIGN `{Target} (v alignment : Z) : Z :=
  ((v + alignment - 1) / alignment * alignment) mod (SIZE_MAX + 1).

(** Lines 251-256. *)
Definition init_defaults `{Target} (c : Config) : Config :=
  let '(mkConfig fg rg bs sig be bf fa ff ea ft fn o av fv gv rv) := c in
  mkConfig fg rg bs (SIGRTMIN + 10) be bf fa ff ea ft 16 o 235 239 170 187.

(** Lines 349-361. *)
Definition normalize `{Target} (c : Config) : Config :=
  let c :=
    if negb (Z.land (options c) FRONT_GUARD =? 0) then
      set_num p_front_guard_bytes
        (BIONIC_ALIGN (front_guard_bytes c) MINIMUM_ALIGNMENT_BYTES) c
    else c in
  if negb (Z.land (options c) FILL_ON_FREE =? 0) && (fill_on_free_bytes c =? 0)
  then set_num p_fill_on_free_bytes SIZE_MAX c
  else c.

(** [__system_property_get("libc.debug.malloc.options", property_str)]
    of the property store, which is not part of this file: it copies the
    value of the property into the zeroed buffer of [PROP_VALUE_MAX]
    bytes (values are shorter than that) and returns its length, which
    is 0 when the property is not set.  [prop] is the value in the
    store. *)
Definition __system_property_get (prop : string) : nat * string :=
  (strlen prop, prop).

(** [Config::SetFromProperties] on the [Config] of [st], with [prop] the
    value of the property libc.debug.malloc.options.  The result is the
    returned bool and the state left behind. *)
Definition SetFromProperties `{Target} (prop : string) (st : State)
    : Datatypes.option (bool * State) :=
  let '(len, property_str) := __system_property_get prop in
  if Nat.eqb len 0 then Some (false, st)
  else
    let st := with_config init_defaults st in
    let parser := mkParser property_str false in
    (* std::string property; size_t value; bool value_set;
       value and value_set are not initialised: SetFeature reads value
       only under value_set, and Get writes both before that. *)
    let l := mkLocals "" 0 false false true in
    match while_loop (S (String.length property_str)) parser l st with
    | None => None
    | Some (parser, l, st) =>
        let valid := valid l && done_ parser in
        if valid then Some (true, with_config normalize st)
        else Some (false, error_log Usage st)
    end.

(** The [Config] of a default-constructed object (the member
    initialisers of Config.h are zero and false). *)
Definition zero_config : Config :=
  mkConfig 0 0 false 0 false 0 0 0 0 0 0 0 0 0 0 0.

Definition start : State := mkState zero_config [].

(** ** Notions used to state the properties *)

(** The shape of option strings. *)
Fixpoint all_space (s : string) : bool :=
  match s with
  | EmptyString => true
  | String c r => isspace c && all_space r
  end.

Fixpoint name_chars (s : string) : bool :=
  match s with
  | EmptyString => true
  | String c r =>
      negb (isspace c) && negb (is_eq_sign c) && negb (is_nul c) && name_chars r
  end.

Fixpoint all_digits (s : string) : bool :=
  match s with
  | EmptyString => true
  | String c r => isdigit c && all_digits r
  end.

(** The number a string of decimal digits denotes, continuing [acc]. *)
Fixpoint decimal_from (acc : Z) (ds : string) : Z :=
  match ds with
  | EmptyString => acc
  | String c r => decimal_from (10 * acc + digit_value c) r
  end.

Definition decimal (ds : string) : Z := decimal_from 0 ds.

(** A decimal numeral: one digit at least, and digits only. *)
Definition numeral (ds : string) : bool :=
  isdigit (peek ds) && all_digits ds.

(** [reaches p q]: the parser in state [p] is in state [q] after some
    calls of [Get] that all returned true.  The tokens of an option
    string [s] are what [Get] returns in the states reached from
    [mkParser s false]. *)
Inductive reaches `{Target} : PropertyParser -> PropertyParser -> Prop :=
| reaches_here (p : PropertyParser) : reaches p p
| reaches_next (p p1 q : PropertyParser) (property : string)
    (ov : Datatypes.option Z) :
    Get p = GetOk p1 property ov -> reaches p1 q -> reaches p q.

(** [token_at s property ov]: [Get] returns the token [property]
    (with the value [ov], if any) at some point of parsing [s]. *)
Definition token_at `{Target} (s : string) (property : string)
    (ov : Datatypes.option Z) : Prop :=
  exists p p1, reaches (mkParser s false) p /\ Get p = GetOk p1 property ov.

(** [valid && parser.Done()] at line 347. *)
Definition final_valid
    (r : Datatypes.option (PropertyParser * Locals * State)) : bool :=
  match r with
  | Some (p, l, _) => valid l && done_ p
  | None => false
  end.

(** The three reasons for which the text [V] behind an '=' is refused:
    no number could be read from it (no digit, or not a [long]), a
    character that is neither white space nor the end follows the number,
    the number is negative. *)
Definition numeric_text_unparsable `{Target} (V : string) : bool :=
  let '(_, endp, errno) := strtol V in negb (errno =? 0) || ptr_eq V endp.

Definition trailing_non_space `{Target} (V : string) : bool :=
  let '(_, endp, _) := strtol V in
  negb (isspace (peek endp)) && negb (is_nul (peek endp)).

Definition parsed_negative `{Target} (V : string) : bool :=
  let '(read_value, _, _) := strtol V in read_value <? 0.

Definition is_GetErr (r : GetResult) : bool :=
  match r with GetErr _ _ _ => true | _ => false end.

(** The bits [m] are all set in [o]. *)
Definition has_bits (o m : Z) : Prop := Z.land o m = m.

(** The entry of the table a property name selects (the first one of
    that name), with the entries behind it. *)
Fixpoint lookup_feature (fs : list Feature) (property : string)
    : Datatypes.option (Feature * list Feature) :=
  match fs with
  | [] => None
  | f :: rest =>
      if String.eqb property (name f) then Some (f, rest)
      else lookup_feature rest property
  end.

(** A combo marker: no option bit, and the combo flag. *)
Definition is_marker (f : Feature) : bool :=
  (option_ f =? 0) && combo_option f.

(** The writes to the [Config] that parsing performs, to compare two runs
    of [SetFromProperties]. *)
Inductive Write : Type :=
| WNum (f : NumField) (v : Z)
| WBool (f : BoolField)
| WOr (m : Z).

Definition do_write (c : Config) (w : Write) : Config :=
  match w with
  | WNum f v => set_num f v c
  | WBool f => set_bool f true c
  | WOr m => or_options m c
  end.

Definition do_writes (ws : list Write) (c : Config) : Config :=
  fold_left do_write ws c.

Definition NumField_eqb (f g : NumField) : bool :=
  match f, g with
  | p_front_guard_bytes, p_front_guard_bytes
  | p_rear_guard_bytes, p_rear_guard_bytes
  | p_backtrace_frames, p_backtrace_frames
  | p_fill_on_alloc_bytes, p_fill_on_alloc_bytes
  | p_fill_on_free_bytes, p_fill_on_free_bytes
  | p_expand_alloc_bytes, p_expand_alloc_bytes
  | p_free_track_allocations, p_free_track_allocations
  | p_free_track_backtrace_num_frames, p_free_track_backtrace_num_frames => true
  | _, _ => false
  end.

Definition BoolField_eqb (f g : BoolField) : bool :=
  match f, g with
  | p_backtrace_enabled, p_backtrace_enabled
  | p_backtrace_enable_on_signal, p_backtrace_enable_on_signal => true
  | _, _ => false
  end.

(** The last value the writes [ws] give the member [f], if they write it;
    whether they set [b]; all the bits they or into [options]. *)
Fixpoint written (f : NumField) (ws : list Write) : Datatypes.option Z :=
  match ws with
  | [] => None
  | w :: rest =>
      match written f rest with
      | Some v => Some v
      | None =>
          match w with
          | WNum g v => if NumField_eqb f g then Some v else None
          | _ => None
          end
      end
  end.

Fixpoint raised (b : BoolField) (ws : list Write) : bool :=
  match ws with
  | [] => false
  | WBool g :: rest => BoolField_eqb b g || raised b rest
  | _ :: rest => raised b rest
  end.

Fixpoint ored (ws : list Write) : Z :=
  match ws with
  | [] => 0
  | WOr m :: rest => Z.lor m (ored rest)
  | _ :: rest => ored rest
  end.

(** What strtol makes of the number [v] it has read up to [endp]. *)
Definition strtol_clamp `{Target} (v : Z) (endp : string) : Z * string * Z :=
  if v >? LONG_MAX then (LONG_MAX, endp, ERANGE)
  else if v <? LONG_MIN then (LONG_MIN, endp, ERANGE)
  else (v, endp, 0).

(** A property [Q] of the [Config] that the writes of the entry [f]
    keep. *)
Definition keeps (Q : Config -> Prop) (f : Feature) : Prop :=
  (forall b c, config_ f = Some b -> Q c -> Q (set_bool b true c)) /\
  (forall slot v c, value f = Some slot -> Q c -> Q (set_num slot v c)).

(** The option that sets the [bool] member [b]. *)
Definition flag_option (b : BoolField) : string :=
  match b with
  | p_backtrace_enabled => "backtrace"
  | p_backtrace_enable_on_signal => "backtrace_enable_on_signal"
  end.

(** The member [f] after the writes [ws] to the [Config] [c]. *)
Definition pick (ws : list Write) (f : NumField) (c : Config) : Z :=
  match written f ws with
  | Some v => v
  | None => get_num f c
  end.

(** The writes of [SetFeature], which do not depend on the state. *)
Definition feature_writes (f : Feature) (v : Z) (value_set : bool)
    : list Write :=
  (match config_ f with Some b => [WBool b] | None => [] end ++
  match value f with
  | Some slot =>
      if value_set then
        if (v <? min_value f) || (v >? max_value f) then []
        else [WNum slot v]
      else [WNum slot (default_value f)]
  | None => []
  end)%list.

(** Whether [SetFeature] returns true; it does not depend on the state. *)
Definition accepts (f : Feature) (v : Z) (value_set : bool) : bool :=
  match value f with
  | Some _ =>
      if value_set then negb (v <? min_value f) && negb (v >? max_value f)
      else true
  | None => negb value_set
  end.

(** ** Notions for the properties of whole option strings *)

(** [parses p ts]: from the state [p] on, [Get] returns the tokens [ts]
    one after the other and then reports the end of the string. *)
Inductive parses `{Target} :
    PropertyParser -> list (string * Datatypes.option Z) -> Prop :=
| parses_done (p p1 : PropertyParser) :
    Get p = GetDone p1 -> parses p []
| parses_token (p p1 : PropertyParser) (property : string)
    (ov : Datatypes.option Z) (ts : list (string * Datatypes.option Z)) :
    Get p = GetOk p1 property ov -> parses p1 ts ->
    parses p ((property, ov) :: ts).

(** An option as it is written: a name, and possibly the digits of a
    value. *)
Definition option_text (t : string * Datatypes.option string) : string :=
  match t with
  | (n, Some ds) => n ++ String "=" ds
  | (n, None) => n
  end.

(** Options written one after the other, with one space between them. *)
Fixpoint render (ts : list (string * Datatypes.option string)) : string :=
  match ts with
  | [] => ""
  | [t] => option_text t
  | t :: rest => option_text t ++ String " " (render rest)
  end.

(** An option that is written well: a name of one character at least,
    without white space, '=' or NUL, and for a value a decimal numeral of a
    number that fits a [long]. *)
Definition well_written `{Target} (t : string * Datatypes.option string)
    : Prop :=
  fst t <> "" /\ name_chars (fst t) = true /\
  match snd t with
  | Some ds => numeral ds = true /\ decimal ds <= LONG_MAX
  | None => True
  end.

(** The token an option that is written well stands for. *)
Definition token_of (t : string * Datatypes.option string)
    : string * Datatypes.option Z :=
  (fst t, option_map decimal (snd t)).

(** [v] is within the bounds of an entry of [fs] that points to [slot]. *)
Definition in_bounds (fs : list Feature) (slot : NumField) (v : Z) : Prop :=
  exists f, In f fs /\ value f = Some slot /\ min_value f <= v <= max_value f.

(** The entries of a combo run: those at the head of [fs] that have the
    combo flag. *)
Fixpoint combo_run (fs : list Feature) : list Feature :=
  match fs with
  | f :: rest => if combo_option f then f :: combo_run rest else []
  | [] => []
  end.

(** The body of the loop of lines 314-345 over options that [Get] has
    read without an error: each goes through the table; the loop stops at
    the first one that clears [valid] or that leaves [found] unset. *)
Fixpoint run_tokens `{Target} (ts : list (string * Datatypes.option Z))
    (l : Locals) (st : State) : Locals * State :=
  match ts with
  | [] => (l, st)
  | (property, ov) :: rest =>
      let '(l, st) := feature_loop features (store_token property ov l) st in
      if valid l && negb (found l) then
        (set_invalid l, error_log (UnknownOption (l_property l)) st)
      else if valid l then run_tokens rest l st
      else (l, st)
  end.

(** The same value text for each entry of [fs]. *)
Definition each_with (o : Datatypes.option string) (fs : list Feature)
    : list (string * Datatypes.option string) :=
  map (fun g => (name g, o)) fs.

(** * Properties *)

(** ** The scanners move forward *)

Lemma skip_space_length (p : string) :
  (String.length (skip_space p) <= String.length p)%nat.
Proof.
  induction p as [|c r IH]; simpl; [lia|].
  destruct (isspace c); simpl; lia.
Qed.

Lemma skip_space_before_eq_length (p : string) :
  (String.length (skip_space_before_eq p) <= String.length p)%nat.
Proof.
  induction p as [|c r IH]; simpl; [lia|].
  destruct (isspace c && negb (is_eq_sign c) && negb (is_nul c)); simpl; lia.
Qed.

Lemma scan_name_length (p n q : string) :
  scan_name p = (n, q) ->
  String.length p = (String.length n + String.length q)%nat.
Proof.
  revert n q; induction p as [|c r IH]; simpl; intros n q E.
  - inversion E; reflexivity.
  - destruct (negb (isspace c) && negb (is_eq_sign c) && negb (is_nul c)).
    + destruct (scan_name r) as [n' q'] eqn:Er.
      inversion E; subst; simpl. rewrite (IH n' q eq_refl); reflexivity.
    + inversion E; reflexivity.
Qed.

(** When [scan_name] does not move, the character under the pointer is
    white space, '=' or NUL. *)
Lemma scan_name_stuck (p q : string) :
  scan_name p = (EmptyString, q) ->
  q = p /\
  negb (isspace (peek p)) && negb (is_eq_sign (peek p)) && negb (is_nul (peek p))
    = false.
Proof.
  destruct p as [|c r]; simpl; intros E.
  - inversion E; split; reflexivity.
  - destruct (negb (isspace c) && negb (is_eq_sign c) && negb (is_nul c)) eqn:B.
    + destruct (scan_name r); discriminate.
    + inversion E; split; reflexivity.
Qed.

Lemma strtol_digits_length (p : string) (acc n : Z) (endp : string) :
  strtol_digits p acc = (n, endp) ->
  (String.length endp <= String.length p)%nat.
Proof.
  revert acc; induction p as [|c r IH]; simpl; intros acc E.
  - inversion E; simpl; lia.
  - destruct (isdigit c).
    + apply IH in E; lia.
    + inversion E; simpl; lia.
Qed.

Lemma advance_length (p : string) :
  (String.length (advance p) <= String.length p)%nat.
Proof. destruct p; simpl; lia. Qed.

Lemma advance_peek_length (p : string) :
  is_nul (peek p) = false ->
  String.length p = S (String.length (advance p)).
Proof. destruct p; simpl; [discriminate | reflexivity]. Qed.

Section Parser.
Context `{T : Target}.

Lemma strtol_length (nptr : string) (v : Z) (endp : string) (e : Z) :
  strtol nptr = (v, endp, e) ->
  (String.length endp <= String.length nptr)%nat.
Proof.
  unfold strtol.
  pose proof (skip_space_length nptr) as Hs.
  set (p0 := skip_space nptr) in *.
  assert (Hp : forall neg p, (neg, p) =
      (if Ascii.eqb (peek p0) "-" then (true, advance p0)
       else if Ascii.eqb (peek p0) "+" then (false, advance p0)
       else (false, p0)) -> (String.length p <= String.length nptr)%nat).
  { intros neg p E. pose proof (advance_length p0).
    destruct (Ascii.eqb (peek p0) "-"); [inversion E; lia|].
    destruct (Ascii.eqb (peek p0) "+"); inversion E; lia. }
  destruct (if Ascii.eqb (peek p0) "-" then (true, advance p0)
       else if Ascii.eqb (peek p0) "+" then (false, advance p0)
       else (false, p0)) as [neg p] eqn:E.
  specialize (Hp neg p eq_refl).
  destruct (isdigit (peek p)).
  - destruct (strtol_digits p 0) as [n e'] eqn:Ed.
    apply strtol_digits_length in Ed.
    destruct ((if neg then - n else n) >? LONG_MAX);
      [intros E'; inversion E'; subst; lia|].
    destruct ((if neg then - n else n) <? LONG_MIN);
      intros E'; inversion E'; subst; lia.
  - intros E'; inversion E'; subst; lia.
Qed.

(** [Get_value] either fails or leaves the pointer at the end of the
    number. *)
Lemma Get_value_ok (d : bool) (property cur : string) (p : PropertyParser)
    (n : string) (ov : Datatypes.option Z) :
  Get_value d property cur = GetOk p n ov ->
  exists read_value endp,
    strtol cur = (read_value, endp, 0) /\
    ptr_eq cur endp = false /\
    (isspace (peek endp) = true \/ is_nul (peek endp) = true) /\
    0 <= read_value /\
    p = mkParser endp d /\ n = property /\ ov = Some (to_size_t read_value).
Proof.
  unfold Get_value.
  destruct (strtol cur) as [[rv endp] e] eqn:Es.
  destruct (e =? 0) eqn:Ee; simpl; [|discriminate].
  apply Z.eqb_eq in Ee; subst e.
  destruct (ptr_eq cur endp) eqn:Ep; simpl; [discriminate|].
  destruct (isspace (peek endp)) eqn:Esp; simpl.
  - destruct (rv <? 0) eqn:En; [discriminate|].
    intros E; inversion E; subst. exists rv, endp.
    apply Z.ltb_ge in En. repeat split; auto.
  - destruct (is_nul (peek endp)) eqn:En0; simpl; [|discriminate].
    destruct (rv <? 0) eqn:En; [discriminate|].
    intros E; inversion E; subst. exists rv, endp.
    apply Z.ltb_ge in En. repeat split; auto.
Qed.

Lemma Get_value_done (d : bool) (property cur : string) :
  match Get_value d property cur with
  | GetOk p _ _ | GetDone p | GetErr p _ _ => done_ p = d
  end.
Proof.
  unfold Get_value.
  destruct (strtol cur) as [[rv endp] e].
  destruct (negb (e =? 0)); [reflexivity|].
  destruct (ptr_eq cur endp || _).
  - destruct (ptr_eq cur endp); reflexivity.
  - destruct (rv <? 0); reflexivity.
Qed.

Lemma Get_value_not_done (d : bool) (property cur : string)
    (p : PropertyParser) :
  Get_value d property cur <> GetDone p.
Proof.
  unfold Get_value.
  destruct (strtol cur) as [[rv endp] e].
  destruct (negb (e =? 0)); [discriminate|].
  destruct (ptr_eq cur endp || _).
  - destruct (ptr_eq cur endp); discriminate.
  - destruct (rv <? 0); discriminate.
Qed.

(** A call of [Get] that returns true has moved [cur_] forward and left
    [done_] as it was. *)
Lemma Get_ok_progress (p p1 : PropertyParser) (n : string)
    (ov : Datatypes.option Z) :
  Get p = GetOk p1 n ov ->
  (String.length (cur_ p1) < String.length (cur_ p))%nat /\
  done_ p1 = done_ p.
Proof.
  unfold Get.
  pose proof (skip_space_length (cur_ p)) as H0.
  set (c0 := skip_space (cur_ p)) in *.
  destruct (is_nul (peek c0)) eqn:Hnul; [discriminate|].
  destruct (scan_name c0) as [nm c1] eqn:Hscan.
  pose proof (scan_name_length _ _ _ Hscan) as H1.
  pose proof (skip_space_before_eq_length c1) as H2.
  set (c2 := skip_space_before_eq c1) in *.
  destruct (is_eq_sign (peek c2)) eqn:Heq.
  - intros E. pose proof (Get_value_done (done_ p) nm (advance c2)) as Hd.
    rewrite E in Hd. split; [|exact Hd].
    apply Get_value_ok in E.
    destruct E as (rv & endp & Es & _ & _ & _ & -> & _ & _).
    apply strtol_length in Es. simpl.
    assert (is_nul (peek c2) = false).
    { unfold is_eq_sign, is_nul in *. apply Ascii.eqb_eq in Heq.
      rewrite Heq. reflexivity. }
    pose proof (advance_peek_length c2 H). lia.
  - intros E; injection E as <- <- <-; simpl. split; [|reflexivity].
    destruct nm as [|a nm'].
    + apply scan_name_stuck in Hscan. destruct Hscan as [-> Hst].
      rewrite Hnul in Hst. simpl in Hst.
      rewrite andb_true_r in Hst.
      apply andb_false_iff in Hst.
      assert (Hsp : isspace (peek c0) = true \/ is_eq_sign (peek c0) = true).
      { destruct Hst as [Hst|Hst]; apply negb_false_iff in Hst; auto. }
      clear Hst. fold c2 in Heq.
      destruct c0 as [|a r]; [discriminate|].
      simpl in Hsp. destruct Hsp as [Hsp|Hsp].
      * subst c2. simpl in *. rewrite Hsp in *. 
        assert (is_eq_sign a = false).
        { destruct (is_eq_sign a) eqn:Ea; auto.
          unfold is_eq_sign in Ea. apply Ascii.eqb_eq in Ea. subst a.
          discriminate. }
        rewrite H, Hnul in *. simpl in *.
        pose proof (skip_space_before_eq_length r). lia.
      * subst c2. simpl in *. rewrite Hsp in Heq.
        rewrite andb_false_r in Heq. simpl in Heq. congruence.
    + simpl in H1. lia.
Qed.

Lemma Get_err_done (p p1 : PropertyParser) (n : string) (m : LogMsg) :
  Get p = GetErr p1 n m -> done_ p1 = done_ p.
Proof.
  unfold Get.
  destruct (is_nul (peek (skip_space (cur_ p)))); [discriminate|].
  destruct (scan_name (skip_space (cur_ p))) as [nm c1].
  destruct (is_eq_sign (peek (skip_space_before_eq c1))); [|discriminate].
  intros E.
  pose proof (Get_value_done (done_ p) nm (advance (skip_space_before_eq c1))) as Hd.
  rewrite E in Hd. exact Hd.
Qed.

Lemma Get_done_done (p p1 : PropertyParser) :
  Get p = GetDone p1 -> done_ p1 = true.
Proof.
  unfold Get.
  destruct (is_nul (peek (skip_space (cur_ p)))).
  - intros E; inversion E; reflexivity.
  - destruct (scan_name (skip_space (cur_ p))) as [nm c1].
    destruct (is_eq_sign (peek (skip_space_before_eq c1))); [|discriminate].
    intros E.
    pose proof (Get_value_ok (done_ p) nm (advance (skip_space_before_eq c1))).
    unfold Get_value in E.
    destruct (strtol _) as [[rv endp] e].
    destruct (negb (e =? 0)); [discriminate|].
    destruct (ptr_eq _ endp || _).
    + destruct (ptr_eq _ endp); discriminate.
    + destruct (rv <? 0); discriminate.
Qed.

End Parser.

(** ** The loop of SetFromProperties *)

Lemma SetFeature_accepts (nm : string) (f : Feature) (v : Z) (vs : bool)
    (st : State) :
  fst (SetFeature nm f v vs st) = accepts f v vs.
Proof.
  unfold SetFeature, accepts.
  destruct (value f); destruct vs; try reflexivity.
  destruct (v <? min_value f); [reflexivity|].
  destruct (v >? max_value f); reflexivity.
Qed.

(** The table loop applies the entry the property selects. *)
Lemma feature_loop_lookup (fs : list Feature) (l : Locals) (st : State) :
  feature_loop fs l st =
  match lookup_feature fs (l_property l) with
  | None => (l, st)
  | Some (f, rest) =>
      if is_marker f then
        let '(ok, st) := combo_loop rest l st in
        if ok then (set_found l, st) else (set_invalid l, st)
      else
        let '(ok, st) := SetFeature (l_property l) f (l_value l) (l_value_set l) st in
        if ok then (set_found l, with_config (or_options (option_ f)) st)
        else (set_invalid l, st)
  end.
Proof.
  induction fs as [|f rest IH]; simpl; [reflexivity|].
  destruct (String.eqb (l_property l) (name f)); [reflexivity|exact IH].
Qed.

Lemma lookup_feature_In (fs rest : list Feature) (n : string) (f : Feature) :
  lookup_feature fs n = Some (f, rest) -> In f fs /\ name f = n.
Proof.
  induction fs as [|g fs IH]; simpl; [discriminate|].
  destruct (String.eqb n (name g)) eqn:E.
  - intros H; injection H as <- <-. apply String.eqb_eq in E. auto.
  - intros H. destruct (IH H). auto.
Qed.

(** A token that [SetFeature] refuses for the entry of its name clears
    [valid]. *)
Lemma feature_loop_refuses (fs rest : list Feature) (l : Locals) (st : State)
    (f : Feature) :
  lookup_feature fs (l_property l) = Some (f, rest) ->
  is_marker f = false ->
  accepts f (l_value l) (l_value_set l) = false ->
  valid (fst (feature_loop fs l st)) = false.
Proof.
  intros Hl Hm Ha. rewrite feature_loop_lookup, Hl, Hm.
  pose proof (SetFeature_accepts (l_property l) f (l_value l) (l_value_set l) st) as E.
  destruct (SetFeature _ f _ _ st) as [ok st']. simpl in E. rewrite E, Ha.
  reflexivity.
Qed.

Section Loop.
Context `{T : Target}.

(** One turn of the loop. *)
Lemma while_loop_S (fuel : nat) (p : PropertyParser) (l : Locals) (st : State) :
  while_loop (S fuel) p l st =
  if valid l then
    match Get p with
    | GetOk p property ov =>
        let '(l, st) := feature_loop features (store_token property ov l) st in
        if valid l && negb (found l) then
          Some (p, set_invalid l, error_log (UnknownOption (l_property l)) st)
        else while_loop fuel p l st
    | GetDone p => Some (p, l, st)
    | GetErr p property m =>
        Some (p, mkLocals property (l_value l) true (found l) (valid l),
              error_log m st)
    end
  else Some (p, l, st).
Proof. reflexivity. Qed.

Lemma while_loop_invalid (fuel : nat) (p : PropertyParser) (l : Locals)
    (st : State) :
  valid l = false -> while_loop (S fuel) p l st = Some (p, l, st).
Proof. intros H; rewrite while_loop_S, H; reflexivity. Qed.

(** The loop ends before the fuel does. *)
Lemma while_loop_total (fuel : nat) :
  forall (p : PropertyParser) (l : Locals) (st : State),
  (String.length (cur_ p) < fuel)%nat ->
  exists r, while_loop fuel p l st = Some r.
Proof.
  induction fuel as [|fuel IH]; intros p l st Hlen; [lia|].
  rewrite while_loop_S. destruct (valid l); [|eauto].
  destruct (Get p) as [p1 n ov|p1|p1 n m] eqn:EG; eauto.
  destruct (feature_loop features (store_token n ov l) st) as [l' st'].
  destruct (valid l' && negb (found l')); eauto.
  apply IH. apply Get_ok_progress in EG. lia.
Qed.

(** The loop never ends with more validity than it started with. *)
Lemma while_loop_from_invalid (fuel : nat) (p : PropertyParser) (l : Locals)
    (st : State) :
  valid l = false -> final_valid (while_loop fuel p l st) = false.
Proof.
  intros H. destruct fuel; [reflexivity|].
  rewrite while_loop_invalid by exact H. simpl. rewrite H. reflexivity.
Qed.

(** A failure at a reached state fails the whole loop. *)
Lemma failure_propagates (p q : PropertyParser) :
  reaches p q ->
  (forall fuel l st, final_valid (while_loop fuel q l st) = false) ->
  forall fuel l st, final_valid (while_loop fuel p l st) = false.
Proof.
  induction 1 as [p|p p1 q n ov EG Hr IH]; intros Hq fuel l st; [apply Hq|].
  destruct fuel as [|fuel]; [reflexivity|].
  rewrite while_loop_S.
  destruct (valid l) eqn:Hv; [|simpl; rewrite Hv; reflexivity].
  rewrite EG.
  destruct (feature_loop features (store_token n ov l) st) as [l' st'].
  destruct (valid l' && negb (found l')); [reflexivity|].
  apply IH, Hq.
Qed.

Lemma Get_error_fails (q q1 : PropertyParser) (n : string) (m : LogMsg) :
  done_ q = false ->
  Get q = GetErr q1 n m ->
  forall fuel l st, final_valid (while_loop fuel q l st) = false.
Proof.
  intros Hd EG fuel l st.
  destruct fuel as [|fuel]; [reflexivity|].
  rewrite while_loop_S.
  destruct (valid l) eqn:Hv; [|simpl; rewrite Hv; reflexivity].
  rewrite EG. simpl. apply Get_err_done in EG. rewrite EG, Hd.
  reflexivity.
Qed.

Lemma reaches_done (p q : PropertyParser) :
  reaches p q -> done_ q = done_ p.
Proof.
  induction 1 as [p|p p1 q n ov EG Hr IH]; [reflexivity|].
  apply Get_ok_progress in EG. destruct EG as [_ EG]. congruence.
Qed.

(** A token that the table loop refuses, whatever the state, fails the
    whole loop. *)
Lemma refused_token_fails (q q1 : PropertyParser) (n : string)
    (ov : Datatypes.option Z) :
  Get q = GetOk q1 n ov ->
  (forall l st, valid (fst (feature_loop features (store_token n ov l) st)) = false) ->
  forall fuel l st, final_valid (while_loop fuel q l st) = false.
Proof.
  intros EG Hf fuel l st.
  destruct fuel as [|fuel]; [reflexivity|].
  rewrite while_loop_S.
  destruct (valid l) eqn:Hv; [|simpl; rewrite Hv; reflexivity].
  rewrite EG. specialize (Hf l st).
  destruct (feature_loop features (store_token n ov l) st) as [l' st'].
  simpl in Hf. rewrite Hf. simpl.
  apply while_loop_from_invalid, Hf.
Qed.

(** What [SetFromProperties] returns, from what the loop leaves. *)
Lemma SetFromProperties_fails (prop : string) (st : State) :
  final_valid
    (while_loop (S (String.length prop)) (mkParser prop false)
       (mkLocals "" 0 false false true) (with_config init_defaults st)) = false ->
  exists st', SetFromProperties prop st = Some (false, st').
Proof.
  intros H. unfold SetFromProperties, __system_property_get.
  destruct (Nat.eqb (strlen prop) 0); [eauto|].
  destruct (while_loop_total (S (String.length prop)) (mkParser prop false)
    (mkLocals "" 0 false false true) (with_config init_defaults st))
    as [[[p l] st'] E]; [simpl; lia|].
  rewrite E in *. simpl in H. rewrite H. eauto.
Qed.

(** [SetFromProperties] always returns. *)
Lemma SetFromProperties_total (prop : string) (st : State) :
  exists ok st', SetFromProperties prop st = Some (ok, st').
Proof.
  unfold SetFromProperties, __system_property_get.
  destruct (Nat.eqb (strlen prop) 0); [eauto|].
  destruct (while_loop_total (S (String.length prop)) (mkParser prop false)
    (mkLocals "" 0 false false true) (with_config init_defaults st))
    as [[[p l] st'] E]; [simpl; lia|].
  rewrite E. destruct (valid l && done_ p); eauto.
Qed.

End Loop.

(** ** Tokens of the form name=V *)

Lemma name_chars_head (a : ascii) (n : string) :
  name_chars (String a n) = true ->
  isspace a = false /\ is_eq_sign a = false /\ is_nul a = false /\
  name_chars n = true.
Proof.
  simpl. intros H.
  repeat (apply andb_true_iff in H; destruct H as [H ?]).
  repeat split; auto; apply negb_true_iff; assumption.
Qed.

Lemma skip_space_app (ws r : string) :
  all_space ws = true -> isspace (peek r) = false ->
  skip_space (ws ++ r) = r.
Proof.
  intros Hws Hr. induction ws as [|c ws IH].
  - destruct r as [|a r]; [reflexivity|]. simpl in *. rewrite Hr. reflexivity.
  - simpl in Hws. apply andb_true_iff in Hws. destruct Hws as [Hc Hws].
    simpl. rewrite Hc. auto.
Qed.

Lemma isspace_not_eq_nul (c : ascii) :
  isspace c = true -> is_eq_sign c = false /\ is_nul c = false.
Proof.
  intros H. split.
  - destruct (is_eq_sign c) eqn:E; [|reflexivity].
    apply Ascii.eqb_eq in E. subst c. discriminate.
  - destruct (is_nul c) eqn:E; [|reflexivity].
    apply Ascii.eqb_eq in E. subst c. discriminate.
Qed.

Lemma skip_space_before_eq_app (ws r : string) :
  all_space ws = true -> isspace (peek r) = false ->
  skip_space_before_eq (ws ++ r) = r.
Proof.
  intros Hws Hr. induction ws as [|c ws IH].
  - destruct r as [|a r]; [reflexivity|]. simpl in *. rewrite Hr. reflexivity.
  - simpl in Hws. apply andb_true_iff in Hws. destruct Hws as [Hc Hws].
    simpl. destruct (isspace_not_eq_nul c Hc) as [-> ->].
    rewrite Hc. simpl. auto.
Qed.

Lemma scan_name_app (n r : string) :
  name_chars n = true ->
  negb (isspace (peek r)) && negb (is_eq_sign (peek r)) && negb (is_nul (peek r))
    = false ->
  scan_name (n ++ r) = (n, r).
Proof.
  intros Hn Hr. induction n as [|a n IH].
  - simpl. destruct r as [|b r]; [reflexivity|].
    simpl in *. rewrite Hr. reflexivity.
  - apply name_chars_head in Hn. destruct Hn as (Ha & Hb & Hc & Hn).
    simpl. rewrite Ha, Hb, Hc. simpl. rewrite (IH Hn). reflexivity.
Qed.

Lemma all_space_app (a b : string) :
  all_space a = true -> all_space b = true -> all_space (a ++ b) = true.
Proof.
  intros Ha Hb. induction a as [|c a IH]; simpl in *; [assumption|].
  apply andb_true_iff in Ha. destruct Ha as [-> Ha]. simpl. auto.
Qed.

Lemma string_app_assoc (a b c : string) : (a ++ b) ++ c = a ++ b ++ c.
Proof. induction a as [|x a IH]; simpl; [reflexivity|]. now rewrite IH. Qed.

Lemma peek_space_app (ws r : string) :
  all_space ws = true ->
  negb (isspace (peek (ws ++ String "=" r))) &&
  negb (is_eq_sign (peek (ws ++ String "=" r))) &&
  negb (is_nul (peek (ws ++ String "=" r))) = false.
Proof.
  destruct ws as [|c ws]; simpl; [reflexivity|].
  intros H. apply andb_true_iff in H. destruct H as [-> _]. reflexivity.
Qed.

Section Tokens.
Context `{T : Target}.

(** On a token of the form name=V, with white space allowed before the
    name and before the '=', [Get] turns to the value [V]. *)
Lemma Get_name_eq (ws n ws' V : string) (d : bool) :
  all_space ws = true -> name_chars n = true -> all_space ws' = true ->
  Get (mkParser (ws ++ n ++ ws' ++ String "=" V) d) = Get_value d n V.
Proof.
  intros Hws Hn Hws'. unfold Get; simpl cur_; simpl done_.
  destruct n as [|a n].
  - change (ws ++ "" ++ ws' ++ String "=" V) with (ws ++ ws' ++ String "=" V).
    rewrite <- string_app_assoc.
    rewrite skip_space_app by (auto using all_space_app).
    reflexivity.
  - destruct (name_chars_head _ _ Hn) as (Ha & Hb & Hc & Hn').
    rewrite skip_space_app by (simpl; auto).
    change (peek (String a n ++ ws' ++ String "=" V)) with a. rewrite Hc.
    rewrite scan_name_app by (auto using peek_space_app).
    rewrite skip_space_before_eq_app by (simpl; auto). reflexivity.
Qed.

(** [Get_value] refuses for the three reasons, and only for them. *)
Lemma Get_value_refuses (d : bool) (n V : string) :
  is_GetErr (Get_value d n V) =
  numeric_text_unparsable V || trailing_non_space V || parsed_negative V.
Proof.
  unfold Get_value, numeric_text_unparsable, trailing_non_space, parsed_negative.
  destruct (strtol V) as [[rv endp] e].
  destruct (negb (e =? 0)); [reflexivity|].
  destruct (ptr_eq V endp); [reflexivity|]. simpl.
  destruct (negb (isspace (peek endp)) && negb (is_nul (peek endp)));
    [reflexivity|].
  simpl. destruct (rv <? 0); reflexivity.
Qed.

End Tokens.

(** ** Decimal numerals and strtol *)

Lemma isdigit_value (c : ascii) :
  isdigit c = true -> 0 <= digit_value c <= 9.
Proof.
  unfold isdigit, digit_value. intros H.
  apply andb_true_iff in H. destruct H as [H1 H2].
  apply N.leb_le in H1, H2. lia.
Qed.

Lemma isdigit_not_space_sign (c : ascii) :
  isdigit c = true ->
  isspace c = false /\ Ascii.eqb c "-" = false /\ Ascii.eqb c "+" = false.
Proof.
  intros H. repeat split.
  - destruct (isspace c) eqn:E; [|reflexivity].
    unfold isdigit, isspace in *.
    apply andb_true_iff in H. destruct H as [H1 H2].
    apply N.leb_le in H1, H2.
    apply orb_true_iff in E. destruct E as [E|E].
    + apply andb_true_iff in E. destruct E as [E1 E2].
      apply N.leb_le in E2. lia.
    + apply N.eqb_eq in E. lia.
  - destruct (Ascii.eqb c "-") eqn:E; [|reflexivity].
    apply Ascii.eqb_eq in E. subst c. discriminate.
  - destruct (Ascii.eqb c "+") eqn:E; [|reflexivity].
    apply Ascii.eqb_eq in E. subst c. discriminate.
Qed.

Lemma decimal_from_ge (ds : string) :
  forall acc, all_digits ds = true -> 0 <= acc -> acc <= decimal_from acc ds.
Proof.
  induction ds as [|c ds IH]; cbn [decimal_from all_digits];
    intros acc Hd Ha; [lia|].
  apply andb_true_iff in Hd. destruct Hd as [Hc Hd].
  pose proof (isdigit_value c Hc).
  specialize (IH (10 * acc + digit_value c) Hd). lia.
Qed.

Lemma decimal_nonneg (ds : string) :
  all_digits ds = true -> 0 <= decimal ds.
Proof. intros H. apply decimal_from_ge; [assumption|lia]. Qed.

Lemma strtol_digits_app (ds r : string) :
  forall acc, all_digits ds = true -> isdigit (peek r) = false ->
  strtol_digits (ds ++ r) acc = (decimal_from acc ds, r).
Proof.
  induction ds as [|c ds IH]; intros acc Hd Hr.
  - destruct r as [|a r]; [reflexivity|]. simpl in *. rewrite Hr. reflexivity.
  - cbn [all_digits] in Hd. apply andb_true_iff in Hd. destruct Hd as [Hc Hd].
    cbn [append strtol_digits decimal_from]. rewrite Hc. auto.
Qed.

Lemma numeral_parts (ds : string) :
  numeral ds = true ->
  exists c r, ds = String c r /\ isdigit c = true /\ all_digits ds = true.
Proof.
  unfold numeral. intros H. apply andb_true_iff in H. destruct H as [H1 H2].
  destruct ds as [|c r]; [discriminate|]. exists c, r. auto.
Qed.

Section Strtol.
Context `{T : Target}.

Lemma strtol_numeral (ds r : string) :
  numeral ds = true -> isdigit (peek r) = false ->
  strtol (ds ++ r) = strtol_clamp (decimal ds) r.
Proof.
  intros Hn Hr. destruct (numeral_parts ds Hn) as (c & ds' & -> & Hc & Hd).
  destruct (isdigit_not_space_sign c Hc) as (Hs & Hm & Hp).
  unfold strtol. cbn [append skip_space]. rewrite Hs.
  cbn [peek]. rewrite Hm, Hp. cbv beta iota. cbn [peek]. rewrite Hc.
  change (String c (ds' ++ r)) with (String c ds' ++ r).
  rewrite strtol_digits_app by assumption. reflexivity.
Qed.

Lemma strtol_plus_numeral (ds r : string) :
  numeral ds = true -> isdigit (peek r) = false ->
  strtol (String "+" (ds ++ r)) = strtol_clamp (decimal ds) r.
Proof.
  intros Hn Hr. destruct (numeral_parts ds Hn) as (c & ds' & -> & Hc & Hd).
  unfold strtol. cbn [append].
  change (skip_space (String "+" (String c (ds' ++ r))))
    with (String "+" (String c (ds' ++ r))).
  cbn [peek advance]. 
  change (Ascii.eqb "+" "-") with false. change (Ascii.eqb "+" "+") with true.
  cbv iota. cbn [peek]. rewrite Hc.
  change (String c (ds' ++ r)) with (String c ds' ++ r).
  rewrite strtol_digits_app by assumption. reflexivity.
Qed.

Lemma strtol_minus_numeral (ds r : string) :
  numeral ds = true -> isdigit (peek r) = false ->
  strtol (String "-" (ds ++ r)) = strtol_clamp (- decimal ds) r.
Proof.
  intros Hn Hr. destruct (numeral_parts ds Hn) as (c & ds' & -> & Hc & Hd).
  unfold strtol. cbn [append].
  change (skip_space (String "-" (String c (ds' ++ r))))
    with (String "-" (String c (ds' ++ r))).
  cbn [peek advance].
  change (Ascii.eqb "-" "-") with true.
  cbv iota. cbn [peek]. rewrite Hc.
  change (String c (ds' ++ r)) with (String c ds' ++ r).
  rewrite strtol_digits_app by assumption. reflexivity.
Qed.

(** Without an error strtol returns a [long]. *)
Lemma strtol_range (nptr : string) (v : Z) (endp : string) :
  strtol nptr = (v, endp, 0) -> ptr_eq nptr endp = false ->
  LONG_MIN <= v <= LONG_MAX.
Proof.
  unfold strtol.
  destruct (if Ascii.eqb (peek (skip_space nptr)) "-" then _ else _) as [neg p].
  destruct (isdigit (peek p)).
  - destruct (strtol_digits p 0) as [n e].
    destruct (_ >? LONG_MAX) eqn:E1; [discriminate|].
    destruct (_ <? LONG_MIN) eqn:E2; [discriminate|].
    intros E _; inversion E; subst.
    apply Z.ltb_ge in E2. rewrite Z.gtb_ltb in E1. apply Z.ltb_ge in E1. lia.
  - intros E Hp; inversion E; subst. unfold ptr_eq in Hp.
    rewrite Nat.eqb_refl in Hp. discriminate.
Qed.

End Strtol.

Lemma space_or_end_not_digit (r : string) :
  isspace (peek r) = true \/ is_nul (peek r) = true -> isdigit (peek r) = false.
Proof.
  intros [H|H]; destruct (isdigit (peek r)) eqn:E; try reflexivity.
  - apply isdigit_not_space_sign in E. destruct E as [E _]. congruence.
  - apply Ascii.eqb_eq in H. rewrite H in E. discriminate.
Qed.

Lemma length_app (a r : string) :
  String.length (a ++ r) = (String.length a + String.length r)%nat.
Proof. induction a as [|c a IH]; simpl; [reflexivity|]. now rewrite IH. Qed.

Lemma ptr_eq_app (a r : string) :
  a <> EmptyString -> ptr_eq (a ++ r) r = false.
Proof.
  intros Ha. unfold ptr_eq. apply Nat.eqb_neq.
  rewrite length_app. destruct a; [congruence|simpl; lia].
Qed.

Section Values.
Context `{T : Target}.

(** [Get_value] accepts what strtol read without an error, up to white
    space or the end, when it is not negative. *)
Lemma Get_value_accept (d : bool) (n V : string) (rv : Z) (endp : string) :
  strtol V = (rv, endp, 0) -> ptr_eq V endp = false ->
  isspace (peek endp) = true \/ is_nul (peek endp) = true ->
  0 <= rv ->
  Get_value d n V = GetOk (mkParser endp d) n (Some (to_size_t rv)).
Proof.
  intros Es Hp He Hrv. unfold Get_value. rewrite Es, Hp. simpl.
  replace (negb (isspace (peek endp)) && negb (is_nul (peek endp))) with false
    by (destruct He as [-> | ->]; [reflexivity | symmetry; apply andb_false_r]).
  apply Z.ltb_ge in Hrv. rewrite Hrv. reflexivity.
Qed.

Lemma to_size_t_small (v : Z) : 0 <= v <= SIZE_MAX -> to_size_t v = v.
Proof. intros H. unfold to_size_t. apply Z.mod_small. lia. Qed.

(** A numeral that fits a [long], with or without a '+' before it. *)
Lemma Get_value_numeral (d : bool) (n ds r : string) :
  LONG_MAX <= SIZE_MAX ->
  numeral ds = true -> decimal ds <= LONG_MAX ->
  isspace (peek r) = true \/ is_nul (peek r) = true ->
  Get_value d n (ds ++ r) = GetOk (mkParser r d) n (Some (decimal ds)) /\
  Get_value d n (String "+" (ds ++ r)) = GetOk (mkParser r d) n (Some (decimal ds)).
Proof.
  intros HT Hn Hle Hr.
  pose proof (space_or_end_not_digit r Hr) as Hnd.
  destruct (numeral_parts ds Hn) as (c & ds' & Eds & Hc & Hd).
  pose proof (decimal_nonneg ds Hd) as H0.
  assert (Hclamp : strtol_clamp (decimal ds) r = (decimal ds, r, 0)).
  { unfold strtol_clamp, LONG_MIN.
    replace (decimal ds >? LONG_MAX) with false by (symmetry; rewrite Z.gtb_ltb; apply Z.ltb_ge; lia).
    replace (decimal ds <? - LONG_MAX - 1) with false by (symmetry; apply Z.ltb_ge; lia).
    reflexivity. }
  pose proof (to_size_t_small (decimal ds) ltac:(lia)) as Hsz.
  split;
    (replace (Some (decimal ds)) with (Some (to_size_t (decimal ds)))
       by (rewrite Hsz; reflexivity));
    apply Get_value_accept; auto.
  - rewrite strtol_numeral by assumption. exact Hclamp.
  - apply ptr_eq_app. subst ds. discriminate.
  - rewrite strtol_plus_numeral by assumption. exact Hclamp.
  - apply (ptr_eq_app (String "+" ds) r). discriminate.
Qed.

(** A numeral that does not fit a [long] is refused with [ERANGE]. *)
Lemma Get_value_overflow (d : bool) (n ds r : string) :
  numeral ds = true -> isdigit (peek r) = false -> LONG_MAX < decimal ds ->
  Get_value d n (ds ++ r) =
  GetErr (mkParser (ds ++ r) d) n (BadValueErrno n ERANGE).
Proof.
  intros Hn Hr Hgt. unfold Get_value.
  rewrite strtol_numeral by assumption. unfold strtol_clamp.
  replace (decimal ds >? LONG_MAX) with true
    by (symmetry; rewrite Z.gtb_ltb; apply Z.ltb_lt; lia).
  reflexivity.
Qed.

(** A '-' before a numeral of a number that is not zero is refused. *)
Lemma Get_value_minus (d : bool) (n ds r : string) :
  numeral ds = true -> isdigit (peek r) = false -> decimal ds <> 0 ->
  is_GetErr (Get_value d n (String "-" (ds ++ r))) = true.
Proof.
  intros Hn Hr Hnz.
  destruct (numeral_parts ds Hn) as (c & ds' & Eds & Hc & Hd).
  pose proof (decimal_nonneg ds Hd) as H0.
  rewrite Get_value_refuses.
  unfold numeric_text_unparsable, trailing_non_space, parsed_negative.
  rewrite strtol_minus_numeral by assumption. unfold strtol_clamp, LONG_MIN.
  destruct (- decimal ds >? LONG_MAX) eqn:E1; [reflexivity|].
  destruct (- decimal ds <? - LONG_MAX - 1) eqn:E2; [reflexivity|].
  replace (- decimal ds <? 0) with true by (symmetry; apply Z.ltb_lt; lia).
  apply orb_true_r.
Qed.

(** "-0": a '-' before a numeral of zero is accepted. *)
Lemma Get_value_minus_zero (d : bool) (n ds r : string) :
  0 <= LONG_MAX <= SIZE_MAX ->
  numeral ds = true -> decimal ds = 0 ->
  isspace (peek r) = true \/ is_nul (peek r) = true ->
  Get_value d n (String "-" (ds ++ r)) = GetOk (mkParser r d) n (Some 0).
Proof.
  intros HT Hn Hz Hr.
  pose proof (space_or_end_not_digit r Hr) as Hnd.
  rewrite <- (to_size_t_small 0) by lia.
  apply Get_value_accept; auto; [|apply (ptr_eq_app (String "-" ds) r); discriminate|lia].
  rewrite strtol_minus_numeral by assumption. rewrite Hz.
  unfold strtol_clamp, LONG_MIN. simpl (- 0).
  replace (0 >? LONG_MAX) with false by (symmetry; rewrite Z.gtb_ltb; apply Z.ltb_ge; lia).
  replace (0 <? - LONG_MAX - 1) with false by (symmetry; apply Z.ltb_ge; lia).
  reflexivity.
Qed.

(** The value of a token is a [long] that is not negative. *)
Lemma Get_ok_value_range (p p1 : PropertyParser) (n : string) (v : Z) :
  LONG_MAX <= SIZE_MAX ->
  Get p = GetOk p1 n (Some v) -> 0 <= v <= LONG_MAX.
Proof.
  intros HT. unfold Get.
  destruct (is_nul (peek (skip_space (cur_ p)))); [discriminate|].
  destruct (scan_name (skip_space (cur_ p))) as [nm c1].
  destruct (is_eq_sign (peek (skip_space_before_eq c1))); [|discriminate].
  intros E. apply Get_value_ok in E.
  destruct E as (rv & endp & Es & Hp & _ & Hrv & _ & _ & Ev).
  injection Ev as ->.
  apply strtol_range in Es; [|exact Hp].
  assert (0 <= rv <= LONG_MAX) by lia.
  rewrite to_size_t_small; lia.
Qed.

End Values.

(** ** Running SetFromProperties on short option strings *)

Lemma append_empty_r (s : string) : s ++ "" = s.
Proof. induction s as [|c s IH]; simpl; [reflexivity|]. now rewrite IH. Qed.

Lemma has_bits_or_r (o m : Z) : has_bits (Z.lor o m) m.
Proof.
  unfold has_bits. apply Z.bits_inj'. intros k _.
  rewrite Z.land_spec, Z.lor_spec.
  destruct (Z.testbit o k), (Z.testbit m k); reflexivity.
Qed.

Lemma has_bits_or_l (o k m : Z) : has_bits o m -> has_bits (Z.lor o k) m.
Proof.
  unfold has_bits. intros H. apply Z.bits_inj'. intros i _.
  rewrite Z.land_spec, Z.lor_spec.
  assert (Hi : Z.testbit m i = Z.testbit o i && Z.testbit m i)
    by (rewrite <- Z.land_spec, H; reflexivity).
  destruct (Z.testbit o i), (Z.testbit m i), (Z.testbit k i);
    try reflexivity; discriminate.
Qed.

Lemma has_bits_or_part (o a b : Z) : has_bits (Z.lor o (Z.lor a b)) b.
Proof. rewrite Z.lor_assoc. apply has_bits_or_r. Qed.

Lemma has_bits_test (o m : Z) :
  has_bits o m -> m <> 0 -> negb (Z.land o m =? 0) = true.
Proof.
  unfold has_bits. intros -> H. apply negb_true_iff, Z.eqb_neq, H.
Qed.

Section Runs.
Context `{T : Target}.

Lemma Get_ok_strlen (s : string) (p1 : PropertyParser) (n : string)
    (ov : Datatypes.option Z) :
  Get (mkParser s false) = GetOk p1 n ov ->
  exists c r, s = String c r /\ Nat.eqb (strlen s) 0 = false.
Proof.
  unfold Get. simpl cur_.
  destruct s as [|c r]; [discriminate|].
  intros H. exists c, r. split; [reflexivity|].
  simpl. destruct (is_nul c) eqn:E; [|reflexivity].
  apply Ascii.eqb_eq in E. subst c. discriminate.
Qed.

(** An option string of one token. *)
Lemma one_token (s : string) (p1 p2 : PropertyParser) (n : string)
    (ov : Datatypes.option Z) (st : State) :
  Get (mkParser s false) = GetOk p1 n ov ->
  Get p1 = GetDone p2 ->
  SetFromProperties s st =
  let '(l, st1) :=
    feature_loop features (store_token n ov (mkLocals "" 0 false false true))
      (with_config init_defaults st) in
  if valid l then
    if found l then Some (true, with_config normalize st1)
    else Some (false,
               error_log Usage (error_log (UnknownOption (l_property l)) st1))
  else Some (false, error_log Usage st1).
Proof.
  intros E1 E2. destruct (Get_ok_strlen s p1 n ov E1) as (c & r & -> & Hlen).
  unfold SetFromProperties, __system_property_get. rewrite Hlen.
  cbn [String.length]. rewrite while_loop_S. cbn [valid]. rewrite E1.
  destruct (feature_loop features _ _) as [l st1].
  destruct (valid l) eqn:Hv; cbn [andb].
  - destruct (found l) eqn:Hf; cbn [negb].
    + rewrite while_loop_S, Hv, E2. rewrite Hv.
      rewrite (Get_done_done _ _ E2). reflexivity.
    + reflexivity.
  - rewrite while_loop_invalid by exact Hv. rewrite Hv. reflexivity.
Qed.

Lemma Get_end (d : bool) : Get (mkParser "" d) = GetDone (mkParser "" true).
Proof. reflexivity. Qed.

Lemma Get_value_numeral_end (d : bool) (n ds : string) :
  LONG_MAX <= SIZE_MAX ->
  numeral ds = true -> decimal ds <= LONG_MAX ->
  Get_value d n ds = GetOk (mkParser "" d) n (Some (decimal ds)).
Proof.
  intros HT Hn Hle.
  destruct (Get_value_numeral d n ds "" HT Hn Hle) as [E _]; [right; reflexivity|].
  rewrite append_empty_r in E. exact E.
Qed.

(** A token whose value is a numeral that fits a [long]. *)
Lemma Get_numeral_token (n ds r : string) (d : bool) :
  LONG_MAX <= SIZE_MAX ->
  name_chars n = true -> numeral ds = true -> decimal ds <= LONG_MAX ->
  isspace (peek r) = true \/ is_nul (peek r) = true ->
  Get (mkParser (n ++ String "=" (ds ++ r)) d) =
  GetOk (mkParser r d) n (Some (decimal ds)).
Proof.
  intros HT Hn Hds Hle Hr.
  destruct (Get_value_numeral d n ds r HT Hds Hle Hr) as [E _].
  rewrite <- E. exact (Get_name_eq "" n "" (ds ++ r) d eq_refl Hn eq_refl).
Qed.

End Runs.

(** ** Rounding up to the alignment *)

Section Align.
Context `{T : Target}.

Lemma BIONIC_ALIGN_round_up (v a : Z) :
  0 < a -> 0 <= v -> v + a <= SIZE_MAX + 1 ->
  v <= BIONIC_ALIGN v a < v + a /\ (a | BIONIC_ALIGN v a).
Proof.
  intros Ha Hv Hmax. unfold BIONIC_ALIGN.
  pose proof (Z.div_mod (v + a - 1) a ltac:(lia)) as Hdm.
  pose proof (Z.mod_pos_bound (v + a - 1) a Ha) as Hb.
  set (q := (v + a - 1) / a) in *.
  assert (Hq : q * a = v + a - 1 - (v + a - 1) mod a) by lia.
  rewrite Z.mod_small by lia.
  split; [lia|]. exists q. reflexivity.
Qed.

(** The two members [normalize] may change. *)
Lemma normalize_fields (fg rg : Z) (bs : bool) (sig : Z) (be : bool)
    (bf fa ff ea ft fn o av fv gv rv : Z) :
  normalize (mkConfig fg rg bs sig be bf fa ff ea ft fn o av fv gv rv) =
  mkConfig
    (if negb (Z.land o FRONT_GUARD =? 0)
     then BIONIC_ALIGN fg MINIMUM_ALIGNMENT_BYTES else fg)
    rg bs sig be bf fa
    (if negb (Z.land o FILL_ON_FREE =? 0) && (ff =? 0) then SIZE_MAX else ff)
    ea ft fn o av fv gv rv.
Proof.
  unfold normalize. cbn [options front_guard_bytes].
  destruct (negb (Z.land o FRONT_GUARD =? 0));
    cbn [set_num options fill_on_free_bytes];
    destruct (negb (Z.land o FILL_ON_FREE =? 0) && (ff =? 0)); reflexivity.
Qed.

End Align.

(** ** What the writes leave alone *)

Lemma get_num_set_num (slot : NumField) (v : Z) (c : Config) :
  get_num slot (set_num slot v c) = v.
Proof. destruct c, slot; reflexivity. Qed.

Lemma get_num_set_num_other (slot slot' : NumField) (v : Z) (c : Config) :
  slot <> slot' -> get_num slot (set_num slot' v c) = get_num slot c.
Proof. destruct c, slot, slot'; intros H; try reflexivity; congruence. Qed.

Lemma get_num_set_bool (slot : NumField) (b : BoolField) (x : bool) (c : Config) :
  get_num slot (set_bool b x c) = get_num slot c.
Proof. destruct c, slot, b; reflexivity. Qed.

Lemma get_num_or_options (slot : NumField) (m : Z) (c : Config) :
  get_num slot (or_options m c) = get_num slot c.
Proof. destruct c, slot; reflexivity. Qed.

Lemma get_bool_set_num (b : BoolField) (slot : NumField) (v : Z) (c : Config) :
  get_bool b (set_num slot v c) = get_bool b c.
Proof. destruct c, slot, b; reflexivity. Qed.

Lemma get_bool_set_bool (b : BoolField) (x : bool) (c : Config) :
  get_bool b (set_bool b x c) = x.
Proof. destruct c, b; reflexivity. Qed.

Lemma get_bool_set_bool_other (b b' : BoolField) (x : bool) (c : Config) :
  b <> b' -> get_bool b (set_bool b' x c) = get_bool b c.
Proof. destruct c, b, b'; intros H; try reflexivity; congruence. Qed.

Lemma get_bool_or_options (b : BoolField) (m : Z) (c : Config) :
  get_bool b (or_options m c) = get_bool b c.
Proof. destruct c, b; reflexivity. Qed.

Lemma SetFeature_keeps (Q : Config -> Prop) (nm : string) (f : Feature)
    (v : Z) (vs : bool) (st : State) :
  keeps Q f -> Q (config st) -> Q (config (snd (SetFeature nm f v vs st))).
Proof.
  intros [Hb Hn] HQ. unfold SetFeature, set_config_flag.
  assert (HQ' : Q (config match config_ f with
                          | Some b => with_config (set_bool b true) st
                          | None => st
                          end)).
  { destruct (config_ f) as [b|]; [apply Hb; auto|exact HQ]. }
  destruct (value f) as [slot|].
  - destruct vs.
    + destruct (v <? min_value f); [exact HQ'|].
      destruct (v >? max_value f); [exact HQ'|].
      apply Hn; auto.
    + apply Hn; auto.
  - destruct vs; exact HQ'.
Qed.

Lemma combo_loop_keeps (Q : Config -> Prop) (fs : list Feature) (l : Locals) :
  (forall m c, Q c -> Q (or_options m c)) ->
  (forall f, In f fs -> combo_option f = true -> keeps Q f) ->
  forall st, Q (config st) -> Q (config (snd (combo_loop fs l st))).
Proof.
  intros Hor. induction fs as [|f rest IH]; intros Hk st HQ; [exact HQ|].
  cbn [combo_loop]. destruct (combo_option f) eqn:Ec; [|exact HQ].
  pose proof (SetFeature_keeps Q (l_property l) f (l_value l) (l_value_set l) st
                (Hk f (or_introl eq_refl) Ec) HQ) as H1.
  destruct (SetFeature _ f _ _ st) as [[] st1]; cbn [snd] in *; [|exact H1].
  apply IH; [intros g Hg; apply Hk; right; exact Hg|].
  apply Hor, H1.
Qed.

(** The table loop keeps [Q] when the entry the property selects keeps
    it, and the entries of combo runs do. *)
Lemma feature_loop_keeps (Q : Config -> Prop) (fs : list Feature) (l : Locals) :
  (forall m c, Q c -> Q (or_options m c)) ->
  (forall f, In f fs -> combo_option f = true -> keeps Q f) ->
  (forall f, In f fs -> name f = l_property l -> keeps Q f) ->
  forall st, Q (config st) -> Q (config (snd (feature_loop fs l st))).
Proof.
  intros Hor. induction fs as [|f rest IH]; intros Hc Hn st HQ; [exact HQ|].
  cbn [feature_loop]. destruct (String.eqb (l_property l) (name f)) eqn:En.
  - apply String.eqb_eq in En.
    destruct ((option_ f =? 0) && combo_option f).
    + pose proof (combo_loop_keeps Q rest l Hor
                    (fun g Hg => Hc g (or_intror Hg)) st HQ) as H1.
      destruct (combo_loop rest l st) as [[] st1]; exact H1.
    + pose proof (SetFeature_keeps Q (l_property l) f (l_value l)
                    (l_value_set l) st
                    (Hn f (or_introl eq_refl) (eq_sym En)) HQ) as H1.
      destruct (SetFeature _ f _ _ st) as [[] st1]; cbn [snd] in *;
        [apply Hor|]; exact H1.
  - apply IH; auto; intros g Hg; [apply Hc|apply Hn]; right; exact Hg.
Qed.

Section LoopFrames.
Context `{T : Target}.

(** The loop keeps a property of the [Config] that the table loop keeps
    at every token it meets. *)
Lemma while_loop_keeps (Q : Config -> Prop) (fuel : nat) :
  forall (p : PropertyParser) (l : Locals) (st : State)
         (r : PropertyParser * Locals * State),
  (forall q q1 n ov st0,
     reaches p q -> Get q = GetOk q1 n ov -> forall l0,
     Q (config st0) ->
     Q (config (snd (feature_loop features (store_token n ov l0) st0)))) ->
  Q (config st) ->
  while_loop fuel p l st = Some r ->
  Q (config (snd r)).
Proof.
  induction fuel as [|fuel IH]; intros p l st r Hk HQ E; [discriminate|].
  rewrite while_loop_S in E.
  destruct (valid l); [|injection E as <-; exact HQ].
  destruct (Get p) as [p1 n ov|p1|p1 n m] eqn:EG.
  - pose proof (Hk p p1 n ov st (reaches_here p) EG l HQ) as H1.
    destruct (feature_loop features (store_token n ov l) st) as [l1 st1].
    cbn [snd] in H1.
    destruct (valid l1 && negb (found l1)); [injection E as <-; exact H1|].
    apply (IH p1 l1 st1 r); auto.
    intros q q1 n0 ov0 st0 Hr. apply Hk.
    exact (reaches_next p p1 q n ov EG Hr).
  - injection E as <-; exact HQ.
  - injection E as <-; exact HQ.
Qed.

(** A loop that ends valid went through every state the parser
    reaches, with [valid] set. *)
Lemma while_loop_through (p q : PropertyParser) :
  reaches p q ->
  forall (fuel : nat) (l : Locals) (st : State)
         (r : PropertyParser * Locals * State),
  while_loop fuel p l st = Some r ->
  valid (snd (fst r)) = true ->
  exists fuel' l' st',
    valid l' = true /\ while_loop fuel' q l' st' = Some r.
Proof.
  induction 1 as [p|p p1 q n ov EG Hr IH]; intros fuel l st r E Hv.
  - destruct fuel as [|fuel]; [discriminate|].
    exists (S fuel), l, st. split; [|exact E].
    rewrite while_loop_S in E.
    destruct (valid l) eqn:Hl; [reflexivity|].
    injection E as <-. cbn in Hv. congruence.
  - destruct fuel as [|fuel]; [discriminate|].
    rewrite while_loop_S in E.
    destruct (valid l) eqn:Hl;
      [|injection E as <-; cbn in Hv; congruence].
    rewrite EG in E.
    destruct (feature_loop features (store_token n ov l) st) as [l1 st1] eqn:EF.
    destruct (valid l1 && negb (found l1));
      [injection E as <-; cbn in Hv; discriminate|].
    exact (IH fuel l1 st1 r E Hv).
Qed.

(** What a build that succeeds went through. *)
Lemma SetFromProperties_true (prop : string) (st st' : State) :
  SetFromProperties prop st = Some (true, st') ->
  exists p l st1,
    while_loop (S (String.length prop)) (mkParser prop false)
      (mkLocals "" 0 false false true) (with_config init_defaults st)
      = Some (p, l, st1) /\
    valid l = true /\ done_ p = true /\ st' = with_config normalize st1.
Proof.
  unfold SetFromProperties, __system_property_get.
  destruct (Nat.eqb (strlen prop) 0); [discriminate|].
  destruct (while_loop _ _ _ _) as [[[p l] st1]|]; [|discriminate].
  destruct (valid l && done_ p) eqn:E; [|discriminate].
  intros H; injection H as <-.
  apply andb_true_iff in E. destruct E. exists p, l, st1. auto.
Qed.

(** One turn of a loop that ends valid, at a token. *)
Lemma while_loop_valid_turn (fuel : nat) (q q1 : PropertyParser) (n : string)
    (ov : Datatypes.option Z) (l : Locals) (st : State)
    (r : PropertyParser * Locals * State) :
  Get q = GetOk q1 n ov ->
  valid l = true ->
  while_loop fuel q l st = Some r ->
  valid (snd (fst r)) = true ->
  exists fuel' l1 st1,
    feature_loop features (store_token n ov l) st = (l1, st1) /\
    valid l1 = true /\ while_loop fuel' q1 l1 st1 = Some r.
Proof.
  intros EG Hl E Hv. destruct fuel as [|fuel]; [discriminate|].
  rewrite while_loop_S, Hl, EG in E.
  destruct (feature_loop features (store_token n ov l) st) as [l1 st1].
  destruct (valid l1 && negb (found l1));
    [injection E as <-; cbn in Hv; discriminate|].
  exists fuel, l1, st1. split; [reflexivity|]. split; [|exact E].
  destruct (valid l1) eqn:Hl1; [reflexivity|].
  pose proof (while_loop_from_invalid fuel q1 l1 st1 Hl1) as Hf.
  rewrite E in Hf. destruct r as [[pf lf] stf]. cbn in Hv, Hf.
  rewrite Hv in Hf. destruct fuel; [discriminate|].
  rewrite while_loop_invalid in E by exact Hl1.
  injection E as <- <- <-. congruence.
Qed.

End LoopFrames.

(** ** The writes of a run *)

Lemma do_writes_app (ws1 ws2 : list Write) (c : Config) :
  do_writes (ws1 ++ ws2)%list c = do_writes ws2 (do_writes ws1 c).
Proof. unfold do_writes. apply fold_left_app. Qed.

Lemma SetFeature_writes (nm : string) (f : Feature) (v : Z) (vs : bool)
    (st : State) :
  config (snd (SetFeature nm f v vs st)) =
  do_writes (feature_writes f v vs) (config st).
Proof.
  unfold SetFeature, set_config_flag, feature_writes.
  rewrite do_writes_app.
  assert (E : config match config_ f with
                     | Some b => with_config (set_bool b true) st
                     | None => st
                     end =
              do_writes match config_ f with Some b => [WBool b] | None => [] end
                (config st)).
  { destruct (config_ f); reflexivity. }
  rewrite <- E. clear E.
  destruct (value f) as [slot|]; [|destruct vs; reflexivity].
  destruct vs; [|reflexivity].
  destruct (v <? min_value f); [reflexivity|].
  destruct (v >? max_value f); reflexivity.
Qed.

Lemma combo_loop_writes (fs : list Feature) (l : Locals) :
  exists ok ws, forall st,
    fst (combo_loop fs l st) = ok /\
    config (snd (combo_loop fs l st)) = do_writes ws (config st).
Proof.
  induction fs as [|f rest IH]; cbn [combo_loop].
  - exists true, []. intros st. split; reflexivity.
  - destruct (combo_option f); [|exists true, []; intros st; split; reflexivity].
    destruct (accepts f (l_value l) (l_value_set l)) eqn:Ea.
    + destruct IH as (ok & ws & IH).
      exists ok, (feature_writes f (l_value l) (l_value_set l)
                    ++ WOr (option_ f) :: ws)%list.
      intros st.
      pose proof (SetFeature_accepts (l_property l) f (l_value l) (l_value_set l) st) as H1.
      pose proof (SetFeature_writes (l_property l) f (l_value l) (l_value_set l) st) as H2.
      destruct (SetFeature _ f _ _ st) as [b st1]. cbn [fst snd] in H1, H2.
      rewrite H1, Ea.
      destruct (IH (with_config (or_options (option_ f)) st1)) as [I1 I2].
      split; [exact I1|]. rewrite I2, do_writes_app.
      cbn [with_config config]. rewrite H2. reflexivity.
    + exists false, (feature_writes f (l_value l) (l_value_set l)).
      intros st.
      pose proof (SetFeature_accepts (l_property l) f (l_value l) (l_value_set l) st) as H1.
      pose proof (SetFeature_writes (l_property l) f (l_value l) (l_value_set l) st) as H2.
      destruct (SetFeature _ f _ _ st) as [b st1]. cbn [fst snd] in H1, H2.
      rewrite H1, Ea. split; [reflexivity|exact H2].
Qed.

Lemma feature_loop_writes (fs : list Feature) (l : Locals) :
  exists l' ws, forall st,
    fst (feature_loop fs l st) = l' /\
    config (snd (feature_loop fs l st)) = do_writes ws (config st).
Proof.
  induction fs as [|f rest IH]; cbn [feature_loop].
  - exists l, []. intros st. split; reflexivity.
  - destruct (String.eqb (l_property l) (name f)); [|exact IH].
    destruct ((option_ f =? 0) && combo_option f).
    + destruct (combo_loop_writes rest l) as (ok & ws & H).
      exists (if ok then set_found l else set_invalid l), ws.
      intros st. destruct (H st) as [H1 H2].
      destruct (combo_loop rest l st) as [b st1]. cbn [fst snd] in H1, H2.
      subst b. destruct ok; split; assumption || reflexivity.
    + destruct (accepts f (l_value l) (l_value_set l)) eqn:Ea.
      * exists (set_found l),
          (feature_writes f (l_value l) (l_value_set l)
             ++ [WOr (option_ f)])%list.
        intros st.
        pose proof (SetFeature_accepts (l_property l) f (l_value l) (l_value_set l) st) as H1.
        pose proof (SetFeature_writes (l_property l) f (l_value l) (l_value_set l) st) as H2.
        destruct (SetFeature _ f _ _ st) as [b st1]. cbn [fst snd] in H1, H2.
        rewrite H1, Ea. split; [reflexivity|].
        rewrite do_writes_app. cbn [snd with_config config].
        rewrite H2. reflexivity.
      * exists (set_invalid l), (feature_writes f (l_value l) (l_value_set l)).
        intros st.
        pose proof (SetFeature_accepts (l_property l) f (l_value l) (l_value_set l) st) as H1.
        pose proof (SetFeature_writes (l_property l) f (l_value l) (l_value_set l) st) as H2.
        destruct (SetFeature _ f _ _ st) as [b st1]. cbn [fst snd] in H1, H2.
        rewrite H1, Ea. split; [reflexivity|exact H2].
Qed.

Section RunWrites.
Context `{T : Target}.

(** Where the loop goes does not depend on the [Config], and what it
    does to the [Config] is a sequence of writes. *)
Lemma while_loop_writes (fuel : nat) :
  forall (p : PropertyParser) (l : Locals),
  (forall st, while_loop fuel p l st = None) \/
  (exists p' l' ws, forall st,
     exists st',
       while_loop fuel p l st = Some (p', l', st') /\
       config st' = do_writes ws (config st)).
Proof.
  induction fuel as [|fuel IH]; intros p l; [left; reflexivity|].
  destruct (valid l) eqn:Hl.
  2:{ right. exists p, l, []. intros st. exists st.
      rewrite while_loop_S, Hl. split; reflexivity. }
  destruct (Get p) as [p1 n ov|p1|p1 n m] eqn:EG.
  - destruct (feature_loop_writes features (store_token n ov l))
      as (l1 & ws1 & H1).
    destruct (valid l1 && negb (found l1)) eqn:Eu.
    + right. exists p1, (set_invalid l1), ws1. intros st.
      destruct (H1 st) as [A B].
      rewrite while_loop_S, Hl, EG.
      destruct (feature_loop features (store_token n ov l) st) as [l1' st1].
      cbn [fst snd] in A, B. subst l1'. rewrite Eu.
      eexists. split; [reflexivity|exact B].
    + destruct (IH p1 l1) as [HN|(p' & l' & ws2 & H2)].
      * left. intros st. destruct (H1 st) as [A B].
        rewrite while_loop_S, Hl, EG.
        destruct (feature_loop features (store_token n ov l) st) as [l1' st1].
        cbn [fst snd] in A, B. subst l1'. rewrite Eu. apply HN.
      * right. exists p', l', (ws1 ++ ws2)%list. intros st.
        destruct (H1 st) as [A B].
        rewrite while_loop_S, Hl, EG.
        destruct (feature_loop features (store_token n ov l) st) as [l1' st1].
        cbn [fst snd] in A, B. subst l1'. rewrite Eu.
        destruct (H2 st1) as (st' & E & C). exists st'.
        split; [exact E|]. rewrite C, B, do_writes_app. reflexivity.
  - right. exists p1, l, []. intros st. exists st.
    rewrite while_loop_S, Hl, EG. split; reflexivity.
  - right. exists p1, (mkLocals n (l_value l) true (found l) (valid l)), [].
    intros st. eexists.
    rewrite while_loop_S, Hl, EG. split; reflexivity.
Qed.

(** [SetFromProperties] either leaves the [Config] alone, or sets the
    defaults, makes writes that the string alone decides, and, when it
    succeeds, normalizes. *)
Lemma SetFromProperties_writes (prop : string) :
  (forall st, exists st',
     SetFromProperties prop st = Some (false, st') /\ config st' = config st) \/
  (exists ok ws, forall st, exists st',
     SetFromProperties prop st = Some (ok, st') /\
     config st' =
       (if ok then normalize else fun c => c)
         (do_writes ws (init_defaults (config st)))).
Proof.
  unfold SetFromProperties, __system_property_get.
  destruct (Nat.eqb (strlen prop) 0).
  - left. intros st. exists st. split; reflexivity.
  - right.
    destruct (while_loop_writes (S (String.length prop)) (mkParser prop false)
                (mkLocals "" 0 false false true)) as [HN|(p & l & ws & H)].
    + destruct (while_loop_total (S (String.length prop)) (mkParser prop false)
        (mkLocals "" 0 false false true) start) as [r E]; [simpl; lia|].
      rewrite HN in E. discriminate.
    + exists (valid l && done_ p), ws. intros st.
      destruct (H (with_config init_defaults st)) as (st1 & E & C).
      rewrite E. destruct (valid l && done_ p); eexists; split;
        try reflexivity; cbn [with_config error_log config]; rewrite C;
        reflexivity.
Qed.

End RunWrites.

(** * The properties of the option parser *)

Section Specified.
Context `{T : Target}.

(** C3. For the option string "guard=V", with V a decimal numeral of a
    number v between 1 and 16384 (so for "guard=10"), the build succeeds,
    without an error message; FRONT_GUARD and REAR_GUARD are both set in
    the options; front_guard_bytes is v rounded up to
    MINIMUM_ALIGNMENT_BYTES (the least multiple of the alignment that is
    not below v) and rear_guard_bytes is v itself.  The marker hands its
    value and its value_set to both entries of its run: for "guard" without
    a value both get their default, 32, and again only front_guard_bytes is
    rounded. *)
Theorem C3_guard_sets_both_guards (ds : string) (st : State) :
  FRONT_GUARD <> 0 ->
  16384 <= LONG_MAX <= SIZE_MAX ->
  0 < MINIMUM_ALIGNMENT_BYTES <= SIZE_MAX - 16384 ->
  numeral ds = true ->
  1 <= decimal ds <= 16384 ->
  (exists st',
     SetFromProperties ("guard=" ++ ds) st = Some (true, st') /\
     errlog st' = errlog st /\
     has_bits (options (config st')) FRONT_GUARD /\
     has_bits (options (config st')) REAR_GUARD /\
     front_guard_bytes (config st') =
       BIONIC_ALIGN (decimal ds) MINIMUM_ALIGNMENT_BYTES /\
     decimal ds <= front_guard_bytes (config st')
       < decimal ds + MINIMUM_ALIGNMENT_BYTES /\
     (MINIMUM_ALIGNMENT_BYTES | front_guard_bytes (config st')) /\
     rear_guard_bytes (config st') = decimal ds) /\
  (exists st',
     SetFromProperties "guard" st = Some (true, st') /\
     errlog st' = errlog st /\
     has_bits (options (config st')) FRONT_GUARD /\
     has_bits (options (config st')) REAR_GUARD /\
     front_guard_bytes (config st') = BIONIC_ALIGN 32 MINIMUM_ALIGNMENT_BYTES /\
     rear_guard_bytes (config st') = 32).
Proof.
  intros HF HL HA Hn Hv.
  assert (Hmk : lookup_feature features "guard" =
                Some (mkFeature "guard" 32 1 16384 0 None None true, tl features))
    by reflexivity.
  split.
  2:{ rewrite (one_token "guard" (mkParser "" false) (mkParser "" true)
                 "guard" None st eq_refl eq_refl).
      rewrite feature_loop_lookup.
      cbn [store_token l_property l_value l_value_set found valid].
      rewrite Hmk. cbv beta iota. change (is_marker _) with true. cbv beta iota.
      unfold features at 1.
      cbn [tl combo_loop combo_option l_property l_value l_value_set].
      unfold SetFeature, set_config_flag.
      cbn [value config_ default_value option_ set_found valid found].
      eexists. split; [reflexivity|].
      destruct st as [[fg rg bs sig be bf fa ff ea ft fn o av fv gv rv] lg].
      cbn [with_config config errlog init_defaults set_num or_options].
      rewrite normalize_fields.
      cbn [options front_guard_bytes rear_guard_bytes].
      assert (HbF : has_bits (Z.lor (Z.lor o FRONT_GUARD) REAR_GUARD) FRONT_GUARD)
        by apply has_bits_or_l, has_bits_or_r.
      rewrite (has_bits_test _ _ HbF HF).
      repeat split; auto. apply has_bits_or_r. }
  assert (EG : Get (mkParser ("guard=" ++ ds) false) =
               GetOk (mkParser "" false) "guard" (Some (decimal ds))).
  { rewrite <- (Get_value_numeral_end false "guard" ds); [|lia|exact Hn|lia].
    exact (Get_name_eq "" "guard" "" ds false eq_refl eq_refl eq_refl). }
  rewrite (one_token _ _ _ _ _ st EG (Get_end false)).
  rewrite feature_loop_lookup.
  cbn [store_token l_property l_value l_value_set].
  cbn [found valid].
  change (lookup_feature features "guard")
    with (Some (mkFeature "guard" 32 1 16384 0 None None true, tl features)).
  cbv beta iota. change (is_marker _) with true. cbv beta iota.
  unfold features at 1. cbn [tl combo_loop combo_option l_property l_value l_value_set].
  unfold SetFeature, set_config_flag.
  cbn [value config_ min_value max_value option_].
  replace (decimal ds <? 1) with false by (symmetry; apply Z.ltb_ge; lia).
  replace (decimal ds >? 16384) with false
    by (symmetry; rewrite Z.gtb_ltb; apply Z.ltb_ge; lia).
  cbv beta iota. cbn [set_found valid found].
  eexists. split; [reflexivity|].
  destruct st as [[fg rg bs sig be bf fa ff ea ft fn o av fv gv rv] lg].
  cbn [with_config config errlog init_defaults set_num or_options].
  rewrite normalize_fields.
  cbn [options front_guard_bytes rear_guard_bytes].
  assert (HbF : has_bits (Z.lor (Z.lor o FRONT_GUARD) REAR_GUARD) FRONT_GUARD)
    by apply has_bits_or_l, has_bits_or_r.
  rewrite (has_bits_test _ _ HbF HF).
  destruct (BIONIC_ALIGN_round_up (decimal ds) MINIMUM_ALIGNMENT_BYTES)
    as [Hr Hd]; [lia..|].
  repeat split; auto; try lia. apply has_bits_or_r.
Qed.

(** C4. For the option string "free_track", on a [Config] whose
    fill_on_free_bytes is still zero, the build succeeds, FILL_ON_FREE
    (and FREE_TRACK) are set in the options and fill_on_free_bytes is
    SIZE_MAX, although the entry of free_track in the table points to
    free_track_allocations, which gets the default 100. *)
Theorem C4_free_track_fills_on_free (st : State) :
  FILL_ON_FREE <> 0 ->
  fill_on_free_bytes (config st) = 0 ->
  (exists f rest,
     lookup_feature features "free_track" = Some (f, rest) /\
     value f = Some p_free_track_allocations /\
     option_ f = Z.lor FREE_TRACK FILL_ON_FREE) /\
  exists st',
    SetFromProperties "free_track" st = Some (true, st') /\
    errlog st' = errlog st /\
    has_bits (options (config st')) FILL_ON_FREE /\
    has_bits (options (config st')) FREE_TRACK /\
    fill_on_free_bytes (config st') = SIZE_MAX /\
    free_track_allocations (config st') = 100.
Proof.
  intros HF H0. split.
  { eexists. eexists. split; [reflexivity|]. split; reflexivity. }
  rewrite (one_token "free_track" (mkParser "" false) (mkParser "" true)
             "free_track" None st eq_refl eq_refl).
  rewrite feature_loop_lookup.
  cbn [store_token l_property l_value l_value_set found valid].
  change (lookup_feature features "free_track")
    with (Some (mkFeature "free_track" 100 1 16384 (Z.lor FREE_TRACK FILL_ON_FREE)
                  (Some p_free_track_allocations) None false,
                tl (tl (tl (tl (tl (tl (tl (tl (tl (tl features))))))))))).
  cbv beta iota. unfold is_marker. cbn [option_ combo_option].
  rewrite andb_false_r.
  unfold SetFeature, set_config_flag.
  cbn [value config_ default_value set_found valid found].
  eexists. split; [reflexivity|].
  destruct st as [[fg rg bs sig be bf fa ff ea ft fn o av fv gv rv] lg].
  cbn [config fill_on_free_bytes] in H0. subst ff.
  cbn [with_config config errlog init_defaults set_num or_options].
  rewrite normalize_fields.
  cbn [options fill_on_free_bytes free_track_allocations].
  rewrite (has_bits_test _ _ (has_bits_or_part o FREE_TRACK FILL_ON_FREE) HF).
  repeat split; auto.
  - apply has_bits_or_part.
  - rewrite (Z.lor_comm FREE_TRACK). apply has_bits_or_part.
Qed.

(** C7. An entry of the table that points to no value, as the one of
    leak_track, refuses a value: [SetFeature] logs that the option takes
    none and returns false, and an option string in which leak_track is
    given a value makes the build fail (so "leak_track=1").  The string
    "leak_track" alone builds, with LEAK_TRACK and TRACK_ALLOCS set. *)
Theorem C7_leak_track_takes_no_value :
  (exists f rest,
     lookup_feature features "leak_track" = Some (f, rest) /\
     value f = None /\ is_marker f = false) /\
  (forall f : Feature,
     In f features -> value f = None -> is_marker f = false ->
     name f = "leak_track") /\
  (forall (nm : string) (f : Feature) (v : Z) (st : State),
     value f = None ->
     SetFeature nm f v true st =
     (false, error_log (ValueNotTaken nm) (set_config_flag f st))) /\
  (forall (s : string) (v : Z) (st : State),
     token_at s "leak_track" (Some v) ->
     exists st', SetFromProperties s st = Some (false, st')) /\
  (forall st : State,
     exists st', SetFromProperties "leak_track=1" st = Some (false, st')) /\
  (forall st : State,
     1 <= LONG_MAX <= SIZE_MAX ->
     SetFromProperties "leak_track=1" st =
     Some (false,
           error_log Usage
             (error_log (ValueNotTaken "leak_track")
                (with_config init_defaults st)))) /\
  (forall st : State,
     exists st',
       SetFromProperties "leak_track" st = Some (true, st') /\
       errlog st' = errlog st /\
       has_bits (options (config st')) LEAK_TRACK /\
       has_bits (options (config st')) TRACK_ALLOCS).
Proof.
  assert (Hlk : lookup_feature features "leak_track" =
    Some (mkFeature "leak_track" 0 0 0 (Z.lor LEAK_TRACK TRACK_ALLOCS)
            None None false, [])) by reflexivity.
  assert (Hbuild : forall (s : string) (v : Z) (st : State),
     token_at s "leak_track" (Some v) ->
     exists st', SetFromProperties s st = Some (false, st')).
  { intros s v st (p & p1 & Hr & EG).
    apply SetFromProperties_fails.
    apply (failure_propagates _ _ Hr).
    apply (refused_token_fails _ _ _ _ EG).
    intros l st0.
    eapply feature_loop_refuses; [exact Hlk| |reflexivity].
    unfold is_marker. apply andb_false_r. }
  split; [|split; [|split; [|split; [|split; [|split]]]]].
  - eexists. eexists. split; [exact Hlk|]. split; [reflexivity|].
    unfold is_marker. apply andb_false_r.
  - intros f Hin Hv Hm. unfold features in Hin. cbn [In] in Hin.
    repeat (destruct Hin as [<-|Hin];
            [first [discriminate Hv | discriminate Hm | reflexivity]|]).
    destruct Hin.
  - intros nm f v st Hv. unfold SetFeature. rewrite Hv. reflexivity.
  - exact Hbuild.
  - intros st.
    destruct (Get (mkParser "leak_track=1" false)) as [p1 n ov|p1|p1 n m] eqn:EG.
    + pose proof EG as EG'.
      pose proof (Get_name_eq "" "leak_track" "" "1" false eq_refl eq_refl eq_refl) as E.
      cbn [append] in E. rewrite E in EG'.
      apply Get_value_ok in EG'.
      destruct EG' as (rv & endp & Es & _ & _ & _ & -> & -> & ->).
      apply (Hbuild _ (to_size_t rv)).
      exists (mkParser "leak_track=1" false), (mkParser endp false).
      split; [constructor|exact EG].
    + pose proof (Get_name_eq "" "leak_track" "" "1" false eq_refl eq_refl eq_refl) as E.
      cbn [append] in E. rewrite E in EG.
      destruct (Get_value_not_done _ _ _ _ EG).
    + apply SetFromProperties_fails.
      apply (Get_error_fails (mkParser "leak_track=1" false) _ _ _ eq_refl EG).
  - intros st HL.
    assert (EG : Get (mkParser "leak_track=1" false) =
                 GetOk (mkParser "" false) "leak_track" (Some 1)).
    { apply (Get_numeral_token "leak_track" "1" "" false);
        [lia|reflexivity|reflexivity|cbn; lia|right; reflexivity]. }
    rewrite (one_token _ _ _ _ _ st EG (Get_end false)).
    rewrite feature_loop_lookup.
    cbn [store_token l_property l_value l_value_set found valid].
    rewrite Hlk. cbv beta iota. unfold is_marker. cbn [option_ combo_option].
    rewrite andb_false_r. reflexivity.
  - intros st.
    rewrite (one_token "leak_track" (mkParser "" false) (mkParser "" true)
               "leak_track" None st eq_refl eq_refl).
    rewrite feature_loop_lookup.
    cbn [store_token l_property l_value l_value_set found valid].
    rewrite Hlk. cbv beta iota. unfold is_marker. cbn [option_ combo_option].
    rewrite andb_false_r.
    unfold SetFeature, set_config_flag.
    cbn [value config_ set_found valid found].
    eexists. split; [reflexivity|].
    destruct st as [[fg rg bs sig be bf fa ff ea ft fn o av fv gv rv] lg].
    cbn [with_config config errlog init_defaults or_options].
    rewrite normalize_fields. cbn [options].
    repeat split.
    + rewrite (Z.lor_comm LEAK_TRACK). apply has_bits_or_part.
    + apply has_bits_or_part.
Qed.

(** The entries with a value that are in a combo run carry an option
    bit; when these bits are not zero, no entry with a value is taken for
    a combo marker. *)
Lemma slot_not_marker (f : Feature) (slot : NumField) :
  FRONT_GUARD <> 0 -> REAR_GUARD <> 0 ->
  FILL_ON_ALLOC <> 0 -> FILL_ON_FREE <> 0 ->
  In f features -> value f = Some slot -> is_marker f = false.
Proof.
  intros H1 H2 H3 H4 Hin Hv. unfold features in Hin. cbn [In] in Hin.
  unfold is_marker.
  repeat (destruct Hin as [<-|Hin];
          [try discriminate Hv; cbn [option_ combo_option];
           try apply andb_false_r;
           apply andb_false_iff; left; apply Z.eqb_neq; assumption|]).
  destruct Hin.
Qed.

(** The entries of the two backtrace options. *)
Lemma lookup_flag_option (b : BoolField) :
  exists rest,
    lookup_feature features (flag_option b) =
    Some (mkFeature (flag_option b) 16 1 256 (Z.lor BACKTRACE TRACK_ALLOCS)
            (Some p_backtrace_frames) (Some b) false, rest).
Proof. destruct b; eexists; reflexivity. Qed.

(** A token name=V is refused by [Get], or comes out with the number
    strtol read. *)
Lemma Get_value_cases (d : bool) (n V : string) :
  (exists p m, Get_value d n V = GetErr p n m) \/
  (exists rv endp,
     strtol V = (rv, endp, 0) /\
     Get_value d n V = GetOk (mkParser endp d) n (Some (to_size_t rv))).
Proof.
  unfold Get_value. destruct (strtol V) as [[rv endp] e].
  destruct (e =? 0) eqn:Ee; cbn [negb]; [|left; eauto].
  apply Z.eqb_eq in Ee. subst e.
  destruct (ptr_eq V endp || _).
  - destruct (ptr_eq V endp); left; eauto.
  - destruct (rv <? 0); [left; eauto|right; eauto].
Qed.

(** C6. For a token of the form name=V, [Get] reports an error exactly
    when no number can be read from V (there is no digit to convert, or
    the number is not a [long]), when a character that is neither white
    space nor the end follows the number, or when the number is negative;
    for V a numeral followed by [r] that means: the number is above
    LONG_MAX, or [r] begins with a character that is neither white space
    nor the end.  An option string in which [Get] reports an error at some
    token makes the build fail; "backtrace=10 extra_garbage=notanumber"
    does, with the message of a bad value for extra_garbage. *)
Theorem C6_bad_value_fails :
  (forall (ws n ws' V : string) (d : bool),
     all_space ws = true -> name_chars n = true -> all_space ws' = true ->
     is_GetErr (Get (mkParser (ws ++ n ++ ws' ++ String "=" V) d)) =
     numeric_text_unparsable V || trailing_non_space V || parsed_negative V) /\
  (forall ds r : string,
     0 <= LONG_MAX ->
     numeral ds = true -> isdigit (peek r) = false ->
     numeric_text_unparsable (ds ++ r) = (LONG_MAX <? decimal ds) /\
     trailing_non_space (ds ++ r) =
       negb (isspace (peek r)) && negb (is_nul (peek r)) /\
     parsed_negative (ds ++ r) = false) /\
  (forall (s : string) (q : PropertyParser) (st : State),
     reaches (mkParser s false) q ->
     is_GetErr (Get q) = true ->
     exists st', SetFromProperties s st = Some (false, st')) /\
  (forall st : State,
     exists st',
       SetFromProperties "backtrace=10 extra_garbage=notanumber" st =
       Some (false, st')) /\
  (forall st : State,
     10 <= LONG_MAX <= SIZE_MAX ->
     Get (mkParser "backtrace=10 extra_garbage=notanumber" false) =
       GetOk (mkParser " extra_garbage=notanumber" false) "backtrace" (Some 10) /\
     Get (mkParser " extra_garbage=notanumber" false) =
       GetErr (mkParser "notanumber" false) "extra_garbage"
         (BadValue "extra_garbage") /\
     exists c,
       SetFromProperties "backtrace=10 extra_garbage=notanumber" st =
       Some (false,
             mkState c (errlog st ++ [BadValue "extra_garbage"; Usage]))).
Proof.
  assert (Hbuild : forall (s : string) (q : PropertyParser) (st : State),
     reaches (mkParser s false) q ->
     is_GetErr (Get q) = true ->
     exists st', SetFromProperties s st = Some (false, st')).
  { intros s q st Hr He.
    destruct (Get q) as [p1 n ov|p1|p1 n m] eqn:EG; try discriminate He.
    apply SetFromProperties_fails.
    apply (failure_propagates _ _ Hr).
    apply (Get_error_fails q _ _ _ (reaches_done _ _ Hr) EG). }
  split; [|split; [|split; [exact Hbuild|split]]].
  - intros ws n ws' V d Hws Hn Hws'.
    rewrite Get_name_eq by assumption. apply Get_value_refuses.
  - intros ds r HL Hds Hr.
    destruct (numeral_parts ds Hds) as (c & ds' & Eds & Hc & Hd).
    pose proof (decimal_nonneg ds Hd) as H0.
    unfold numeric_text_unparsable, trailing_non_space, parsed_negative.
    rewrite strtol_numeral by assumption. unfold strtol_clamp, LONG_MIN.
    rewrite Z.gtb_ltb.
    destruct (LONG_MAX <? decimal ds) eqn:E1.
    + repeat split. apply Z.ltb_ge. lia.
    + replace (decimal ds <? - LONG_MAX - 1) with false
        by (symmetry; apply Z.ltb_ge; lia).
      cbn [negb orb]. change (0 =? 0) with true. cbn [negb orb].
      rewrite ptr_eq_app by (subst ds; discriminate).
      repeat split. apply Z.ltb_ge. lia.
  - intros st.
    pose proof (Get_name_eq "" "backtrace" "" "10 extra_garbage=notanumber"
                  false eq_refl eq_refl eq_refl) as E.
    cbn [append] in E.
    destruct (Get_value_cases false "backtrace" "10 extra_garbage=notanumber")
      as [(p & m & EG)|(rv & endp & Es & EG)]; rewrite <- E in EG.
    + apply (Hbuild _ (mkParser "backtrace=10 extra_garbage=notanumber" false));
        [constructor|]. rewrite EG. reflexivity.
    + assert (Hend : endp = " extra_garbage=notanumber").
      { pose proof (strtol_numeral "10" " extra_garbage=notanumber"
                      eq_refl eq_refl) as E1.
        cbn [append] in E1. rewrite E1 in Es. unfold strtol_clamp in Es.
        destruct (decimal "10" >? LONG_MAX); [discriminate|].
        destruct (decimal "10" <? LONG_MIN); [discriminate|].
        injection Es as _ <-. reflexivity. }
      subst endp.
      apply (Hbuild _ (mkParser " extra_garbage=notanumber" false)).
      * econstructor; [exact EG|constructor].
      * reflexivity.
  - intros st HL.
    assert (EG : Get (mkParser "backtrace=10 extra_garbage=notanumber" false) =
                 GetOk (mkParser " extra_garbage=notanumber" false)
                   "backtrace" (Some 10)).
    { apply (Get_numeral_token "backtrace" "10" " extra_garbage=notanumber" false);
        [lia|reflexivity|reflexivity|cbn; lia|left; reflexivity]. }
    split; [exact EG|]. split; [reflexivity|].
    unfold SetFromProperties, __system_property_get.
    change (Nat.eqb (strlen "backtrace=10 extra_garbage=notanumber") 0)
      with false.
    cbv iota. cbn [String.length].
    rewrite while_loop_S. cbn [valid]. rewrite EG.
    rewrite feature_loop_lookup.
    cbn [store_token l_property l_value l_value_set found valid].
    destruct (lookup_flag_option p_backtrace_enabled) as [rest Hlk].
    cbn [flag_option] in Hlk. rewrite Hlk.
    unfold is_marker. cbn [option_ combo_option]. rewrite andb_false_r.
    unfold SetFeature, set_config_flag.
    cbn [value config_ min_value max_value].
    change (10 <? 1) with false. change (10 >? 256) with false.
    cbv beta iota.
    cbn [set_found valid found l_property l_value l_value_set andb negb].
    rewrite while_loop_S.
    cbn [set_found valid found l_property l_value l_value_set andb negb].
    change (Get (mkParser " extra_garbage=notanumber" false))
      with (GetErr (mkParser "notanumber" false) "extra_garbage"
              (BadValue "extra_garbage")).
    cbn [valid done_ andb].
    eexists. unfold error_log. cbn [config errlog with_config].
    rewrite <- app_assoc. reflexivity.
Qed.

(** C2, as amended.  In a token name=V, a '-' before a decimal numeral of
    a number that is not zero is refused; a '+' before a numeral is
    accepted and the token has the value of the numeral, as
    without the sign; "-0" is accepted with the value 0.  Every value that
    [Get] returns is a [long] that is not negative. *)
Theorem C2_signs_in_values (n ds r : string) (d : bool) :
  0 <= LONG_MAX <= SIZE_MAX ->
  name_chars n = true ->
  numeral ds = true ->
  (isdigit (peek r) = false ->
   decimal ds <> 0 ->
   is_GetErr (Get (mkParser (n ++ String "=" (String "-" (ds ++ r))) d)) = true) /\
  (isspace (peek r) = true \/ is_nul (peek r) = true ->
   decimal ds <= LONG_MAX ->
   Get (mkParser (n ++ String "=" (String "+" (ds ++ r))) d) =
     GetOk (mkParser r d) n (Some (decimal ds)) /\
   Get (mkParser (n ++ String "=" (ds ++ r)) d) =
     GetOk (mkParser r d) n (Some (decimal ds))) /\
  (isspace (peek r) = true \/ is_nul (peek r) = true ->
   decimal ds = 0 ->
   Get (mkParser (n ++ String "=" (String "-" (ds ++ r))) d) =
     GetOk (mkParser r d) n (Some 0)) /\
  (forall (p p1 : PropertyParser) (n' : string) (v : Z),
     Get p = GetOk p1 n' (Some v) -> 0 <= v <= LONG_MAX).
Proof.
  intros HT Hn Hds.
  assert (E : forall V, Get (mkParser (n ++ String "=" V) d) = Get_value d n V).
  { intros V. exact (Get_name_eq "" n "" V d eq_refl Hn eq_refl). }
  split; [|split; [|split]].
  - intros Hr Hnz. rewrite E. apply Get_value_minus; assumption.
  - intros Hr Hle. rewrite !E.
    destruct (Get_value_numeral d n ds r) as [E1 E2]; try assumption; try lia.
    split; assumption.
  - intros Hr Hz. rewrite E. apply Get_value_minus_zero; assumption.
  - intros p p1 n' v EG. apply (Get_ok_value_range p p1 n' v); [lia|exact EG].
Qed.

(** C10. A token name=V whose numeral V denotes a number above LONG_MAX
    is refused by [Get] with the errno of strtol, ERANGE, and the build
    fails on an option string that is such a token, whatever the name (so
    for fill, fill_on_alloc and fill_on_free, whose maximum is SIZE_MAX).
    Every value [Get] returns is at most LONG_MAX, so below SIZE_MAX: when
    [SetFeature] succeeds on fill_on_alloc or fill_on_free for a token of
    [Get], the member it wrote is SIZE_MAX exactly when the token had no
    value and the default was written. *)
Theorem C10_values_above_LONG_MAX :
  LONG_MAX < SIZE_MAX ->
  (forall (n ds r : string) (d : bool),
     name_chars n = true -> numeral ds = true -> isdigit (peek r) = false ->
     LONG_MAX < decimal ds ->
     Get (mkParser (n ++ String "=" (ds ++ r)) d) =
       GetErr (mkParser (ds ++ r) d) n (BadValueErrno n ERANGE) /\
     forall st : State,
       exists st',
         SetFromProperties (n ++ String "=" (ds ++ r)) st = Some (false, st')) /\
  (forall (p p1 : PropertyParser) (n : string) (v : Z),
     Get p = GetOk p1 n (Some v) -> 0 <= v <= LONG_MAX) /\
  (forall (f : Feature) (rest : list Feature),
     lookup_feature features "fill_on_alloc" = Some (f, rest) \/
     lookup_feature features "fill_on_free" = Some (f, rest) ->
     max_value f = SIZE_MAX /\ default_value f = SIZE_MAX /\
     exists slot,
       value f = Some slot /\
       forall (p p1 : PropertyParser) (n : string) (ov : Datatypes.option Z)
              (l : Locals) (st st' : State),
         Get p = GetOk p1 n ov ->
         SetFeature n f (l_value (store_token n ov l))
           (l_value_set (store_token n ov l)) st = (true, st') ->
         (get_num slot (config st') = SIZE_MAX <-> ov = None)).
Proof.
  intros HT. split; [|split].
  - intros n ds r d Hn Hds Hr Hgt.
    assert (E : Get (mkParser (n ++ String "=" (ds ++ r)) d) =
                GetErr (mkParser (ds ++ r) d) n (BadValueErrno n ERANGE)).
    { rewrite <- (Get_value_overflow d n ds r Hds Hr Hgt).
      exact (Get_name_eq "" n "" (ds ++ r) d eq_refl Hn eq_refl). }
    split; [exact E|].
    intros st. apply SetFromProperties_fails.
    apply (Get_error_fails (mkParser (n ++ String "=" (ds ++ r)) false)
             (mkParser (ds ++ r) false) n (BadValueErrno n ERANGE) eq_refl).
    rewrite <- (Get_value_overflow false n ds r Hds Hr Hgt).
    exact (Get_name_eq "" n "" (ds ++ r) false eq_refl Hn eq_refl).
  - intros p p1 n v EG. apply (Get_ok_value_range p p1 n v); [lia|exact EG].
  - intros f rest Hlk.
    assert (Hf : f = mkFeature "fill_on_alloc" SIZE_MAX 1 SIZE_MAX FILL_ON_ALLOC
                       (Some p_fill_on_alloc_bytes) None true \/
                 f = mkFeature "fill_on_free" SIZE_MAX 1 SIZE_MAX FILL_ON_FREE
                       (Some p_fill_on_free_bytes) None true).
    { destruct Hlk as [Hlk|Hlk]; cbn in Hlk; injection Hlk as <- _; auto. }
    assert (Hgen : max_value f = SIZE_MAX /\ default_value f = SIZE_MAX /\
                   min_value f = 1 /\ config_ f = None /\
                   exists slot, value f = Some slot).
    { destruct Hf as [-> | ->]; cbn; eauto 10. }
    destruct Hgen as (Hmax & Hdef & Hmin & Hcfg & slot & Hslot).
    split; [exact Hmax|]. split; [exact Hdef|].
    exists slot. split; [exact Hslot|].
    intros p p1 n ov l st st' EG.
    unfold SetFeature, set_config_flag. rewrite Hslot, Hcfg, Hdef.
    assert (Hget : forall v c, get_num slot (set_num slot v c) = v).
    { intros v c. destruct c, slot; reflexivity. }
    destruct ov as [v|]; cbn [store_token l_value l_value_set].
    + assert (Hv : 0 <= v <= LONG_MAX)
        by (apply (Get_ok_value_range p p1 n v); [lia|exact EG]).
      destruct (v <? min_value f); [discriminate|].
      destruct (v >? max_value f); [discriminate|].
      intros E; injection E as <-.
      cbn [with_config config]. rewrite Hget.
      split; [lia|discriminate].
    + intros E; injection E as <-.
      cbn [with_config config]. rewrite Hget. split; auto.
Qed.

Lemma frames_entries (f : Feature) :
  In f features -> value f = Some p_backtrace_frames ->
  combo_option f = false /\
  exists b, name f = flag_option b /\ config_ f = Some b.
Proof.
  intros Hin Hv. unfold features in Hin. cbn [In] in Hin.
  repeat (destruct Hin as [<-|Hin]; [try discriminate Hv|]).
  - split; [reflexivity|]. exists p_backtrace_enabled. split; reflexivity.
  - split; [reflexivity|]. exists p_backtrace_enable_on_signal.
    split; reflexivity.
  - destruct Hin.
Qed.

Lemma flag_entries (f : Feature) (b : BoolField) :
  In f features -> config_ f = Some b ->
  combo_option f = false /\ name f = flag_option b.
Proof.
  intros Hin Hv. unfold features in Hin. cbn [In] in Hin.
  repeat (destruct Hin as [<-|Hin]; [try discriminate Hv|]).
  - injection Hv as <-. split; reflexivity.
  - injection Hv as <-. split; reflexivity.
  - destruct Hin.
Qed.

(** A token of a backtrace option that the table loop accepts sets its
    [bool] member, and backtrace_frames to its value. *)
Lemma feature_loop_flag_option (b : BoolField) (ov : Datatypes.option Z)
    (l l1 : Locals) (st st1 : State) :
  feature_loop features (store_token (flag_option b) ov l) st = (l1, st1) ->
  valid l = true -> valid l1 = true ->
  get_bool b (config st1) = true /\
  backtrace_frames (config st1) = match ov with Some v => v | None => 16 end.
Proof.
  intros EF Hl Hl1. rewrite feature_loop_lookup in EF.
  replace (l_property (store_token (flag_option b) ov l))
    with (flag_option b) in EF by (destruct ov; reflexivity).
  destruct (lookup_flag_option b) as [rest Hlk]. rewrite Hlk in EF.
  unfold is_marker in EF. cbn [option_ combo_option] in EF.
  rewrite andb_false_r in EF.
  unfold SetFeature, set_config_flag in EF.
  cbn [value config_ min_value max_value default_value] in EF.
  assert (Hfin : forall v,
    get_bool b (config (with_config (or_options (Z.lor BACKTRACE TRACK_ALLOCS))
      (with_config (set_num p_backtrace_frames v)
         (with_config (set_bool b true) st)))) = true /\
    backtrace_frames (config (with_config (or_options (Z.lor BACKTRACE TRACK_ALLOCS))
      (with_config (set_num p_backtrace_frames v)
         (with_config (set_bool b true) st)))) = v).
  { intros v. destruct st as [c lg]. cbn [with_config config].
    rewrite get_bool_or_options, get_bool_set_num, get_bool_set_bool.
    split; [reflexivity|].
    change (backtrace_frames ?c) with (get_num p_backtrace_frames c).
    rewrite get_num_or_options, get_num_set_num. reflexivity. }
  destruct ov as [v|]; cbn [store_token l_value l_value_set] in EF.
  - destruct (v <? 1);
      [injection EF as <- <-; cbn in Hl1; discriminate|].
    destruct (v >? 256);
      [injection EF as <- <-; cbn in Hl1; discriminate|].
    injection EF as <- <-. apply Hfin.
  - injection EF as <- <-. apply Hfin.
Qed.

(** Setting a [bool] member or another [size_t] member keeps
    backtrace_frames, and no write clears a [bool] member. *)
Lemma keeps_frames_flag (v : Z) (b : BoolField) (f : Feature) :
  value f <> Some p_backtrace_frames ->
  keeps (fun c => backtrace_frames c = v /\ get_bool b c = true) f.
Proof.
  intros Hne. split.
  - intros b' c _ [H1 H2]. split.
    + change (get_num p_backtrace_frames (set_bool b' true c) = v).
      rewrite get_num_set_bool. exact H1.
    + destruct c, b, b'; cbn in *; auto.
  - intros slot v' c Hs [H1 H2]. split.
    + change (get_num p_backtrace_frames (set_num slot v' c) = v).
      rewrite get_num_set_num_other; [exact H1|]. congruence.
    + rewrite get_bool_set_num. exact H2.
Qed.

Lemma keeps_flag (x : bool) (b : BoolField) (f : Feature) :
  config_ f <> Some b ->
  keeps (fun c => get_bool b c = x) f.
Proof.
  intros Hne. split.
  - intros b' c Hb H. rewrite get_bool_set_bool_other; [exact H|]. congruence.
  - intros slot v' c _ H. rewrite get_bool_set_num. exact H.
Qed.

Lemma normalize_keeps (c : Config) :
  backtrace_frames (normalize c) = backtrace_frames c /\
  forall b, get_bool b (normalize c) = get_bool b c.
Proof.
  destruct c. rewrite normalize_fields. split; [reflexivity|].
  intros []; reflexivity.
Qed.

Lemma store_token_property (n : string) (ov : Datatypes.option Z) (l : Locals) :
  l_property (store_token n ov l) = n.
Proof. destruct ov; reflexivity. Qed.

(** C9. The entries of backtrace and of backtrace_enable_on_signal point
    to the same member, backtrace_frames, and to a [bool] member each; no
    other entry points to backtrace_frames.  When the build succeeds,
    backtrace_frames is the value of the last token of one of the two
    options (when that token has a value); the [bool] member of an option
    is set when the string has a token of this option, and is left as it
    was when it has none, whatever tokens of the other option there are. *)
Theorem C9_backtrace_frames_shared :
  (exists r1 r2,
     lookup_feature features "backtrace" =
       Some (mkFeature "backtrace" 16 1 256 (Z.lor BACKTRACE TRACK_ALLOCS)
               (Some p_backtrace_frames) (Some p_backtrace_enabled) false, r1) /\
     lookup_feature features "backtrace_enable_on_signal" =
       Some (mkFeature "backtrace_enable_on_signal" 16 1 256
               (Z.lor BACKTRACE TRACK_ALLOCS)
               (Some p_backtrace_frames) (Some p_backtrace_enable_on_signal)
               false, r2)) /\
  (forall f : Feature,
     In f features -> value f = Some p_backtrace_frames ->
     name f = "backtrace" \/ name f = "backtrace_enable_on_signal") /\
  (forall (s : string) (st st' : State) (q q1 : PropertyParser)
          (b : BoolField) (v : Z),
     SetFromProperties s st = Some (true, st') ->
     reaches (mkParser s false) q ->
     Get q = GetOk q1 (flag_option b) (Some v) ->
     (forall q2 q3 n' ov' b',
        reaches q1 q2 -> Get q2 = GetOk q3 n' ov' -> n' <> flag_option b') ->
     backtrace_frames (config st') = v) /\
  (forall (s : string) (st st' : State) (b : BoolField)
          (ov : Datatypes.option Z),
     SetFromProperties s st = Some (true, st') ->
     token_at s (flag_option b) ov ->
     get_bool b (config st') = true) /\
  (forall (s : string) (st st' : State) (b : BoolField),
     SetFromProperties s st = Some (true, st') ->
     (forall ov, ~ token_at s (flag_option b) ov) ->
     get_bool b (config st') = get_bool b (config st)).
Proof.
  split; [|split; [|split; [|split]]].
  - eexists. eexists. split; reflexivity.
  - intros f Hin Hv. destruct (frames_entries f Hin Hv) as (_ & b & Hn & _).
    rewrite Hn. destruct b; auto.
  - intros s st st' q q1 b v HS Hr EG Hlast.
    apply SetFromProperties_true in HS.
    destruct HS as (pf & lf & st1 & E & Hv & Hd & ->).
    destruct (while_loop_through _ _ Hr _ _ _ _ E Hv)
      as (fuel' & l' & st0 & Hl' & E').
    destruct (while_loop_valid_turn _ _ _ _ _ _ _ _ EG Hl' E' Hv)
      as (fuel'' & l1 & st2 & EF & Hl1 & E'').
    destruct (feature_loop_flag_option b (Some v) l' l1 st0 st2 EF Hl' Hl1)
      as [Hb Hfr].
    cbn [with_config config]. rewrite (proj1 (normalize_keeps _)).
    refine (proj1 (while_loop_keeps
      (fun c => backtrace_frames c = v /\ get_bool b c = true)
      fuel'' q1 l1 st2 _ _ (conj Hfr Hb) E'')).
    intros q2 q3 n' ov' st3 Hr2 EG2 l0 HQ.
    apply feature_loop_keeps; [| | |exact HQ].
    + intros m c [H1 H2]. split; [destruct c; exact H1|].
      rewrite get_bool_or_options. exact H2.
    + intros f Hin Hc. apply keeps_frames_flag. intros Hval.
      destruct (frames_entries f Hin Hval) as [Hc' _]. congruence.
    + intros f Hin Hn. apply keeps_frames_flag. intros Hval.
      destruct (frames_entries f Hin Hval) as (_ & b' & Hn' & _).
      rewrite store_token_property in Hn.
      apply (Hlast q2 q3 n' ov' b' Hr2 EG2). congruence.
  - intros s st st' b ov HS (q & q1 & Hr & EG).
    apply SetFromProperties_true in HS.
    destruct HS as (pf & lf & st1 & E & Hv & Hd & ->).
    destruct (while_loop_through _ _ Hr _ _ _ _ E Hv)
      as (fuel' & l' & st0 & Hl' & E').
    destruct (while_loop_valid_turn _ _ _ _ _ _ _ _ EG Hl' E' Hv)
      as (fuel'' & l1 & st2 & EF & Hl1 & E'').
    destruct (feature_loop_flag_option b ov l' l1 st0 st2 EF Hl' Hl1)
      as [Hb _].
    cbn [with_config config]. rewrite (proj2 (normalize_keeps _)).
    refine (while_loop_keeps (fun c => get_bool b c = true)
      fuel'' q1 l1 st2 _ _ Hb E'').
    intros q2 q3 n' ov' st3 Hr2 EG2 l0 HQ.
    apply feature_loop_keeps; [| | |exact HQ].
    + intros m c H. rewrite get_bool_or_options. exact H.
    + intros f _ _. split.
      * intros b' c _ H. destruct c, b, b'; cbn in *; auto.
      * intros slot v' c _ H. rewrite get_bool_set_num. exact H.
    + intros f _ _. split.
      * intros b' c _ H. destruct c, b, b'; cbn in *; auto.
      * intros slot v' c _ H. rewrite get_bool_set_num. exact H.
  - intros s st st' b HS Hno.
    apply SetFromProperties_true in HS.
    destruct HS as (pf & lf & st1 & E & Hv & Hd & ->).
    cbn [with_config config]. rewrite (proj2 (normalize_keeps _)).
    refine (while_loop_keeps (fun c => get_bool b c = get_bool b (config st))
      _ _ _ _ _ _ _ E).
    + intros q2 q3 n' ov' st3 Hr2 EG2 l0 HQ.
      apply feature_loop_keeps; [| | |exact HQ].
      * intros m c H. rewrite get_bool_or_options. exact H.
      * intros f Hin Hc. apply keeps_flag. intros Hcfg.
        destruct (flag_entries f b Hin Hcfg) as [Hc' _]. congruence.
      * intros f Hin Hn. apply keeps_flag. intros Hcfg.
        destruct (flag_entries f b Hin Hcfg) as [_ Hn'].
        rewrite store_token_property in Hn.
        apply (Hno ov'). exists q2, q3. split; [exact Hr2|]. congruence.
    + destruct st as [c lg]. cbn [with_config config].
      destruct c, b; reflexivity.
Qed.

(** Every member after a sequence of writes. *)
Lemma do_writes_fields (ws : list Write) :
  forall c : Config,
  do_writes ws c =
  mkConfig
    (pick ws p_front_guard_bytes c)
    (pick ws p_rear_guard_bytes c)
    (raised p_backtrace_enable_on_signal ws || backtrace_enable_on_signal c)
    (backtrace_signal c)
    (raised p_backtrace_enabled ws || backtrace_enabled c)
    (pick ws p_backtrace_frames c)
    (pick ws p_fill_on_alloc_bytes c)
    (pick ws p_fill_on_free_bytes c)
    (pick ws p_expand_alloc_bytes c)
    (pick ws p_free_track_allocations c)
    (pick ws p_free_track_backtrace_num_frames c)
    (Z.lor (options c) (ored ws))
    (fill_alloc_value c) (fill_free_value c)
    (front_guard_value c) (rear_guard_value c).
Proof.
  induction ws as [|w ws IH]; intros c.
  - destruct c. unfold pick. cbn. rewrite Z.lor_0_r. reflexivity.
  - change (do_writes (w :: ws) c) with (do_writes ws (do_write c w)).
    rewrite IH. unfold pick. destruct c.
    destruct w as [f v|b|m].
    + destruct f; cbn [do_write set_num written NumField_eqb raised ored
                       get_num backtrace_enable_on_signal backtrace_signal
                       backtrace_enabled options fill_alloc_value
                       fill_free_value front_guard_value rear_guard_value
                       front_guard_bytes rear_guard_bytes backtrace_frames
                       fill_on_alloc_bytes fill_on_free_bytes
                       expand_alloc_bytes free_track_allocations
                       free_track_backtrace_num_frames];
        f_equal;
        match goal with
        | |- context [written ?g ws] => destruct (written g ws); reflexivity
        end.
    + destruct b; cbn [do_write set_bool written raised BoolField_eqb ored
                       get_num backtrace_enable_on_signal backtrace_signal
                       backtrace_enabled options fill_alloc_value
                       fill_free_value front_guard_value rear_guard_value
                       front_guard_bytes rear_guard_bytes backtrace_frames
                       fill_on_alloc_bytes fill_on_free_bytes
                       expand_alloc_bytes free_track_allocations
                       free_track_backtrace_num_frames orb];
        f_equal;
        try (match goal with
             | |- context [written ?g ws] => destruct (written g ws); reflexivity
             end);
        try (match goal with
             | |- context [raised ?g ws] => destruct (raised g ws); reflexivity
             end).
    + cbn [do_write or_options written raised ored
           get_num backtrace_enable_on_signal backtrace_signal
           backtrace_enabled options fill_alloc_value
           fill_free_value front_guard_value rear_guard_value
           front_guard_bytes rear_guard_bytes backtrace_frames
           fill_on_alloc_bytes fill_on_free_bytes
           expand_alloc_bytes free_track_allocations
           free_track_backtrace_num_frames].
      f_equal;
        try (match goal with
             | |- context [written ?g ws] => destruct (written g ws); reflexivity
             end).
      symmetry. apply Z.lor_assoc.
Qed.

Lemma BIONIC_ALIGN_idem (x a : Z) :
  0 < a -> (a | SIZE_MAX + 1) -> 0 <= SIZE_MAX ->
  BIONIC_ALIGN (BIONIC_ALIGN x a) a = BIONIC_ALIGN x a.
Proof.
  intros Ha [k Hk] HM. unfold BIONIC_ALIGN.
  set (M := SIZE_MAX + 1) in *.
  set (q := (x + a - 1) / a).
  pose proof (Z.div_mod (q * a) M ltac:(lia)) as Hdm.
  pose proof (Z.mod_pos_bound (q * a) M ltac:(lia)) as Hb.
  set (y := (q * a) mod M) in *.
  set (t := (q * a) / M) in *.
  assert (Hy : y = a * (q - k * t)) by (rewrite Hk in Hdm; lia).
  assert (Hq : (y + a - 1) / a = q - k * t).
  { symmetry. apply (Z.div_unique_pos _ _ _ (a - 1)); lia. }
  rewrite Hq. replace ((q - k * t) * a) with y by lia.
  apply Z.mod_small. lia.
Qed.

Lemma lor_twice (o m : Z) : Z.lor (Z.lor o m) m = Z.lor o m.
Proof. rewrite <- Z.lor_assoc, Z.lor_diag. reflexivity. Qed.

(** Setting the defaults, writing and normalizing once more changes
    nothing; neither does it without normalizing. *)
Lemma rebuild_same (ws : list Write) (c : Config) :
  0 < MINIMUM_ALIGNMENT_BYTES ->
  (MINIMUM_ALIGNMENT_BYTES | SIZE_MAX + 1) ->
  0 <= SIZE_MAX ->
  normalize (do_writes ws (init_defaults
    (normalize (do_writes ws (init_defaults c))))) =
  normalize (do_writes ws (init_defaults c)) /\
  do_writes ws (init_defaults (do_writes ws (init_defaults c))) =
  do_writes ws (init_defaults c).
Proof.
  intros Ha Hd HM. destruct c. cbn [init_defaults].
  rewrite (do_writes_fields ws (mkConfig _ _ _ _ _ _ _ _ _ _ _ _ _ _ _ _)).
  unfold pick.
  cbn [get_num backtrace_enable_on_signal backtrace_signal
       backtrace_enabled options fill_alloc_value
       fill_free_value front_guard_value rear_guard_value
       front_guard_bytes rear_guard_bytes backtrace_frames
       fill_on_alloc_bytes fill_on_free_bytes
       expand_alloc_bytes free_track_allocations
       free_track_backtrace_num_frames].
  rewrite normalize_fields. cbn [init_defaults].
  rewrite !do_writes_fields. unfold pick.
  cbn [get_num backtrace_enable_on_signal backtrace_signal
       backtrace_enabled options fill_alloc_value
       fill_free_value front_guard_value rear_guard_value
       front_guard_bytes rear_guard_bytes backtrace_frames
       fill_on_alloc_bytes fill_on_free_bytes
       expand_alloc_bytes free_track_allocations
       free_track_backtrace_num_frames].
  rewrite normalize_fields. rewrite !lor_twice.
  split; f_equal;
    try (match goal with
         | |- context [raised ?g ws] => destruct (raised g ws); reflexivity
         end).
  all: match goal with
       | |- context [written ?g ?w] => destruct (written g w)
       end; try reflexivity.
  - destruct (negb (Z.land (Z.lor options0 (ored ws)) FRONT_GUARD =? 0));
      [|reflexivity].
    apply BIONIC_ALIGN_idem; assumption.
  - destruct (negb (Z.land (Z.lor options0 (ored ws)) FILL_ON_FREE =? 0));
      [|reflexivity].
    cbn [andb]. destruct (fill_on_free_bytes0 =? 0) eqn:E0.
    + destruct (SIZE_MAX =? 0); reflexivity.
    + rewrite E0. reflexivity.
Qed.

(** C8. Building a second time from the same option string, on the
    [Config] the first build left, returns the same bool and leaves the
    same [Config] as the first build did. *)
Theorem C8_second_build_changes_nothing (prop : string) (st : State) :
  0 < MINIMUM_ALIGNMENT_BYTES ->
  (SIZE_MAX + 1) mod MINIMUM_ALIGNMENT_BYTES = 0 ->
  0 <= SIZE_MAX ->
  exists ok st1 st2,
    SetFromProperties prop st = Some (ok, st1) /\
    SetFromProperties prop st1 = Some (ok, st2) /\
    config st2 = config st1.
Proof.
  intros Ha Hd HM.
  apply Z.mod_divide in Hd; [|lia].
  destruct (SetFromProperties_writes prop) as [H|(ok & ws & H)].
  - destruct (H st) as (st1 & E1 & C1).
    destruct (H st1) as (st2 & E2 & C2).
    exists false, st1, st2. auto.
  - destruct (H st) as (st1 & E1 & C1).
    destruct (H st1) as (st2 & E2 & C2).
    exists ok, st1, st2. split; [exact E1|]. split; [exact E2|].
    rewrite C2, C1.
    destruct (rebuild_same ws (config st) Ha Hd HM) as [R1 R2].
    destruct ok; assumption.
Qed.

(** C1, on the code.  No entry of the table is named unknown_option.  As
    the first token of the option string it is reported and the build
    fails: "unknown_option" and "unknown_option=5" give false with the
    messages of the unknown option and of the usage.  After a token that
    matched an entry it is not: [found] is still set from that token, so
    on "backtrace unknown_option" the build returns true and logs
    nothing; in general the loop passes over a token that selects no entry
    whenever [found] is set. *)
Theorem C1_unknown_option_after_known (st : State) :
  lookup_feature features "unknown_option" = None /\
  SetFromProperties "unknown_option" st =
    Some (false,
          error_log Usage
            (error_log (UnknownOption "unknown_option")
               (with_config init_defaults st))) /\
  (5 <= LONG_MAX <= SIZE_MAX ->
   SetFromProperties "unknown_option=5" st =
     Some (false,
           error_log Usage
             (error_log (UnknownOption "unknown_option")
                (with_config init_defaults st)))) /\
  (exists st',
     SetFromProperties "backtrace unknown_option" st = Some (true, st') /\
     errlog st' = errlog st /\
     backtrace_enabled (config st') = true) /\
  (forall (fuel : nat) (p p1 : PropertyParser) (n : string)
          (ov : Datatypes.option Z) (l : Locals),
     valid l = true -> found l = true ->
     Get p = GetOk p1 n ov ->
     lookup_feature features n = None ->
     while_loop (S fuel) p l st = while_loop fuel p1 (store_token n ov l) st).
Proof.
  split; [reflexivity|]. split; [|split; [|split]].
  4:{ intros fuel p p1 n ov l Hv Hf EG Hlk.
      rewrite while_loop_S, Hv, EG, feature_loop_lookup.
      rewrite store_token_property, Hlk.
      replace (valid (store_token n ov l)) with true
        by (destruct ov; cbn; congruence).
      replace (found (store_token n ov l)) with true
        by (destruct ov; cbn; congruence).
      reflexivity. }
  - rewrite (one_token "unknown_option" (mkParser "" false) (mkParser "" true)
               "unknown_option" None st eq_refl eq_refl).
    rewrite feature_loop_lookup. reflexivity.
  - intros HL.
    assert (EG : Get (mkParser "unknown_option=5" false) =
                 GetOk (mkParser "" false) "unknown_option" (Some 5)).
    { apply (Get_numeral_token "unknown_option" "5" "" false);
        [lia|reflexivity|reflexivity|cbn; lia|right; reflexivity]. }
    rewrite (one_token _ _ _ _ _ st EG (Get_end false)).
    rewrite feature_loop_lookup. reflexivity.
  - unfold SetFromProperties, __system_property_get.
    change (Nat.eqb (strlen "backtrace unknown_option") 0) with false.
    cbv iota. cbn [String.length].
    rewrite while_loop_S. cbn [valid].
    change (Get (mkParser "backtrace unknown_option" false))
      with (GetOk (mkParser "unknown_option" false) "backtrace" None).
    cbv iota beta.
    rewrite feature_loop_lookup.
    cbn [store_token l_property l_value l_value_set found valid].
    destruct (lookup_flag_option p_backtrace_enabled) as [rest Hlk].
    cbn [flag_option] in Hlk. rewrite Hlk.
    unfold is_marker. cbn [option_ combo_option]. rewrite andb_false_r.
    unfold SetFeature, set_config_flag.
    cbn [value config_ default_value set_found valid found l_property
         l_value l_value_set andb negb].
    rewrite while_loop_S. cbn [valid].
    change (Get (mkParser "unknown_option" false))
      with (GetOk (mkParser "" false) "unknown_option" None).
    cbv iota beta.
    rewrite feature_loop_lookup.
    cbn [store_token l_property l_value l_value_set found valid].
    change (lookup_feature features "unknown_option") with (@None (Feature * list Feature)).
    cbn [valid found andb negb].
    rewrite while_loop_S. cbn [valid]. rewrite Get_end.
    cbn [valid done_ andb].
    eexists. split; [reflexivity|].
    destruct st as [c lg]. cbn [with_config config errlog].
    split; [reflexivity|].
    change (backtrace_enabled ?c) with (get_bool p_backtrace_enabled c).
    rewrite (proj2 (normalize_keeps _)).
    rewrite get_bool_or_options, get_bool_set_num, get_bool_set_bool.
    reflexivity.
Qed.

End Specified.

(** * On the Android targets *)

(** Runs on the 64-bit target, from a default-constructed [Config]. *)

Example run_guard_10 :
  @SetFromProperties lp64 "guard=10" start =
  Some (true,
        mkState (mkConfig 16 10 false 45 false 0 0 0 0 0 16 3 235 239 170 187) []).
Proof. vm_compute. reflexivity. Qed.

Example run_backtrace_0 :
  @SetFromProperties lp64 "backtrace=0" start =
  Some (false,
        mkState (mkConfig 0 0 false 45 true 0 0 0 0 0 16 0 235 239 170 187)
          [ValueBelowMin "backtrace" 1 0; Usage]).
Proof. vm_compute. reflexivity. Qed.

Example run_extra_garbage :
  @SetFromProperties lp64 "backtrace=10 extra_garbage=notanumber" start =
  Some (false,
        mkState (mkConfig 0 0 false 45 true 10 0 0 0 0 16 132 235 239 170 187)
          [BadValue "extra_garbage"; Usage]).
Proof. vm_compute. reflexivity. Qed.

Example run_leak_track_1 :
  @SetFromProperties lp64 "leak_track=1" start =
  Some (false,
        mkState (mkConfig 0 0 false 45 false 0 0 0 0 0 16 0 235 239 170 187)
          [ValueNotTaken "leak_track"; Usage]).
Proof. vm_compute. reflexivity. Qed.

Example run_unknown_option_5 :
  @SetFromProperties lp64 "unknown_option=5" start =
  Some (false,
        mkState (mkConfig 0 0 false 45 false 0 0 0 0 0 16 0 235 239 170 187)
          [UnknownOption "unknown_option"; Usage]).
Proof. vm_compute. reflexivity. Qed.

Example run_fill_above_LONG_MAX :
  @SetFromProperties lp64 "fill=9223372036854775808" start =
  Some (false,
        mkState (mkConfig 0 0 false 45 false 0 0 0 0 0 16 0 235 239 170 187)
          [BadValueErrno "fill" ERANGE; Usage]).
Proof. vm_compute. reflexivity. Qed.

(** On both targets "backtrace unknown_option" builds, with no message
    about the unknown option. *)
Example run_backtrace_unknown_option :
  @SetFromProperties lp64 "backtrace unknown_option" start =
    Some (true,
          mkState (mkConfig 0 0 false 45 true 16 0 0 0 0 16 132 235 239 170 187) []) /\
  @SetFromProperties ilp32 "backtrace unknown_option" start =
    Some (true,
          mkState (mkConfig 0 0 false 45 true 16 0 0 0 0 16 132 235 239 170 187) []).
Proof. split; vm_compute; reflexivity. Qed.

(** C2: a leading sign is not always refused.  The value "+5" is
    accepted, as the value 5; so is "-0", as the value 0. *)
Lemma C2_leading_sign_accepted :
  @Get lp64 (mkParser "backtrace=+5" false) =
    GetOk (mkParser "" false) "backtrace" (Some 5) /\
  @SetFromProperties lp64 "backtrace=+5" start =
    Some (true,
          mkState (mkConfig 0 0 false 45 true 5 0 0 0 0 16 132 235 239 170 187) []) /\
  @Get lp64 (mkParser "free_track_backtrace_num_frames=-0" false) =
    GetOk (mkParser "" false) "free_track_backtrace_num_frames" (Some 0) /\
  @SetFromProperties lp64 "free_track_backtrace_num_frames=-0" start =
    Some (true,
          mkState (mkConfig 0 0 false 45 false 0 0 0 0 0 0 0 235 239 170 187) []).
Proof. repeat split; vm_compute; reflexivity. Qed.

Lemma C2_witness :
  (0 <= @LONG_MAX lp64 <= @SIZE_MAX lp64) /\
  @Get lp64 (mkParser "backtrace=+5 leak_track" false) =
    GetOk (mkParser " leak_track" false) "backtrace" (Some 5) /\
  is_GetErr (@Get lp64 (mkParser "backtrace=-5 leak_track" false)) = true.
Proof.
  assert (HT : 0 <= @LONG_MAX lp64 <= @SIZE_MAX lp64) by (cbn; lia).
  destruct (@C2_signs_in_values lp64 "backtrace" "5" " leak_track" false HT
              eq_refl eq_refl) as (H1 & H2 & _).
  split; [exact HT|]. split.
  - apply H2; [left; reflexivity|cbn; lia].
  - apply H1; [reflexivity|discriminate].
Defined.

Lemma C3_witness :
  exists st',
    @SetFromProperties lp64 "guard=10" start = Some (true, st') /\
    errlog st' = [] /\
    has_bits (options (config st')) 1 /\
    has_bits (options (config st')) 2 /\
    front_guard_bytes (config st') = 16 /\
    rear_guard_bytes (config st') = 10.
Proof.
  destruct (@C3_guard_sets_both_guards lp64 "10" start)
    as ((st' & H1 & H2 & H3 & H4 & H5 & _ & _ & H8) & _).
  - discriminate.
  - cbn; lia.
  - cbn; lia.
  - reflexivity.
  - cbn; lia.
  - exists st'. repeat split; assumption.
Defined.

Lemma C4_witness :
  exists st',
    @SetFromProperties lp64 "free_track" start = Some (true, st') /\
    has_bits (options (config st')) 16 /\
    fill_on_free_bytes (config st') = 18446744073709551615 /\
    free_track_allocations (config st') = 100.
Proof.
  destruct (@C4_free_track_fills_on_free lp64 start)
    as (_ & st' & H1 & _ & H3 & _ & H5 & H6).
  - discriminate.
  - reflexivity.
  - exists st'. repeat split; assumption.
Defined.

Lemma C8_witness :
  exists ok st1 st2,
    @SetFromProperties lp64 "guard=10 free_track backtrace=0" start = Some (ok, st1) /\
    @SetFromProperties lp64 "guard=10 free_track backtrace=0" st1 = Some (ok, st2) /\
    config st2 = config st1.
Proof.
  apply (@C8_second_build_changes_nothing lp64).
  - reflexivity.
  - reflexivity.
  - discriminate.
Defined.

Lemma C10_witness :
  @Get lp64 (mkParser "fill=9223372036854775808" false) =
    GetErr (mkParser "9223372036854775808" false) "fill"
      (BadValueErrno "fill" ERANGE) /\
  exists st',
    @SetFromProperties lp64 "fill=9223372036854775808" start = Some (false, st').
Proof.
  destruct (@C10_values_above_LONG_MAX lp64) as (H1 & _ & _);
    [reflexivity|].
  destruct (H1 "fill" "9223372036854775808" "" false) as [E1 E2];
    try reflexivity.
  split; [exact E1|exact (E2 start)].
Defined.

Lemma C6_witness :
  is_GetErr (@Get lp64 (mkParser "extra_garbage=notanumber" false)) = true /\
  exists st',
    @SetFromProperties lp64 "backtrace=10 extra_garbage=notanumber" start =
    Some (false, st').
Proof.
  destruct (@C6_bad_value_fails lp64) as (H1 & _ & _ & H3 & _). split.
  - exact (eq_trans
             (H1 "" "extra_garbage" "" "notanumber" false eq_refl eq_refl eq_refl)
             eq_refl).
  - apply H3.
Defined.

Lemma C9_witness :
  exists st',
    @SetFromProperties lp64 "backtrace=3 backtrace_enable_on_signal=7" start =
      Some (true, st') /\
    backtrace_frames (config st') = 7 /\
    backtrace_enabled (config st') = true /\
    backtrace_enable_on_signal (config st') = true.
Proof.
  destruct (@C9_backtrace_frames_shared lp64) as (_ & _ & H3 & H4 & _).
  destruct (@SetFromProperties_total lp64
              "backtrace=3 backtrace_enable_on_signal=7" start)
    as (ok & st' & E).
  assert (Hok : ok = true) by (vm_compute in E; congruence).
  subst ok. exists st'. split; [exact E|].
  assert (R : @reaches lp64
                (mkParser "backtrace=3 backtrace_enable_on_signal=7" false)
                (mkParser " backtrace_enable_on_signal=7" false)).
  { eapply reaches_next; [vm_compute; reflexivity|apply reaches_here]. }
  split; [|split].
  - apply (H3 _ start st' _ (mkParser "" false) p_backtrace_enable_on_signal 7
             E R); [vm_compute; reflexivity|].
    intros q2 q3 n' ov' b' R2 G2.
    inversion R2; subst; discriminate.
  - apply (H4 _ start st' p_backtrace_enabled (Some 3) E).
    exists (mkParser "backtrace=3 backtrace_enable_on_signal=7" false),
           (mkParser " backtrace_enable_on_signal=7" false).
    split; [apply reaches_here|vm_compute; reflexivity].
  - apply (H4 _ start st' p_backtrace_enable_on_signal (Some 7) E).
    exists (mkParser " backtrace_enable_on_signal=7" false), (mkParser "" false).
    split; [exact R|vm_compute; reflexivity].
Defined.

(** * Further properties of the parser and of the build *)

Lemma skip_space_app_space (ws s : string) :
  all_space ws = true -> skip_space (ws ++ s) = skip_space s.
Proof.
  intros H. induction ws as [|c ws IH]; [reflexivity|].
  simpl in H. apply andb_true_iff in H. destruct H as [Hc Hws].
  simpl. rewrite Hc. auto.
Qed.

Lemma skip_space_all_space (ws : string) :
  all_space ws = true -> skip_space ws = "".
Proof.
  intros H. rewrite <- (append_empty_r ws).
  rewrite skip_space_app_space by exact H. reflexivity.
Qed.

Lemma all_space_strlen (ws : string) :
  all_space ws = true -> ws <> "" -> Nat.eqb (strlen ws) 0 = false.
Proof.
  destruct ws as [|c ws]; [congruence|]. simpl. intros H _.
  apply andb_true_iff in H. destruct H as [Hc _].
  destruct (isspace_not_eq_nul c Hc) as [_ ->]. reflexivity.
Qed.

Section Strings.
Context `{T : Target}.

(** White space before the cursor does not change what [Get] returns. *)
Lemma Get_leading_space (ws s : string) (d : bool) :
  all_space ws = true -> Get (mkParser (ws ++ s) d) = Get (mkParser s d).
Proof.
  intros H. unfold Get. cbn [cur_ done_].
  rewrite skip_space_app_space by exact H. reflexivity.
Qed.

(** Fuel that is not used up does not matter. *)
Lemma while_loop_more_fuel (fuel : nat) :
  forall (k : nat) (p : PropertyParser) (l : Locals) (st : State)
         (r : PropertyParser * Locals * State),
  while_loop fuel p l st = Some r -> while_loop (fuel + k) p l st = Some r.
Proof.
  induction fuel as [|fuel IH]; intros k p l st r E; [discriminate|].
  change (S fuel + k)%nat with (S (fuel + k)).
  rewrite while_loop_S in *.
  destruct (valid l); [|exact E].
  destruct (Get p) as [p1 n ov|p1|p1 n m]; try exact E.
  destruct (feature_loop features (store_token n ov l) st) as [l1 st1].
  destruct (valid l1 && negb (found l1)); [exact E|].
  apply IH, E.
Qed.

(** The loop starts the same from two parser states on which [Get]
    returns the same. *)
Lemma while_loop_same_Get (fuel : nat) (p q : PropertyParser) (l : Locals)
    (st : State) :
  valid l = true -> Get p = Get q ->
  while_loop (S fuel) p l st = while_loop (S fuel) q l st.
Proof. intros Hv E. rewrite !while_loop_S, Hv, E. reflexivity. Qed.

(** X1. An empty option string (the property is not set) makes the build
    return false at once, with the [Config] and the log untouched.  A
    string of white space only is not empty: the build returns true,
    logs nothing, and the [Config] has the defaults and is normalized. *)
Theorem X1_empty_and_blank_strings (st : State) :
  (forall s : string,
     strlen s = O -> SetFromProperties s st = Some (false, st)) /\
  (forall ws : string,
     all_space ws = true -> ws <> "" ->
     SetFromProperties ws st =
     Some (true, with_config normalize (with_config init_defaults st))).
Proof.
  split.
  - intros s H. unfold SetFromProperties, __system_property_get.
    rewrite H. reflexivity.
  - intros ws Hws Hne. unfold SetFromProperties, __system_property_get.
    rewrite all_space_strlen by assumption.
    rewrite while_loop_S. cbn [valid].
    unfold Get. cbn [cur_ done_]. rewrite skip_space_all_space by exact Hws.
    reflexivity.
Qed.

(** X2. White space before the first option does not matter: an option
    string that is not empty builds the same with white space put before
    it.  (The empty string does not: with white space before it the build
    succeeds, see X1.) *)
Theorem X2_leading_white_space_ignored (ws s : string) (st : State) :
  all_space ws = true -> strlen s <> O ->
  SetFromProperties (ws ++ s) st = SetFromProperties s st.
Proof.
  intros Hws Hs.
  destruct ws as [|c ws]; [reflexivity|].
  unfold SetFromProperties, __system_property_get.
  assert (Hc : Nat.eqb (strlen (String c ws ++ s)) 0 = false).
  { simpl in Hws. apply andb_true_iff in Hws. destruct Hws as [Hc _].
    destruct (isspace_not_eq_nul c Hc) as [_ Hn].
    cbn [append strlen]. rewrite Hn. reflexivity. }
  rewrite Hc.
  destruct (Nat.eqb (strlen s) 0) eqn:E0; [apply Nat.eqb_eq in E0; congruence|].
  set (l0 := mkLocals "" 0 false false true).
  set (st0 := with_config init_defaults st).
  destruct (while_loop_total (S (String.length s)) (mkParser s false) l0 st0)
    as [r E]; [simpl; lia|].
  rewrite E.
  assert (E' : while_loop (S (String.length (String c ws ++ s)))
                 (mkParser (String c ws ++ s) false) l0 st0 = Some r).
  { rewrite (while_loop_same_Get _ _ (mkParser s false)); [|reflexivity|].
    - rewrite length_app.
      replace (S (String.length (String c ws) + String.length s))
        with (S (String.length s) + String.length (String c ws))%nat by lia.
      apply while_loop_more_fuel, E.
    - apply Get_leading_space, Hws. }
  rewrite E'. reflexivity.
Qed.

(** X3. The build always returns: the loop ends within as many turns as
    the option string has characters, plus one, because a call of [Get]
    that returns true has moved the cursor forward; and with more turns
    allowed the loop ends in the same state. *)
Theorem X3_build_always_returns :
  (forall (p p1 : PropertyParser) (n : string) (ov : Datatypes.option Z),
     Get p = GetOk p1 n ov ->
     (String.length (cur_ p1) < String.length (cur_ p))%nat) /\
  (forall (p : PropertyParser) (l : Locals) (st : State) (k : nat),
     exists r,
       while_loop (S (String.length (cur_ p))) p l st = Some r /\
       while_loop (S (String.length (cur_ p)) + k) p l st = Some r) /\
  (forall (s : string) (st : State),
     exists ok st', SetFromProperties s st = Some (ok, st')).
Proof.
  split; [|split].
  - intros p p1 n ov E. apply (Get_ok_progress p p1 n ov E).
  - intros p l st k.
    destruct (while_loop_total (S (String.length (cur_ p))) p l st) as [r E];
      [lia|].
    exists r. split; [exact E|]. apply while_loop_more_fuel, E.
  - intros s st. apply SetFromProperties_total.
Qed.

End Strings.

(** ** Invariants of the build *)

Lemma combo_loop_inv (Q : Config -> Prop) (fs : list Feature) (l : Locals) :
  (forall m c, Q c -> Q (or_options m c)) ->
  (forall f nm v vs st,
     In f fs -> Q (config st) -> Q (config (snd (SetFeature nm f v vs st)))) ->
  forall st, Q (config st) -> Q (config (snd (combo_loop fs l st))).
Proof.
  intros Hor. induction fs as [|f rest IH]; intros HS st HQ; [exact HQ|].
  cbn [combo_loop]. destruct (combo_option f); [|exact HQ].
  pose proof (HS f (l_property l) (l_value l) (l_value_set l) st
                (or_introl eq_refl) HQ) as H1.
  destruct (SetFeature _ f _ _ st) as [[] st1]; cbn [snd] in *; [|exact H1].
  apply IH; [intros g nm v vs st2 Hg; apply HS; right; exact Hg|].
  apply Hor, H1.
Qed.

Lemma feature_loop_inv (Q : Config -> Prop) (fs : list Feature) (l : Locals) :
  (forall m c, Q c -> Q (or_options m c)) ->
  (forall f nm v vs st,
     In f fs -> Q (config st) -> Q (config (snd (SetFeature nm f v vs st)))) ->
  forall st, Q (config st) -> Q (config (snd (feature_loop fs l st))).
Proof.
  intros Hor. induction fs as [|f rest IH]; intros HS st HQ; [exact HQ|].
  cbn [feature_loop]. destruct (String.eqb (l_property l) (name f)).
  - destruct ((option_ f =? 0) && combo_option f).
    + pose proof (combo_loop_inv Q rest l Hor
                    (fun g nm v vs st2 Hg => HS g nm v vs st2 (or_intror Hg))
                    st HQ) as H1.
      destruct (combo_loop rest l st) as [[] st1]; exact H1.
    + pose proof (HS f (l_property l) (l_value l) (l_value_set l) st
                    (or_introl eq_refl) HQ) as H1.
      destruct (SetFeature _ f _ _ st) as [[] st1]; cbn [snd] in *;
        [apply Hor|]; exact H1.
  - apply IH; [|exact HQ]. intros g nm v vs st2 Hg. apply HS. right. exact Hg.
Qed.

Section Invariants.
Context `{T : Target}.

(** What [SetFromProperties] returns, from what the loop leaves. *)
Lemma SetFromProperties_result (prop : string) (st : State) :
  SetFromProperties prop st = Some (false, st) \/
  exists p l st1,
    while_loop (S (String.length prop)) (mkParser prop false)
      (mkLocals "" 0 false false true) (with_config init_defaults st)
      = Some (p, l, st1) /\
    SetFromProperties prop st =
      Some (valid l && done_ p,
            if valid l && done_ p then with_config normalize st1
            else error_log Usage st1).
Proof.
  unfold SetFromProperties, __system_property_get.
  destruct (Nat.eqb (strlen prop) 0); [left; reflexivity|]. right.
  destruct (while_loop_total (S (String.length prop)) (mkParser prop false)
    (mkLocals "" 0 false false true) (with_config init_defaults st))
    as [[[p l] st1] E]; [simpl; lia|].
  exists p, l, st1. rewrite E. split; [reflexivity|].
  destruct (valid l && done_ p); reflexivity.
Qed.

(** A property of the [Config] that holds once the defaults are set, and
    that [SetFeature] on the entries of the table, [options |= ...] and
    the normalization keep, holds after the build, unless the build
    returned at once. *)
Lemma build_inv (Q : Config -> Prop) (prop : string) (st : State) :
  (forall m c, Q c -> Q (or_options m c)) ->
  (forall f nm v vs st0,
     In f features -> Q (config st0) ->
     Q (config (snd (SetFeature nm f v vs st0)))) ->
  Q (init_defaults (config st)) ->
  exists ok st',
    SetFromProperties prop st = Some (ok, st') /\
    (st' = st \/
     (ok = false /\ Q (config st')) \/
     (ok = true /\ exists c, Q c /\ config st' = normalize c)).
Proof.
  intros Hor HS H0.
  destruct (SetFromProperties_result prop st) as [E|(p & l & st1 & E & E')].
  - exists false, st. auto.
  - assert (HQ : Q (config st1)).
    { refine (while_loop_keeps Q _ _ _ _ (p, l, st1) _ _ E).
      - intros q q1 n ov st0 _ _ l0 HQ0.
        apply feature_loop_inv; assumption.
      - exact H0. }
    rewrite E'. destruct (valid l && done_ p); eexists; eexists;
      (split; [reflexivity|]); right; [right|left]; split; try reflexivity.
    + exists (config st1). split; [exact HQ|reflexivity].
    + exact HQ.
Qed.

End Invariants.

Lemma SetFeature_options (nm : string) (f : Feature) (v : Z) (vs : bool)
    (st : State) :
  options (config (snd (SetFeature nm f v vs st))) = options (config st).
Proof.
  apply (SetFeature_keeps (fun c => options c = options (config st)));
    [|reflexivity].
  split.
  - intros b c _ H. destruct c, b; exact H.
  - intros slot v' c _ H. destruct c, slot; exact H.
Qed.

Lemma SetFeature_flag_kept (b : BoolField) (nm : string) (f : Feature) (v : Z)
    (vs : bool) (st : State) :
  get_bool b (config st) = true ->
  get_bool b (config (snd (SetFeature nm f v vs st))) = true.
Proof.
  apply (SetFeature_keeps (fun c => get_bool b c = true)). split.
  - intros b' c _ H. destruct c, b, b'; cbn in *; auto.
  - intros slot v' c _ H. rewrite get_bool_set_num. exact H.
Qed.

Section Monotone.
Context `{T : Target}.

(** X4. The build only ever sets bits and flags, it clears none:
    whatever the option string and whether the build succeeds or not, the
    bits that were set in [options] before are set after, and a [bool]
    member that was true before is true after. *)
Theorem X4_bits_and_flags_are_never_cleared (prop : string) (st : State) :
  exists ok st',
    SetFromProperties prop st = Some (ok, st') /\
    (forall m, has_bits (options (config st)) m ->
               has_bits (options (config st')) m) /\
    (forall b, get_bool b (config st) = true ->
               get_bool b (config st') = true).
Proof.
  destruct (SetFromProperties_total prop st) as (ok & st' & E).
  exists ok, st'. split; [exact E|]. split.
  - intros m Hm.
    destruct (build_inv (fun c => has_bits (options c) m) prop st)
      as (ok' & st'' & E' & H).
    + intros k c H. destruct c. apply has_bits_or_l, H.
    + intros f nm v vs st0 _ H. rewrite SetFeature_options. exact H.
    + destruct (config st). exact Hm.
    + rewrite E in E'. injection E' as <- <-.
      destruct H as [->|[[_ H]|(_ & c & H & ->)]]; auto.
      destruct c. rewrite normalize_fields. exact H.
  - intros b Hb.
    destruct (build_inv (fun c => get_bool b c = true) prop st)
      as (ok' & st'' & E' & H).
    + intros k c H. rewrite get_bool_or_options. exact H.
    + intros f nm v vs st0 _ H. apply SetFeature_flag_kept, H.
    + destruct (config st), b; exact Hb.
    + rewrite E in E'. injection E' as <- <-.
      destruct H as [->|[[_ H]|(_ & c & H & ->)]]; auto.
      rewrite (proj2 (normalize_keeps c)). exact H.
Qed.

End Monotone.

Lemma NumField_eq_dec (a b : NumField) : {a = b} + {a <> b}.
Proof. decide equality. Qed.

Section Bounds.
Context `{T : Target}.

(** The default of an entry is within its bounds. *)
Lemma default_in_bounds (f : Feature) :
  1 <= SIZE_MAX -> In f features ->
  min_value f <= default_value f <= max_value f.
Proof.
  intros HS Hin. unfold features in Hin. cbn [In] in Hin.
  repeat (destruct Hin as [<-|Hin]; [cbn; lia|]).
  destruct Hin.
Qed.

Lemma SetFeature_in_bounds (slot : NumField) (x0 : Z) (nm : string)
    (f : Feature) (v : Z) (vs : bool) (st : State) :
  1 <= SIZE_MAX -> In f features ->
  get_num slot (config st) = x0 \/
    in_bounds features slot (get_num slot (config st)) ->
  get_num slot (config (snd (SetFeature nm f v vs st))) = x0 \/
    in_bounds features slot (get_num slot (config (snd (SetFeature nm f v vs st)))).
Proof.
  intros HS Hin HQ. unfold SetFeature.
  assert (HQ' : get_num slot (config (set_config_flag f st)) = x0 \/
                in_bounds features slot
                  (get_num slot (config (set_config_flag f st)))).
  { unfold set_config_flag. destruct (config_ f) as [b|]; [|exact HQ].
    cbn [with_config config]. rewrite get_num_set_bool. exact HQ. }
  set (st1 := set_config_flag f st) in *.
  assert (Hset : forall slot' w,
            value f = Some slot' -> min_value f <= w <= max_value f ->
            get_num slot (set_num slot' w (config st1)) = x0 \/
            in_bounds features slot (get_num slot (set_num slot' w (config st1)))).
  { intros slot' w Hv Hw. destruct (NumField_eq_dec slot slot') as [<-|Hne].
    - right. rewrite get_num_set_num. exists f. auto.
    - rewrite get_num_set_num_other by exact Hne. exact HQ'. }
  destruct (value f) as [slot'|] eqn:Hv.
  - destruct vs.
    + destruct (v <? min_value f) eqn:E1; [exact HQ'|].
      destruct (v >? max_value f) eqn:E2; [exact HQ'|].
      apply Z.ltb_ge in E1. rewrite Z.gtb_ltb in E2. apply Z.ltb_ge in E2.
      apply Hset; [reflexivity|lia].
    + apply Hset; [reflexivity|]. apply default_in_bounds; assumption.
  - destruct vs; exact HQ'.
Qed.

(** X5. The build stores no value that is out of bounds.  Whatever the
    option string, a [size_t] member that an entry can point to is, after
    the build, as it was before, or within the bounds of an entry of the
    table that points to it; this holds for every such member when the
    build fails, and for all but the two the normalization may change
    (front_guard_bytes, fill_on_free_bytes) when it succeeds. *)
Theorem X5_stored_values_are_in_bounds (prop : string) (st : State) :
  1 <= SIZE_MAX ->
  exists ok st',
    SetFromProperties prop st = Some (ok, st') /\
    forall slot : NumField,
      ok = false \/
        (slot <> p_front_guard_bytes /\ slot <> p_fill_on_free_bytes) ->
      get_num slot (config st') = get_num slot (config st) \/
      in_bounds features slot (get_num slot (config st')).
Proof.
  intros HS.
  destruct (SetFromProperties_total prop st) as (ok & st' & E).
  exists ok, st'. split; [exact E|]. intros slot Hslot.
  destruct (build_inv
    (fun c => get_num slot c = get_num slot (config st) \/
              in_bounds features slot (get_num slot c)) prop st)
    as (ok' & st'' & E' & H).
  - intros m c H. rewrite get_num_or_options. exact H.
  - intros f nm v vs st0 Hin H. apply SetFeature_in_bounds; assumption.
  - destruct (NumField_eq_dec slot p_free_track_backtrace_num_frames) as [->|Hne].
    + right. destruct (config st). cbn.
      exists (mkFeature "free_track_backtrace_num_frames" 16 0 256 0
                (Some p_free_track_backtrace_num_frames) None false).
      split; [|split; [reflexivity|cbn; lia]].
      unfold features. cbn [In]. do 10 right. left. reflexivity.
    + left. destruct (config st), slot; try reflexivity. congruence.
  - rewrite E in E'. injection E' as <- <-.
    destruct H as [->|[[_ H]|(Hok & c & H & Hc)]]; auto.
    destruct Hslot as [Hf|[H1 H2]]; [congruence|].
    rewrite Hc. destruct c. rewrite normalize_fields.
    destruct slot; try exact H; congruence.
Qed.

Lemma BIONIC_ALIGN_multiple (x a : Z) :
  0 < a -> (a | SIZE_MAX + 1) -> 0 <= SIZE_MAX ->
  (a | BIONIC_ALIGN x a) /\ 0 <= BIONIC_ALIGN x a <= SIZE_MAX.
Proof.
  intros Ha [k Hk] HM. unfold BIONIC_ALIGN.
  set (M := SIZE_MAX + 1) in *.
  set (q := (x + a - 1) / a).
  pose proof (Z.div_mod (q * a) M ltac:(lia)) as Hdm.
  pose proof (Z.mod_pos_bound (q * a) M ltac:(lia)) as Hb.
  split; [|lia].
  exists (q - k * ((q * a) / M)). rewrite Hk in Hdm at 1. lia.
Qed.

(** X6. What a build that succeeded guarantees.  When a bit of
    FRONT_GUARD is set in [options], front_guard_bytes is a multiple of
    MINIMUM_ALIGNMENT_BYTES (and a [size_t]); when a bit of FILL_ON_FREE
    is set, fill_on_free_bytes is not zero. *)
Theorem X6_successful_build_is_normalized (prop : string) (st : State) :
  0 < MINIMUM_ALIGNMENT_BYTES ->
  (SIZE_MAX + 1) mod MINIMUM_ALIGNMENT_BYTES = 0 ->
  0 < SIZE_MAX ->
  exists ok st',
    SetFromProperties prop st = Some (ok, st') /\
    (ok = true ->
     (Z.land (options (config st')) FRONT_GUARD <> 0 ->
      (MINIMUM_ALIGNMENT_BYTES | front_guard_bytes (config st')) /\
      0 <= front_guard_bytes (config st') <= SIZE_MAX) /\
     (Z.land (options (config st')) FILL_ON_FREE <> 0 ->
      fill_on_free_bytes (config st') <> 0)).
Proof.
  intros Ha Hd HM. apply Z.mod_divide in Hd; [|lia].
  destruct (SetFromProperties_result prop st) as [E|(p & l & st1 & _ & E)].
  - exists false, st. split; [exact E|discriminate].
  - rewrite E. eexists. eexists. split; [reflexivity|].
    intros Hok. rewrite Hok. cbn [with_config config].
    destruct (config st1). rewrite normalize_fields.
    cbn [options front_guard_bytes fill_on_free_bytes]. split.
    + intros Hbit. apply Z.eqb_neq in Hbit. rewrite Hbit. cbn [negb].
      apply BIONIC_ALIGN_multiple; [assumption|assumption|lia].
    + intros Hbit. apply Z.eqb_neq in Hbit. rewrite Hbit. cbn [negb andb].
      destruct (fill_on_free_bytes0 =? 0) eqn:E0; [lia|].
      apply Z.eqb_neq, E0.
Qed.

End Bounds.

(** ** The messages of a build *)

Lemma SetFeature_log (nm : string) (f : Feature) (v : Z) (vs : bool)
    (st : State) :
  (fst (SetFeature nm f v vs st) = true /\
   errlog (snd (SetFeature nm f v vs st)) = errlog st) \/
  (fst (SetFeature nm f v vs st) = false /\
   exists m, m <> Usage /\
     errlog (snd (SetFeature nm f v vs st)) = (errlog st ++ [m])%list).
Proof.
  unfold SetFeature.
  assert (E : errlog (set_config_flag f st) = errlog st)
    by (unfold set_config_flag; destruct (config_ f); reflexivity).
  destruct (value f) as [slot|].
  - destruct vs; [|left; split; [reflexivity|exact E]].
    destruct (v <? min_value f).
    { right. split; [reflexivity|]. eexists. split; [|cbn; rewrite E; reflexivity].
      discriminate. }
    destruct (v >? max_value f).
    { right. split; [reflexivity|]. eexists. split; [|cbn; rewrite E; reflexivity].
      discriminate. }
    left. split; [reflexivity|exact E].
  - destruct vs; [|left; split; [reflexivity|exact E]].
    right. split; [reflexivity|]. eexists. split; [|cbn; rewrite E; reflexivity].
    discriminate.
Qed.

Lemma combo_loop_log (fs : list Feature) (l : Locals) :
  forall st,
  (fst (combo_loop fs l st) = true /\
   errlog (snd (combo_loop fs l st)) = errlog st) \/
  (fst (combo_loop fs l st) = false /\
   exists m, m <> Usage /\
     errlog (snd (combo_loop fs l st)) = (errlog st ++ [m])%list).
Proof.
  induction fs as [|f rest IH]; intros st; cbn [combo_loop]; [left; auto|].
  destruct (combo_option f); [|left; auto].
  destruct (SetFeature_log (l_property l) f (l_value l) (l_value_set l) st)
    as [[H1 H2]|[H1 H2]];
    destruct (SetFeature _ f _ _ st) as [ok st1]; cbn [fst snd] in *; subst ok.
  - destruct (IH (with_config (or_options (option_ f)) st1)) as [[A B]|[A B]].
    + left. split; [exact A|]. rewrite B. exact H2.
    + right. split; [exact A|]. destruct B as (m & Hm & B).
      exists m. split; [exact Hm|]. rewrite B. cbn. rewrite H2. reflexivity.
  - right. split; [reflexivity|exact H2].
Qed.

Lemma feature_loop_log (fs : list Feature) (l : Locals) :
  valid l = true ->
  forall st,
  (valid (fst (feature_loop fs l st)) = true /\
   errlog (snd (feature_loop fs l st)) = errlog st) \/
  (valid (fst (feature_loop fs l st)) = false /\
   exists m, m <> Usage /\
     errlog (snd (feature_loop fs l st)) = (errlog st ++ [m])%list).
Proof.
  intros Hv. induction fs as [|f rest IH]; intros st; cbn [feature_loop];
    [left; auto|].
  destruct (String.eqb (l_property l) (name f)); [|apply IH].
  destruct ((option_ f =? 0) && combo_option f).
  - destruct (combo_loop_log rest l st) as [[H1 H2]|[H1 H2]];
      destruct (combo_loop rest l st) as [ok st1]; cbn [fst snd] in *; subst ok.
    + left. split; [exact Hv|exact H2].
    + right. split; [reflexivity|exact H2].
  - destruct (SetFeature_log (l_property l) f (l_value l) (l_value_set l) st)
      as [[H1 H2]|[H1 H2]];
      destruct (SetFeature _ f _ _ st) as [ok st1]; cbn [fst snd] in *; subst ok.
    + left. split; [exact Hv|exact H2].
    + right. split; [reflexivity|exact H2].
Qed.

Section Messages.
Context `{T : Target}.

Lemma Get_error_message (p p1 : PropertyParser) (n : string) (m : LogMsg) :
  Get p = GetErr p1 n m -> m <> Usage.
Proof.
  unfold Get.
  destruct (is_nul (peek (skip_space (cur_ p)))); [discriminate|].
  destruct (scan_name (skip_space (cur_ p))) as [nm c1].
  destruct (is_eq_sign (peek (skip_space_before_eq c1))); [|discriminate].
  unfold Get_value. destruct (strtol _) as [[rv endp] e].
  destruct (negb (e =? 0)); [intros E; injection E as <- <- <-; discriminate|].
  destruct (ptr_eq _ endp || _).
  - destruct (ptr_eq _ endp); intros E; injection E as <- <- <-; discriminate.
  - destruct (rv <? 0); [|discriminate].
    intros E; injection E as <- <- <-; discriminate.
Qed.

Lemma while_loop_log (fuel : nat) :
  forall (p : PropertyParser) (l : Locals) (st : State)
         (r : PropertyParser * Locals * State),
  valid l = true -> done_ p = false ->
  while_loop fuel p l st = Some r ->
  (final_valid (Some r) = true /\ errlog (snd r) = errlog st) \/
  (final_valid (Some r) = false /\
   exists m, m <> Usage /\ errlog (snd r) = (errlog st ++ [m])%list).
Proof.
  induction fuel as [|fuel IH]; intros p l st r Hv Hd E; [discriminate|].
  rewrite while_loop_S, Hv in E.
  destruct (Get p) as [p1 n ov|p1|p1 n m] eqn:EG.
  - assert (Hv0 : valid (store_token n ov l) = true)
      by (destruct ov; exact Hv).
    destruct (feature_loop_log features (store_token n ov l) Hv0 st)
      as [[H1 H2]|[H1 H2]];
      destruct (feature_loop features (store_token n ov l) st) as [l1 st1];
      cbn [fst snd] in *; rewrite H1 in E; cbn [andb] in E.
    + destruct (negb (found l1)).
      * injection E as <-. right. split; [reflexivity|].
        exists (UnknownOption (l_property l1)). split; [discriminate|].
        cbn. rewrite H2. reflexivity.
      * destruct (Get_ok_progress _ _ _ _ EG) as [_ Hd1].
        destruct (IH p1 l1 st1 r H1 (eq_trans Hd1 Hd) E) as [[A B]|[A B]].
        -- left. split; [exact A|]. rewrite B. exact H2.
        -- right. split; [exact A|]. destruct B as (m & Hm & B).
           exists m. split; [exact Hm|]. rewrite B, H2. reflexivity.
    + pose proof (while_loop_from_invalid fuel p1 l1 st1 H1) as Hf.
      rewrite E in Hf. right. split; [exact Hf|].
      destruct fuel as [|fuel]; [discriminate|].
      rewrite while_loop_invalid in E by exact H1. injection E as <-.
      exact H2.
  - injection E as <-. left. cbn. rewrite Hv, (Get_done_done _ _ EG).
    split; reflexivity.
  - injection E as <-. right. cbn.
    split; [rewrite (Get_err_done _ _ _ _ EG); exact Hd|]. exists m.
    split; [exact (Get_error_message _ _ _ _ EG)|reflexivity].
Qed.

(** X7. A build that succeeds logs nothing.  A build that fails either
    returned at once on an empty string, leaving the state as it was, or
    logged one error message and then the usage: the first error ends the
    parsing. *)
Theorem X7_one_error_then_usage (prop : string) (st : State) :
  exists ok st',
    SetFromProperties prop st = Some (ok, st') /\
    (ok = true -> errlog st' = errlog st) /\
    (ok = false ->
     (strlen prop = O /\ st' = st) \/
     exists m, m <> Usage /\ errlog st' = (errlog st ++ [m; Usage])%list).
Proof.
  unfold SetFromProperties, __system_property_get.
  destruct (Nat.eqb (strlen prop) 0) eqn:E0.
  { apply Nat.eqb_eq in E0. exists false, st.
    split; [reflexivity|]. split; [discriminate|auto]. }
  destruct (while_loop_total (S (String.length prop)) (mkParser prop false)
    (mkLocals "" 0 false false true) (with_config init_defaults st))
    as [[[p l] st1] E]; [simpl; lia|].
  rewrite E.
  destruct (while_loop_log _ (mkParser prop false)
              (mkLocals "" 0 false false true) _ _ eq_refl eq_refl E)
    as [[A B]|[A B]];
    cbn [final_valid snd] in A, B; rewrite A.
  - eexists. eexists. split; [reflexivity|].
    split; [intros _; exact B|discriminate].
  - eexists. eexists. split; [reflexivity|]. split; [discriminate|].
    intros _. right. destruct B as (m & Hm & B). exists m.
    split; [exact Hm|]. cbn. rewrite B. cbn. rewrite <- app_assoc.
    reflexivity.
Qed.

End Messages.

(** ** The table and single options *)

Section Table.
Context `{T : Target}.

Lemma lookup_own (f : Feature) :
  In f features -> exists rest, lookup_feature features (name f) = Some (f, rest).
Proof.
  intros Hin. unfold features in Hin. cbn [In] in Hin.
  repeat (destruct Hin as [<-|Hin]; [eexists; reflexivity|]).
  destruct Hin.
Qed.

Lemma table_names (f : Feature) :
  In f features -> name_chars (name f) = true /\ name f <> "".
Proof.
  intros Hin. unfold features in Hin. cbn [In] in Hin.
  repeat (destruct Hin as [<-|Hin]; [split; [reflexivity|discriminate]|]).
  destruct Hin.
Qed.

(** X8. The table is consistent.  No two entries have the same name, so
    a name selects its own entry; the names have no white space and no
    '='; the default of an entry is within its bounds; and a combo marker
    that points to no value (guard, fill) is followed by a run of entries
    that have its default and its bounds and point to a value, so that the
    marker's value is checked against the marker's own bounds. *)
Theorem X8_table_is_consistent :
  NoDup (map name features) /\
  (forall f, In f features ->
     exists rest, lookup_feature features (name f) = Some (f, rest)) /\
  (forall f, In f features -> name_chars (name f) = true /\ name f <> "") /\
  (forall f, 1 <= SIZE_MAX -> In f features ->
     min_value f <= default_value f <= max_value f) /\
  (forall m rest,
     lookup_feature features (name m) = Some (m, rest) ->
     is_marker m = true -> value m = None ->
     combo_run rest <> [] /\
     forall g, In g (combo_run rest) ->
       default_value g = default_value m /\
       min_value g = min_value m /\ max_value g = max_value m /\
       value g <> None).
Proof.
  split; [|split; [exact lookup_own|split; [exact table_names|split]]].
  - unfold features. cbn [map name].
    repeat (constructor;
            [cbn [In]; intros H;
             repeat (destruct H as [H|H]; [discriminate H|]); exact H|]).
    constructor.
  - intros f HS Hin. apply default_in_bounds; assumption.
  - intros m rest Hlk Hm Hv.
    destruct (lookup_feature_In _ _ _ _ Hlk) as [Hin _].
    unfold features in Hin. cbn [In] in Hin.
    repeat (destruct Hin as [<-|Hin];
            [first [discriminate Hv | discriminate Hm
                   | unfold is_marker in Hm; cbn [option_ combo_option] in Hm;
                     rewrite andb_false_r in Hm; discriminate Hm
                   | cbn in Hlk; injection Hlk as <-; cbn [combo_run combo_option];
                     split; [discriminate|];
                     intros g [<-|[<-|[]]]; repeat split; discriminate]|]).
    destruct Hin.
Qed.

(** X9. An option that is the first of the string and that no entry of
    the table is named after makes the build fail, with the message of the
    unknown option and then the usage, and with the [Config] changed by
    the defaults only. *)
Theorem X9_unknown_first_option (s : string) (p1 : PropertyParser)
    (n : string) (ov : Datatypes.option Z) (st : State) :
  Get (mkParser s false) = GetOk p1 n ov ->
  lookup_feature features n = None ->
  SetFromProperties s st =
  Some (false,
        error_log Usage
          (error_log (UnknownOption n) (with_config init_defaults st))).
Proof.
  intros EG Hlk.
  destruct (Get_ok_strlen s p1 n ov EG) as (c & r & -> & Hlen).
  unfold SetFromProperties, __system_property_get. rewrite Hlen.
  rewrite while_loop_S. cbn [valid]. rewrite EG.
  rewrite feature_loop_lookup, store_token_property, Hlk.
  destruct ov; reflexivity.
Qed.

End Table.

Section SingleOption.
Context `{T : Target}.

(** A name alone, up to the end of the string. *)
Lemma Get_name_end (n : string) (d : bool) :
  name_chars n = true -> n <> "" ->
  Get (mkParser n d) = GetOk (mkParser "" d) n None.
Proof.
  intros Hn Hne. destruct n as [|a n']; [congruence|].
  destruct (name_chars_head _ _ Hn) as (Ha & Hb & Hc & Hn').
  unfold Get. cbn [cur_ done_].
  replace (skip_space (String a n')) with (String a n')
    by (simpl; rewrite Ha; reflexivity).
  cbn [peek]. rewrite Hc.
  pose proof (scan_name_app (String a n') "" Hn) as E.
  rewrite append_empty_r in E. rewrite E by reflexivity.
  reflexivity.
Qed.

Lemma Get_numeral_token_end (n ds : string) (d : bool) :
  LONG_MAX <= SIZE_MAX ->
  name_chars n = true -> numeral ds = true -> decimal ds <= LONG_MAX ->
  Get (mkParser (n ++ String "=" ds) d) =
  GetOk (mkParser "" d) n (Some (decimal ds)).
Proof.
  intros HT Hn Hds Hle.
  pose proof (Get_numeral_token n ds "" d HT Hn Hds Hle (or_intror eq_refl)) as E.
  rewrite append_empty_r in E. exact E.
Qed.

Lemma normalize_options (c : Config) : options (normalize c) = options c.
Proof. destruct c. rewrite normalize_fields. reflexivity. Qed.

Lemma slot_entries (f : Feature) :
  In f features ->
  (value f = Some p_front_guard_bytes -> option_ f = FRONT_GUARD) /\
  (value f = Some p_fill_on_free_bytes ->
   min_value f = 1 /\ default_value f = SIZE_MAX).
Proof.
  intros Hin. unfold features in Hin. cbn [In] in Hin.
  repeat (destruct Hin as [<-|Hin];
          [split; intros H; first [discriminate H | split; reflexivity
                                  | reflexivity]|]).
  destruct Hin.
Qed.

(** A single option that [SetFeature] accepts, with the value [v] that
    is written. *)
Lemma single_option_applied (f : Feature) (slot : NumField) (s : string)
    (ov : Datatypes.option Z) (v : Z) (st : State) :
  FRONT_GUARD <> 0 -> REAR_GUARD <> 0 ->
  FILL_ON_ALLOC <> 0 -> FILL_ON_FREE <> 0 ->
  In f features -> value f = Some slot ->
  Get (mkParser s false) = GetOk (mkParser "" false) (name f) ov ->
  match ov with
  | Some w => w = v /\ min_value f <= v <= max_value f
  | None => v = default_value f
  end ->
  exists st',
    SetFromProperties s st = Some (true, st') /\
    errlog st' = errlog st /\
    has_bits (options (config st')) (option_ f) /\
    (forall b, config_ f = Some b -> get_bool b (config st') = true) /\
    get_num slot (config st') =
      match slot with
      | p_front_guard_bytes => BIONIC_ALIGN v MINIMUM_ALIGNMENT_BYTES
      | _ => v
      end.
Proof.
  intros H1 H2 H3 H4 Hin Hv EG Hov.
  destruct (lookup_own f Hin) as [rest Hlk].
  pose proof (slot_not_marker f slot H1 H2 H3 H4 Hin Hv) as Hm.
  destruct (slot_entries f Hin) as [Hfront Hfill].
  rewrite (one_token _ _ _ _ _ st EG (Get_end false)).
  rewrite feature_loop_lookup, store_token_property, Hlk, Hm.
  set (st0 := with_config init_defaults st).
  assert (ES : SetFeature (name f) f
                 (l_value (store_token (name f) ov (mkLocals "" 0 false false true)))
                 (l_value_set (store_token (name f) ov (mkLocals "" 0 false false true)))
                 st0 =
               (true, with_config (set_num slot v) (set_config_flag f st0))).
  { unfold SetFeature. rewrite Hv. destruct ov as [w|]; cbn [store_token l_value l_value_set].
    - destruct Hov as [-> Hb].
      replace (v <? min_value f) with false by (symmetry; apply Z.ltb_ge; lia).
      replace (v >? max_value f) with false
        by (symmetry; rewrite Z.gtb_ltb; apply Z.ltb_ge; lia).
      reflexivity.
    - rewrite Hov. reflexivity. }
  rewrite ES.
  replace (valid (set_found (store_token (name f) ov (mkLocals "" 0 false false true))))
    with true by (destruct ov; reflexivity).
  cbn [set_found found].
  eexists. split; [reflexivity|].
  assert (Hflag : errlog (set_config_flag f st0) = errlog st /\
                  forall g, get_num g (config (set_config_flag f st0)) =
                            get_num g (config st0)).
  { unfold set_config_flag. destruct (config_ f); split; try reflexivity.
    intros g. cbn [with_config config]. apply get_num_set_bool. }
  destruct Hflag as [Hlog Hnum].
  cbn [with_config config errlog]. split; [exact Hlog|].
  set (c1 := config (set_config_flag f st0)) in *.
  split; [rewrite normalize_options; destruct (set_num slot v c1);
          apply has_bits_or_r|].
  split.
  { intros b Hb. rewrite (proj2 (normalize_keeps _)).
    rewrite get_bool_or_options, get_bool_set_num.
    subst c1. unfold set_config_flag. rewrite Hb.
    cbn [with_config config]. apply get_bool_set_bool. }
  assert (Hc2 : exists c2, or_options (option_ f) (set_num slot v c1) = c2 /\
                           get_num slot c2 = v /\
                           has_bits (options c2) (option_ f)).
  { eexists. split; [reflexivity|]. split.
    - rewrite get_num_or_options. apply get_num_set_num.
    - destruct (set_num slot v c1). apply has_bits_or_r. }
  destruct Hc2 as (c2 & -> & Hget & Hbits).
  destruct c2. rewrite normalize_fields.
  destruct slot; cbn [get_num front_guard_bytes rear_guard_bytes backtrace_frames
                      fill_on_alloc_bytes fill_on_free_bytes expand_alloc_bytes
                      free_track_allocations free_track_backtrace_num_frames]
    in *; try exact Hget.
  - rewrite (Hfront Hv) in Hbits. cbn [options] in Hbits.
    rewrite (has_bits_test _ _ Hbits H1). rewrite Hget. reflexivity.
  - destruct (Hfill Hv) as [Hmin Hdef].
    destruct (negb (Z.land options0 FILL_ON_FREE =? 0)); [|exact Hget].
    cbn [andb]. destruct (fill_on_free_bytes0 =? 0) eqn:E0; [|exact Hget].
    apply Z.eqb_eq in E0. destruct ov as [w|].
    + destruct Hov as [_ Hb]. lia.
    + rewrite <- Hdef, <- Hov. reflexivity.
Qed.

(** X10. An option of the table that points to a value, given alone with
    a value within its bounds, is applied: the build succeeds and logs
    nothing, the bits of the option are set, its [bool] member, if it has
    one, is true, and its [size_t] member is the value given (for
    front_guard, the value rounded up to the alignment).  Given alone
    without a value, it is applied in the same way with its default. *)
Theorem X10_valid_option_is_applied (f : Feature) (slot : NumField)
    (ds : string) (st : State) :
  FRONT_GUARD <> 0 -> REAR_GUARD <> 0 ->
  FILL_ON_ALLOC <> 0 -> FILL_ON_FREE <> 0 ->
  LONG_MAX <= SIZE_MAX ->
  In f features -> value f = Some slot ->
  numeral ds = true -> decimal ds <= LONG_MAX ->
  min_value f <= decimal ds <= max_value f ->
  (exists st',
     SetFromProperties (name f ++ String "=" ds) st = Some (true, st') /\
     errlog st' = errlog st /\
     has_bits (options (config st')) (option_ f) /\
     (forall b, config_ f = Some b -> get_bool b (config st') = true) /\
     get_num slot (config st') =
       match slot with
       | p_front_guard_bytes => BIONIC_ALIGN (decimal ds) MINIMUM_ALIGNMENT_BYTES
       | _ => decimal ds
       end) /\
  (exists st',
     SetFromProperties (name f) st = Some (true, st') /\
     errlog st' = errlog st /\
     has_bits (options (config st')) (option_ f) /\
     (forall b, config_ f = Some b -> get_bool b (config st') = true) /\
     get_num slot (config st') =
       match slot with
       | p_front_guard_bytes =>
           BIONIC_ALIGN (default_value f) MINIMUM_ALIGNMENT_BYTES
       | _ => default_value f
       end).
Proof.
  intros H1 H2 H3 H4 HT Hin Hv Hds Hle Hb.
  destruct (table_names f Hin) as [Hn Hne].
  split.
  - apply (single_option_applied f slot _ (Some (decimal ds))); auto.
    apply Get_numeral_token_end; assumption.
  - apply (single_option_applied f slot _ None); auto.
    apply Get_name_end; assumption.
Qed.

End SingleOption.

Section Defaults.
Context `{T : Target}.

(** C5. [SetFeature] on an entry that points to a value refuses a
    supplied value below [min_value] or above [max_value], logging the
    name of the option, the bound and the value, and leaving the member
    the entry points to as it was; it writes [default_value] to that
    member when no value was supplied, and the value when one within the
    bounds was.  An option string with a token whose value is outside
    the bounds of the entry of its name makes the build fail; so does
    "backtrace=0".  An option of the table given alone, without a value,
    makes the build succeed with the default of its entry in the member
    (for front_guard, the default rounded up to the alignment). *)
Theorem C5_value_out_of_range :
  FRONT_GUARD <> 0 -> REAR_GUARD <> 0 ->
  FILL_ON_ALLOC <> 0 -> FILL_ON_FREE <> 0 ->
  (forall (nm : string) (f : Feature) (slot : NumField) (v : Z) (st : State),
     value f = Some slot ->
     (v < min_value f ->
      SetFeature nm f v true st =
      (false, error_log (ValueBelowMin nm (min_value f) v)
                (set_config_flag f st))) /\
     (min_value f <= v -> max_value f < v ->
      SetFeature nm f v true st =
      (false, error_log (ValueAboveMax nm (max_value f) v)
                (set_config_flag f st))) /\
     SetFeature nm f v false st =
     (true, with_config (set_num slot (default_value f))
              (set_config_flag f st))) /\
  (forall (nm : string) (f : Feature) (slot : NumField) (v : Z) (st : State),
     value f = Some slot ->
     (v < min_value f \/ max_value f < v ->
      fst (SetFeature nm f v true st) = false /\
      forall g, get_num g (config (snd (SetFeature nm f v true st))) =
                get_num g (config st)) /\
     (min_value f <= v <= max_value f ->
      fst (SetFeature nm f v true st) = true /\
      errlog (snd (SetFeature nm f v true st)) = errlog st /\
      get_num slot (config (snd (SetFeature nm f v true st))) = v) /\
     fst (SetFeature nm f v false st) = true /\
     errlog (snd (SetFeature nm f v false st)) = errlog st /\
     get_num slot (config (snd (SetFeature nm f v false st))) =
       default_value f /\
     forall g, g <> slot ->
       get_num g (config (snd (SetFeature nm f v false st))) =
       get_num g (config st)) /\
  (forall (s n : string) (v : Z) (f : Feature) (rest : list Feature)
          (slot : NumField) (st : State),
     token_at s n (Some v) ->
     lookup_feature features n = Some (f, rest) ->
     value f = Some slot ->
     v < min_value f \/ max_value f < v ->
     exists st', SetFromProperties s st = Some (false, st')) /\
  (forall st : State,
     exists st', SetFromProperties "backtrace=0" st = Some (false, st')) /\
  (forall st : State,
     0 <= LONG_MAX <= SIZE_MAX ->
     SetFromProperties "backtrace=0" st =
     Some (false,
           error_log Usage
             (error_log (ValueBelowMin "backtrace" 1 0)
                (with_config (set_bool p_backtrace_enabled true)
                   (with_config init_defaults st))))) /\
  (forall (f : Feature) (slot : NumField) (st : State),
     In f features -> value f = Some slot ->
     exists st',
       SetFromProperties (name f) st = Some (true, st') /\
       errlog st' = errlog st /\
       has_bits (options (config st')) (option_ f) /\
       get_num slot (config st') =
         match slot with
         | p_front_guard_bytes =>
             BIONIC_ALIGN (default_value f) MINIMUM_ALIGNMENT_BYTES
         | _ => default_value f
         end).
Proof.
  intros H1 H2 H3 H4.
  assert (Hbuild : forall (s n : string) (v : Z) (f : Feature)
          (rest : list Feature) (slot : NumField) (st : State),
     token_at s n (Some v) ->
     lookup_feature features n = Some (f, rest) ->
     value f = Some slot ->
     v < min_value f \/ max_value f < v ->
     exists st', SetFromProperties s st = Some (false, st')).
  { intros s n v f rest slot st (p & p1 & Hr & EG) Hlk Hv Hout.
    apply SetFromProperties_fails.
    apply (failure_propagates _ _ Hr).
    apply (refused_token_fails _ _ _ _ EG).
    intros l st0.
    eapply feature_loop_refuses; [exact Hlk| |].
    - apply lookup_feature_In in Hlk. destruct Hlk as [Hin _].
      exact (slot_not_marker f slot H1 H2 H3 H4 Hin Hv).
    - unfold accepts. rewrite Hv. cbn [store_token l_value l_value_set].
      apply andb_false_iff. destruct Hout as [Hlo|Hhi].
      + left. apply negb_false_iff, Z.ltb_lt, Hlo.
      + right. apply negb_false_iff. rewrite Z.gtb_ltb. apply Z.ltb_lt, Hhi. }
  assert (Hflag : forall (f : Feature) (st : State),
            errlog (set_config_flag f st) = errlog st /\
            forall g, get_num g (config (set_config_flag f st)) =
                      get_num g (config st)).
  { intros f st. unfold set_config_flag.
    destruct (config_ f); split; try reflexivity.
    intros g. cbn [with_config config]. apply get_num_set_bool. }
  split; [|split; [|split; [exact Hbuild|split; [|split]]]].
  - intros nm f slot v st Hv. unfold SetFeature. rewrite Hv.
    split; [|split; [|reflexivity]].
    + intros Hlo. apply Z.ltb_lt in Hlo. rewrite Hlo. reflexivity.
    + intros Hlo Hhi. apply Z.ltb_ge in Hlo. rewrite Hlo.
      rewrite Z.gtb_ltb. apply Z.ltb_lt in Hhi. rewrite Hhi. reflexivity.
  - intros nm f slot v st Hv.
    destruct (Hflag f st) as [Hlog Hnum].
    unfold SetFeature. rewrite Hv.
    split; [|split].
    + intros Hout.
      destruct (v <? min_value f) eqn:Elo;
        [cbn [fst snd error_log config]; split; [reflexivity|exact Hnum]|].
      destruct (v >? max_value f) eqn:Ehi;
        [cbn [fst snd error_log config]; split; [reflexivity|exact Hnum]|].
      apply Z.ltb_ge in Elo. rewrite Z.gtb_ltb in Ehi. apply Z.ltb_ge in Ehi.
      lia.
    + intros Hin.
      replace (v <? min_value f) with false by (symmetry; apply Z.ltb_ge; lia).
      replace (v >? max_value f) with false
        by (symmetry; rewrite Z.gtb_ltb; apply Z.ltb_ge; lia).
      cbn [fst snd with_config config errlog].
      split; [reflexivity|]. split; [exact Hlog|]. apply get_num_set_num.
    + cbn [fst snd with_config config errlog].
      split; [reflexivity|]. split; [exact Hlog|].
      split; [apply get_num_set_num|].
      intros g Hg. rewrite get_num_set_num_other by exact Hg. apply Hnum.
  - intros st.
    pose proof (Get_name_eq "" "backtrace" "" "0" false eq_refl eq_refl eq_refl) as E.
    cbn [append] in E.
    destruct (Get_value_cases false "backtrace" "0")
      as [(p & m & EG)|(rv & endp & Es & EG)]; rewrite <- E in EG.
    + apply SetFromProperties_fails.
      apply (Get_error_fails (mkParser "backtrace=0" false) _ _ _ eq_refl EG).
    + assert (Hrv : rv = 0).
      { pose proof (strtol_numeral "0" "" eq_refl eq_refl) as E1.
        cbn [append] in E1. rewrite E1 in Es. unfold strtol_clamp in Es.
        destruct (decimal "0" >? LONG_MAX); [discriminate|].
        destruct (decimal "0" <? LONG_MIN); [discriminate|].
        injection Es as <- _. reflexivity. }
      subst rv. change (to_size_t 0) with 0 in EG.
      eapply (Hbuild "backtrace=0" "backtrace" 0).
      * exists (mkParser "backtrace=0" false), (mkParser endp false).
        split; [constructor|exact EG].
      * reflexivity.
      * reflexivity.
      * left. reflexivity.
  - intros st HL.
    assert (EG : Get (mkParser "backtrace=0" false) =
                 GetOk (mkParser "" false) "backtrace" (Some 0)).
    { apply (Get_numeral_token "backtrace" "0" "" false);
        [lia|reflexivity|reflexivity|cbn; lia|right; reflexivity]. }
    rewrite (one_token _ _ _ _ _ st EG (Get_end false)).
    rewrite feature_loop_lookup.
    cbn [store_token l_property l_value l_value_set found valid].
    destruct (lookup_flag_option p_backtrace_enabled) as [rest Hlk].
    cbn [flag_option] in Hlk. rewrite Hlk.
    unfold is_marker. cbn [option_ combo_option]. rewrite andb_false_r.
    reflexivity.
  - intros f slot st Hin Hv.
    destruct (table_names f Hin) as [Hn Hne].
    destruct (single_option_applied f slot (name f) None (default_value f) st
                H1 H2 H3 H4 Hin Hv (Get_name_end (name f) false Hn Hne) eq_refl)
      as (st' & E & Hlog & Hbits & _ & Hnum).
    exists st'. auto.
Qed.

End Defaults.

Lemma C5_witness :
  (forall st, @SetFeature "backtrace"
     (mkFeature "backtrace" 16 1 256 132 (Some p_backtrace_frames)
        (Some p_backtrace_enabled) false) 257 true st =
     (false, error_log (ValueAboveMax "backtrace" 256 257)
               (with_config (set_bool p_backtrace_enabled true) st))) /\
  (forall v st, backtrace_frames (config (snd (@SetFeature "backtrace"
     (mkFeature "backtrace" 16 1 256 132 (Some p_backtrace_frames)
        (Some p_backtrace_enabled) false) v false st))) = 16) /\
  (exists st', @SetFromProperties lp64 "backtrace=0" start = Some (false, st')) /\
  (exists st',
     @SetFromProperties lp64 "backtrace" start = Some (true, st') /\
     errlog st' = [] /\
     backtrace_frames (config st') = 16) /\
  (exists st',
     @SetFromProperties lp64 "expand_alloc" start = Some (true, st') /\
     errlog st' = [] /\
     expand_alloc_bytes (config st') = 16).
Proof.
  destruct (@C5_value_out_of_range lp64) as (H1 & H2 & _ & H3 & _ & H5);
    try discriminate.
  split; [|split; [|split; [|split]]].
  - intros st.
    apply (H1 "backtrace"
             (mkFeature "backtrace" 16 1 256 132 (Some p_backtrace_frames)
                (Some p_backtrace_enabled) false)
             p_backtrace_frames 257 st eq_refl); cbn; lia.
  - intros v st.
    exact (proj1 (proj2 (proj2 (proj2 (proj2
             (H2 "backtrace"
                (mkFeature "backtrace" 16 1 256 132 (Some p_backtrace_frames)
                   (Some p_backtrace_enabled) false)
                p_backtrace_frames v st eq_refl)))))).
  - apply H3.
  - destruct (H5 (mkFeature "backtrace" 16 1 256 (Z.lor 4 128)
                    (Some p_backtrace_frames) (Some p_backtrace_enabled) false)
                p_backtrace_frames start)
      as (st' & E & Hl & _ & Hn).
    + right. right. right. left. reflexivity.
    + reflexivity.
    + exists st'. split; [exact E|]. split; [exact Hl|exact Hn].
  - destruct (H5 (mkFeature "expand_alloc" 16 1 16384 32
                    (Some p_expand_alloc_bytes) None false)
                p_expand_alloc_bytes start)
      as (st' & E & Hl & _ & Hn).
    + do 8 right. left. reflexivity.
    + reflexivity.
    + exists st'. split; [exact E|]. split; [exact Hl|exact Hn].
Defined.

Section AroundEquals.
Context `{T : Target}.

(** White space before a number: strtol steps over it, and where it
    converts nothing it hands back the pointer it was given. *)
Lemma strtol_leading_space (ws V : string) :
  all_space ws = true ->
  (exists v endp e,
     strtol (ws ++ V) = (v, endp, e) /\ strtol V = (v, endp, e) /\
     ptr_eq (ws ++ V) endp = false /\ ptr_eq V endp = false) \/
  (strtol (ws ++ V) = (0, ws ++ V, 0) /\ strtol V = (0, V, 0)).
Proof.
  intros Hws. unfold strtol.
  rewrite (skip_space_app_space ws V Hws).
  pose proof (skip_space_length V) as Hs.
  set (p0 := skip_space V) in *.
  assert (Hp : forall neg p, (neg, p) =
      (if Ascii.eqb (peek p0) "-" then (true, advance p0)
       else if Ascii.eqb (peek p0) "+" then (false, advance p0)
       else (false, p0)) -> (String.length p <= String.length V)%nat).
  { intros neg p E. pose proof (advance_length p0).
    destruct (Ascii.eqb (peek p0) "-"); [inversion E; lia|].
    destruct (Ascii.eqb (peek p0) "+"); inversion E; lia. }
  destruct (if Ascii.eqb (peek p0) "-" then (true, advance p0)
       else if Ascii.eqb (peek p0) "+" then (false, advance p0)
       else (false, p0)) as [neg p] eqn:E.
  specialize (Hp neg p eq_refl).
  destruct (isdigit (peek p)) eqn:Hd; [|right; split; reflexivity].
  left.
  destruct (strtol_digits p 0) as [n endp] eqn:Ed.
  assert (Hlt : (String.length endp < String.length V)%nat).
  { destruct p as [|c r]; [discriminate Hd|].
    cbn [peek] in Hd. cbn [strtol_digits] in Ed. rewrite Hd in Ed.
    apply strtol_digits_length in Ed. simpl in Hp. lia. }
  assert (Hneq : ptr_eq (ws ++ V) endp = false /\ ptr_eq V endp = false).
  { unfold ptr_eq. rewrite length_app.
    split; apply Nat.eqb_neq; lia. }
  destruct ((if neg then - n else n) >? LONG_MAX);
    [do 3 eexists; repeat split; apply Hneq|].
  destruct ((if neg then - n else n) <? LONG_MIN);
    do 3 eexists; repeat split; apply Hneq.
Qed.

(** The same for [Get_value]: only the pointer left behind by an error,
    which nothing reads, differs. *)
Lemma Get_value_leading_space (d : bool) (n ws V : string) :
  all_space ws = true ->
  match Get_value d n V with
  | GetOk p1 n1 ov => Get_value d n (ws ++ V) = GetOk p1 n1 ov
  | GetDone _ => True
  | GetErr p1 n1 m =>
      exists p2, Get_value d n (ws ++ V) = GetErr p2 n1 m /\ done_ p2 = done_ p1
  end.
Proof.
  intros Hws. unfold Get_value.
  destruct (strtol_leading_space ws V Hws)
    as [(v & endp & e & -> & -> & -> & ->)|[-> ->]].
  - destruct (negb (e =? 0)); [eexists; split; reflexivity|].
    cbn [orb].
    destruct (negb (isspace (peek endp)) && negb (is_nul (peek endp)));
      [eexists; split; reflexivity|].
    destruct (v <? 0); [eexists; split; reflexivity|reflexivity].
  - change (negb (0 =? 0)) with false. cbv iota.
    unfold ptr_eq. rewrite !Nat.eqb_refl. cbn [orb].
    eexists; split; reflexivity.
Qed.

Lemma strlen_name_app (n r : string) :
  name_chars n = true -> n <> "" -> Nat.eqb (strlen (n ++ r)) 0 = false.
Proof.
  intros Hn Hne. destruct n as [|a n]; [congruence|].
  destruct (name_chars_head _ _ Hn) as (_ & _ & Hc & _).
  cbn [append strlen]. rewrite Hc. reflexivity.
Qed.

(** X11. White space around the '=' of the first option is of no
    account: with white space [ws] between the name and the '=' and
    white space [ws'] between the '=' and the rest [V] of the string, the
    build returns what it returns without them, whatever [V] is (a value
    that is accepted or refused, with or without further options). *)
Theorem X11_white_space_around_equals (n ws ws' V : string) (st : State) :
  name_chars n = true -> n <> "" ->
  all_space ws = true -> all_space ws' = true ->
  SetFromProperties (n ++ ws ++ String "=" (ws' ++ V)) st =
  SetFromProperties (n ++ String "=" V) st.
Proof.
  intros Hn Hne Hws Hws'.
  unfold SetFromProperties, __system_property_get.
  rewrite !strlen_name_app by assumption.
  set (l0 := mkLocals "" 0 false false true).
  set (st0 := with_config init_defaults st).
  pose proof (Get_name_eq "" n ws (ws' ++ V) false eq_refl Hn Hws) as EA.
  pose proof (Get_name_eq "" n "" V false eq_refl Hn eq_refl) as EB.
  cbn [append] in EA, EB.
  rewrite !while_loop_S. cbn [valid l0]. subst l0. cbn [valid].
  rewrite EA, EB.
  pose proof (Get_value_leading_space false n ws' V Hws') as HG.
  pose proof (Get_ok_progress (mkParser (n ++ String "=" V) false)) as Hprog.
  rewrite EB in Hprog.
  destruct (Get_value false n V) as [p1 n1 ov|p1|p1 n1 m] eqn:EV.
  - rewrite HG.
    destruct (feature_loop features
                (store_token n1 ov (mkLocals "" 0 false false true)) st0)
      as [l1 st1].
    destruct (valid l1 && negb (found l1)); [reflexivity|].
    destruct (Hprog p1 n1 ov eq_refl) as [Hlen _]. cbn [cur_] in Hlen.
    destruct (while_loop_total (String.length (n ++ String "=" V)) p1 l1 st1 Hlen)
      as [r E].
    rewrite E.
    replace (String.length (n ++ ws ++ String "=" (ws' ++ V)))
      with (String.length (n ++ String "=" V) +
            (String.length ws + String.length ws'))%nat
      by (rewrite !length_app; cbn [String.length]; rewrite !length_app; lia).
    rewrite (while_loop_more_fuel _ _ _ _ _ _ E). reflexivity.
  - exfalso. exact (Get_value_not_done _ _ _ _ EV).
  - destruct HG as (p2 & -> & Hd). cbn [valid andb]. rewrite Hd. reflexivity.
Qed.

End AroundEquals.

Section RoundTrip.
Context `{T : Target}.

Lemma parses_same_Get (p q : PropertyParser)
    (ts : list (string * Datatypes.option Z)) :
  Get p = Get q -> parses p ts -> parses q ts.
Proof.
  intros E H. destruct H as [p p1 H|p p1 n ov ts H Hts].
  - rewrite E in H. exact (parses_done q p1 H).
  - rewrite E in H. exact (parses_token q p1 n ov ts H Hts).
Qed.

Lemma parses_functional (p : PropertyParser)
    (ts ts' : list (string * Datatypes.option Z)) :
  parses p ts -> parses p ts' -> ts = ts'.
Proof.
  intros H. revert ts'.
  induction H as [p p1 H|p p1 n ov ts H Hts IH]; intros ts' H'.
  - destruct H' as [q q1 H'|q q1 n' ov' ts' H' _]; [reflexivity|congruence].
  - destruct H' as [q q1 H'|q q1 n' ov' ts' H' Hts']; [congruence|].
    rewrite H in H'. injection H' as <- <- <-.
    f_equal. apply IH, Hts'.
Qed.

(** A name that is followed by a space and the next name. *)
Lemma Get_name_space (n r : string) (d : bool) :
  name_chars n = true -> n <> "" ->
  isspace (peek r) = false -> is_eq_sign (peek r) = false ->
  Get (mkParser (n ++ String " " r) d) = GetOk (mkParser r d) n None.
Proof.
  intros Hn Hne Hr Hr'. destruct n as [|a n']; [congruence|].
  destruct (name_chars_head _ _ Hn) as (Ha & Hb & Hc & Hn').
  unfold Get. cbn [cur_ done_].
  replace (skip_space (String a n' ++ String " " r))
    with (String a n' ++ String " " r)
    by (simpl; rewrite Ha; reflexivity).
  cbn [append peek]. rewrite Hc.
  change (String a (n' ++ String " " r)) with (String a n' ++ String " " r).
  rewrite scan_name_app by (assumption || reflexivity).
  pose proof (skip_space_before_eq_app " " r eq_refl Hr) as E.
  cbn [append] in E. rewrite E, Hr'. reflexivity.
Qed.

Lemma option_text_head (t : string * Datatypes.option string) (r : string) :
  well_written t ->
  isspace (peek (option_text t ++ r)) = false /\
  is_eq_sign (peek (option_text t ++ r)) = false.
Proof.
  destruct t as [n o]. intros (Hne & Hn & _). cbn [fst] in *.
  destruct n as [|a n]; [congruence|].
  destruct (name_chars_head _ _ Hn) as (Ha & Hb & _).
  destruct o; cbn [option_text append peek]; auto.
Qed.

Lemma render_head (t : string * Datatypes.option string)
    (rest : list (string * Datatypes.option string)) :
  well_written t ->
  isspace (peek (render (t :: rest))) = false /\
  is_eq_sign (peek (render (t :: rest))) = false.
Proof.
  intros Ht. destruct rest as [|t' rest].
  - cbn [render]. rewrite <- (append_empty_r (option_text t)).
    apply option_text_head, Ht.
  - change (render (t :: t' :: rest))
      with (option_text t ++ String " " (render (t' :: rest))).
    apply option_text_head, Ht.
Qed.

Lemma append_assoc (a b c : string) : (a ++ b) ++ c = a ++ (b ++ c).
Proof. induction a as [|x a IH]; simpl; [reflexivity|]. now rewrite IH. Qed.

Lemma parses_render (toks : list (string * Datatypes.option string))
    (d : bool) :
  LONG_MAX <= SIZE_MAX ->
  Forall well_written toks ->
  parses (mkParser (render toks) d) (map token_of toks).
Proof.
  intros HT Hall.
  induction Hall as [|t rest Ht Hrest IH].
  - exact (parses_done _ _ (Get_end d)).
  - destruct rest as [|t' rest'].
    + destruct t as [n [ds|]]; destruct Ht as (Hne & Hn & Hv);
        cbn [fst snd] in *; cbn [render option_text map token_of fst snd option_map].
      * destruct Hv as [Hds Hle].
        apply (parses_token _ (mkParser "" d)).
        -- apply Get_numeral_token_end; assumption.
        -- exact (parses_done _ _ (Get_end d)).
      * apply (parses_token _ (mkParser "" d)).
        -- apply Get_name_end; assumption.
        -- exact (parses_done _ _ (Get_end d)).
    + pose proof (render_head t' rest' (Forall_inv Hrest)) as [Hs He].
      change (render (t :: t' :: rest'))
        with (option_text t ++ String " " (render (t' :: rest'))).
      change (map token_of (t :: t' :: rest'))
        with (token_of t :: map token_of (t' :: rest')).
      destruct t as [n [ds|]]; destruct Ht as (Hne & Hn & Hv);
        cbn [fst snd] in *; cbn [option_text token_of fst snd option_map].
      * destruct Hv as [Hds Hle].
        apply (parses_token _ (mkParser (String " " (render (t' :: rest'))) d)).
        -- rewrite append_assoc. cbn [append].
           apply Get_numeral_token; try assumption.
           left. reflexivity.
        -- apply (parses_same_Get (mkParser (render (t' :: rest')) d));
             [|exact IH].
           symmetry.
           exact (Get_leading_space " " (render (t' :: rest')) d eq_refl).
      * apply (parses_token _ (mkParser (render (t' :: rest')) d)).
        -- apply Get_name_space; assumption.
        -- exact IH.
Qed.

(** X12. Writing and reading back: a list of options, each a name or a
    name, '=' and a decimal numeral of a number that is at most LONG_MAX,
    written out with one space between them, is read by repeated calls of
    [Get] as exactly those names and numbers, in that order, up to the
    call that returns false with [done_] set. *)
Theorem X12_written_options_are_read_back
    (toks : list (string * Datatypes.option string)) (d : bool) :
  LONG_MAX <= SIZE_MAX ->
  Forall well_written toks ->
  parses (mkParser (render toks) d) (map token_of toks) /\
  (forall ts, parses (mkParser (render toks) d) ts -> ts = map token_of toks).
Proof.
  intros HT Hall.
  pose proof (parses_render toks d HT Hall) as H.
  split; [exact H|].
  intros ts Hts. exact (parses_functional _ _ _ Hts H).
Qed.

End RoundTrip.

Section Combos.
Context `{T : Target}.

(** The loop over a string that [Get] reads without an error is the
    loop over its options. *)
Lemma while_loop_tokens (p : PropertyParser)
    (ts : list (string * Datatypes.option Z)) :
  parses p ts ->
  forall (fuel : nat) (l : Locals) (st : State),
  valid l = true -> (String.length (cur_ p) < fuel)%nat ->
  exists p',
    while_loop fuel p l st =
      Some (p', fst (run_tokens ts l st), snd (run_tokens ts l st)) /\
    (valid (fst (run_tokens ts l st)) = true -> done_ p' = true).
Proof.
  induction 1 as [p p1 E|p p1 n ov ts E Hts IH]; intros fuel l st Hv Hlen.
  - destruct fuel as [|fuel]; [lia|].
    rewrite while_loop_S, Hv, E. exists p1. split; [reflexivity|].
    intros _. exact (Get_done_done _ _ E).
  - destruct fuel as [|fuel]; [lia|].
    rewrite while_loop_S, Hv, E. cbn [run_tokens].
    destruct (Get_ok_progress _ _ _ _ E) as [Hp _].
    destruct (feature_loop features (store_token n ov l) st) as [l1 st1].
    destruct (valid l1 && negb (found l1)).
    + exists p1. split; [reflexivity|]. cbn [fst set_invalid valid]. discriminate.
    + destruct (valid l1) eqn:Hv1.
      * apply IH; [exact Hv1|lia].
      * destruct fuel as [|fuel]; [lia|].
        rewrite while_loop_invalid by exact Hv1.
        exists p1. split; [reflexivity|]. cbn [fst]. congruence.
Qed.

Lemma SetFromProperties_tokens (s : string)
    (ts : list (string * Datatypes.option Z)) (st : State) :
  parses (mkParser s false) ts -> ts <> [] ->
  SetFromProperties s st =
  let '(l, st1) :=
    run_tokens ts (mkLocals "" 0 false false true)
      (with_config init_defaults st) in
  if valid l then Some (true, with_config normalize st1)
  else Some (false, error_log Usage st1).
Proof.
  intros Hp Hne.
  assert (Hlen : Nat.eqb (strlen s) 0 = false).
  { inversion Hp as [p p1 E|p p1 n ov ts' E Hts]; subst; [congruence|].
    destruct (Get_ok_strlen _ _ _ _ E) as (c & r & _ & H). exact H. }
  unfold SetFromProperties, __system_property_get. rewrite Hlen.
  destruct (while_loop_tokens _ _ Hp (S (String.length s))
              (mkLocals "" 0 false false true)
              (with_config init_defaults st) eq_refl)
    as (p' & -> & Hd); [cbn [cur_]; lia|].
  destruct (run_tokens ts _ _) as [l st1]. cbn [fst snd] in *.
  destruct (valid l); [rewrite Hd by reflexivity|]; reflexivity.
Qed.

Lemma well_written_each (o : Datatypes.option string) (fs : list Feature) :
  match o with
  | Some ds => numeral ds = true /\ decimal ds <= LONG_MAX
  | None => True
  end ->
  (forall f, In f fs -> In f features) ->
  Forall well_written (each_with o fs).
Proof.
  intros Ho Hin. unfold each_with. apply Forall_forall.
  intros t Ht. apply in_map_iff in Ht. destruct Ht as (g & <- & Hg).
  destruct (table_names g (Hin g Hg)) as [Hn Hne].
  unfold well_written. cbn [fst snd]. auto.
Qed.

(** X13. A combo option is its parts: for each marker of the table
    (guard, fill), the marker given alone, with or without a value,
    returns what the options of its combo run (front_guard and
    rear_guard, fill_on_alloc and fill_on_free) return when they are
    given one after the other with that same value, and leaves the same
    [Config]; when the build succeeds it leaves the same log too (a
    refused value is reported under the name that was written). *)
Theorem X13_combo_option_is_its_parts (m : Feature) (rest : list Feature)
    (o : Datatypes.option string) (st : State) :
  FRONT_GUARD <> 0 -> REAR_GUARD <> 0 ->
  FILL_ON_ALLOC <> 0 -> FILL_ON_FREE <> 0 ->
  LONG_MAX <= SIZE_MAX ->
  lookup_feature features (name m) = Some (m, rest) ->
  is_marker m = true ->
  match o with
  | Some ds => numeral ds = true /\ decimal ds <= LONG_MAX
  | None => True
  end ->
  exists ok st1 st2,
    SetFromProperties (option_text (name m, o)) st = Some (ok, st1) /\
    SetFromProperties (render (each_with o (combo_run rest))) st =
      Some (ok, st2) /\
    config st1 = config st2 /\
    (ok = true -> st1 = st2).
Proof.
  intros H1 H2 H3 H4 HT Hlk Hm Ho.
  destruct (lookup_feature_In _ _ _ _ Hlk) as [Hin _].
  assert (HL : parses (mkParser (option_text (name m, o)) false)
                 (map token_of [(name m, o)])).
  { apply (parses_render [(name m, o)] false HT).
    apply (well_written_each o [m] Ho).
    intros f [<-|[]]. exact Hin. }
  assert (Hsub : forall f, In f (combo_run rest) -> In f features).
  { assert (Hrest : forall f, In f rest -> In f features).
    { clear -Hlk. revert Hlk. generalize (name m). generalize features.
      induction l as [|g fs IH]; cbn [lookup_feature]; [discriminate|].
      intros n. destruct (String.eqb n (name g)).
      - intros E; injection E as _ <-. intros f Hf. right. exact Hf.
      - intros E f Hf. right. exact (IH n E f Hf). }
    intros f Hf. apply Hrest. clear -Hf.
    induction rest as [|g fs IH]; [destruct Hf|].
    cbn [combo_run] in Hf. destruct (combo_option g); [|destruct Hf].
    destruct Hf as [<-|Hf]; [left; reflexivity|right; exact (IH Hf)]. }
  pose proof (parses_render (each_with o (combo_run rest)) false HT
                (well_written_each o _ Ho Hsub)) as HR.
  assert (HF : (FRONT_GUARD =? 0) = false) by (apply Z.eqb_neq; exact H1).
  assert (HRg : (REAR_GUARD =? 0) = false) by (apply Z.eqb_neq; exact H2).
  assert (HA : (FILL_ON_ALLOC =? 0) = false) by (apply Z.eqb_neq; exact H3).
  assert (HFr : (FILL_ON_FREE =? 0) = false) by (apply Z.eqb_neq; exact H4).
  unfold features in Hin. cbn [In] in Hin.
  repeat (destruct Hin as [<-|Hin];
    [first
       [ exfalso; unfold is_marker in Hm; cbn [option_ combo_option] in Hm;
         first [rewrite HF in Hm | rewrite HRg in Hm | rewrite HA in Hm
               | rewrite HFr in Hm | rewrite andb_false_r in Hm];
         discriminate Hm
       | idtac ]|]);
    [| |destruct Hin].
  - cbn [name] in *.
    change (lookup_feature features "guard")
      with (Some (mkFeature "guard" 32 1 16384 0 None None true, tl features))
      in Hlk.
    injection Hlk as <-.
    cbn [tl combo_run combo_option each_with map name] in HR |- *.
    rewrite (SetFromProperties_tokens _ _ st HL) by discriminate.
    rewrite (SetFromProperties_tokens _ _ st HR) by discriminate.
    cbn [map token_of fst snd run_tokens].
    rewrite !feature_loop_lookup.
    cbn [store_token l_property].
    destruct o as [ds|]; cbn [option_map store_token l_property l_value l_value_set found valid].
    all: change (lookup_feature features "guard")
        with (Some (mkFeature "guard" 32 1 16384 0 None None true, tl features)).
    all: change (lookup_feature features "front_guard")
        with (Some (mkFeature "front_guard" 32 1 16384 FRONT_GUARD
                      (Some p_front_guard_bytes) None true, tl (tl features))).
    all: cbv beta iota; unfold is_marker; cbn [option_ combo_option];
      rewrite HF; cbn [andb Z.eqb]; cbv beta iota;
      match goal with
      | |- context [combo_loop ?fs _ _] =>
          let r := eval cbv [features tl] in fs in change fs with r
      end;
      cbn [combo_loop combo_option l_property l_value l_value_set];
      unfold SetFeature, set_config_flag;
      cbn [value config_ min_value max_value default_value option_].
    + destruct (decimal ds <? 1) eqn:E1;
        [cbn [set_invalid valid found andb negb];
         do 3 eexists; repeat split; discriminate|].
      destruct (decimal ds >? 16384) eqn:E2;
        [cbn [set_invalid valid found andb negb];
         do 3 eexists; repeat split; discriminate|].
      cbn [set_found valid found andb negb l_property l_value l_value_set].
      rewrite feature_loop_lookup. cbn [l_property].
      change (lookup_feature features "rear_guard")
        with (Some (mkFeature "rear_guard" 32 1 16384 REAR_GUARD
                      (Some p_rear_guard_bytes) None true,
                    tl (tl (tl features)))).
      cbv beta iota. unfold is_marker. cbn [option_ combo_option].
      rewrite HRg. cbn [andb]. cbv beta iota.
      unfold SetFeature, set_config_flag.
      cbn [value config_ min_value max_value default_value option_
           l_value l_value_set].
      rewrite E1, E2.
      cbn [set_found valid found andb negb run_tokens].
      do 3 eexists; repeat split.
    + cbn [set_found valid found andb negb l_property l_value l_value_set].
      rewrite feature_loop_lookup. cbn [l_property].
      change (lookup_feature features "rear_guard")
        with (Some (mkFeature "rear_guard" 32 1 16384 REAR_GUARD
                      (Some p_rear_guard_bytes) None true,
                    tl (tl (tl features)))).
      cbv beta iota. unfold is_marker. cbn [option_ combo_option].
      rewrite HRg. cbn [andb]. cbv beta iota.
      unfold SetFeature, set_config_flag.
      cbn [value config_ min_value max_value default_value option_
           l_value l_value_set].
      cbn [set_found valid found andb negb run_tokens].
      do 3 eexists; repeat split.
  - cbn [name] in *.
    change (lookup_feature features "fill")
      with (Some (mkFeature "fill" SIZE_MAX 1 SIZE_MAX 0 None None true,
                  tl (tl (tl (tl (tl (tl features)))))))
      in Hlk.
    injection Hlk as <-.
    cbn [tl combo_run combo_option each_with map name] in HR |- *.
    rewrite (SetFromProperties_tokens _ _ st HL) by discriminate.
    rewrite (SetFromProperties_tokens _ _ st HR) by discriminate.
    cbn [map token_of fst snd run_tokens].
    rewrite !feature_loop_lookup.
    cbn [store_token l_property].
    destruct o as [ds|]; cbn [option_map store_token l_property l_value l_value_set found valid].
    all: change (lookup_feature features "fill")
        with (Some (mkFeature "fill" SIZE_MAX 1 SIZE_MAX 0 None None true,
                    tl (tl (tl (tl (tl (tl features))))))).
    all: change (lookup_feature features "fill_on_alloc")
        with (Some (mkFeature "fill_on_alloc" SIZE_MAX 1 SIZE_MAX FILL_ON_ALLOC
                      (Some p_fill_on_alloc_bytes) None true,
                    tl (tl (tl (tl (tl (tl (tl features)))))))).
    all: cbv beta iota; unfold is_marker; cbn [option_ combo_option];
      rewrite HA; cbn [andb Z.eqb]; cbv beta iota;
      match goal with
      | |- context [combo_loop ?fs _ _] =>
          let r := eval cbv [features tl] in fs in change fs with r
      end;
      cbn [combo_loop combo_option l_property l_value l_value_set];
      unfold SetFeature, set_config_flag;
      cbn [value config_ min_value max_value default_value option_].
    + destruct (decimal ds <? 1) eqn:E1;
        [cbn [set_invalid valid found andb negb];
         do 3 eexists; repeat split; discriminate|].
      destruct (decimal ds >? SIZE_MAX) eqn:E2;
        [cbn [set_invalid valid found andb negb];
         do 3 eexists; repeat split; discriminate|].
      cbn [set_found valid found andb negb l_property l_value l_value_set].
      rewrite feature_loop_lookup. cbn [l_property].
      change (lookup_feature features "fill_on_free")
        with (Some (mkFeature "fill_on_free" SIZE_MAX 1 SIZE_MAX FILL_ON_FREE
                      (Some p_fill_on_free_bytes) None true,
                    tl (tl (tl (tl (tl (tl (tl (tl features))))))))).
      cbv beta iota. unfold is_marker. cbn [option_ combo_option].
      rewrite HFr. cbn [andb]. cbv beta iota.
      unfold SetFeature, set_config_flag.
      cbn [value config_ min_value max_value default_value option_
           l_value l_value_set].
      rewrite E1, E2.
      cbn [set_found valid found andb negb run_tokens].
      do 3 eexists; repeat split.
    + cbn [set_found valid found andb negb l_property l_value l_value_set].
      rewrite feature_loop_lookup. cbn [l_property].
      change (lookup_feature features "fill_on_free")
        with (Some (mkFeature "fill_on_free" SIZE_MAX 1 SIZE_MAX FILL_ON_FREE
                      (Some p_fill_on_free_bytes) None true,
                    tl (tl (tl (tl (tl (tl (tl (tl features))))))))).
      cbv beta iota. unfold is_marker. cbn [option_ combo_option].
      rewrite HFr. cbn [andb]. cbv beta iota.
      unfold SetFeature, set_config_flag.
      cbn [value config_ min_value max_value default_value option_
           l_value l_value_set].
      cbn [set_found valid found andb negb run_tokens].
      do 3 eexists; repeat split.
Qed.

End Combos.

Section FixedMembers.
Context `{T : Target}.

(** X14. No option reaches the signal or the patterns: after a build on
    an option string that is not empty, whatever the options and whether
    it succeeds or not, backtrace_signal is SIGRTMIN + 10 and the fill and
    guard patterns are 0xeb, 0xef, 0xaa and 0xbb, whatever they were
    before. *)
Theorem X14_signal_and_patterns_are_fixed (prop : string) (st : State) :
  strlen prop <> O ->
  exists ok st',
    SetFromProperties prop st = Some (ok, st') /\
    backtrace_signal (config st') = SIGRTMIN + 10 /\
    fill_alloc_value (config st') = 235 /\
    fill_free_value (config st') = 239 /\
    front_guard_value (config st') = 170 /\
    rear_guard_value (config st') = 187.
Proof.
  intros Hs. unfold SetFromProperties, __system_property_get.
  destruct (Nat.eqb (strlen prop) 0) eqn:E0;
    [apply Nat.eqb_eq in E0; congruence|].
  set (Q := fun c : Config =>
              backtrace_signal c = SIGRTMIN + 10 /\
              fill_alloc_value c = 235 /\ fill_free_value c = 239 /\
              front_guard_value c = 170 /\ rear_guard_value c = 187).
  destruct (while_loop_total (S (String.length prop)) (mkParser prop false)
              (mkLocals "" 0 false false true) (with_config init_defaults st))
    as [[[p l] st1] E]; [cbn [cur_]; lia|].
  rewrite E.
  assert (HQ : Q (config st1)).
  { refine (while_loop_keeps Q _ _ _ _ (p, l, st1) _ _ E).
    - intros q q1 n ov st0 _ _ l0 HQ0.
      apply feature_loop_inv; [| |exact HQ0].
      + intros m c H. destruct c. exact H.
      + intros f nm v vs st2 _ H. apply SetFeature_keeps; [|exact H].
        split.
        * intros b c _ Hc. destruct c, b; exact Hc.
        * intros slot w c _ Hc. destruct c, slot; exact Hc.
    - cbn [with_config config]. destruct (config st). unfold Q.
      cbn [init_defaults backtrace_signal fill_alloc_value fill_free_value
           front_guard_value rear_guard_value].
      repeat split. }
  destruct (valid l && done_ p); eexists; eexists; (split; [reflexivity|]).
  - cbn [with_config config]. destruct (config st1).
    rewrite normalize_fields. exact HQ.
  - exact HQ.
Qed.

End FixedMembers.

Section Repeated.
Context `{T : Target}.

Lemma set_bool_twice (b : BoolField) (c : Config) :
  set_bool b true (set_bool b true c) = set_bool b true c.
Proof. destruct c, b; reflexivity. Qed.

(** What an entry that points to a value writes for an option that
    [SetFeature] accepts. *)
Lemma feature_loop_accepted (f : Feature) (slot : NumField)
    (o : Datatypes.option string) (l : Locals) (st : State) :
  FRONT_GUARD <> 0 -> REAR_GUARD <> 0 ->
  FILL_ON_ALLOC <> 0 -> FILL_ON_FREE <> 0 ->
  In f features -> value f = Some slot ->
  match o with
  | Some ds => min_value f <= decimal ds <= max_value f
  | None => True
  end ->
  feature_loop features (store_token (name f) (option_map decimal o) l) st =
  (set_found (store_token (name f) (option_map decimal o) l),
   with_config (or_options (option_ f))
     (with_config
        (set_num slot match o with
                      | Some ds => decimal ds
                      | None => default_value f
                      end)
        (set_config_flag f st))).
Proof.
  intros H1 H2 H3 H4 Hin Hv Ho.
  destruct (lookup_own f Hin) as [rest Hlk].
  rewrite feature_loop_lookup, store_token_property, Hlk.
  rewrite (slot_not_marker f slot H1 H2 H3 H4 Hin Hv).
  unfold SetFeature. rewrite Hv.
  destruct o as [ds|]; cbn [option_map store_token l_value l_value_set].
  - replace (decimal ds <? min_value f) with false
      by (symmetry; apply Z.ltb_ge; lia).
    replace (decimal ds >? max_value f) with false
      by (symmetry; rewrite Z.gtb_ltb; apply Z.ltb_ge; lia).
    reflexivity.
  - reflexivity.
Qed.

(** X15. The later of two settings of an option counts: an option of the
    table that points to a value, given twice in a row, each time without
    a value or with a value within its bounds, builds what the second
    setting alone builds. *)
Theorem X15_later_setting_replaces_earlier (f : Feature) (slot : NumField)
    (o1 o2 : Datatypes.option string) (st : State) :
  FRONT_GUARD <> 0 -> REAR_GUARD <> 0 ->
  FILL_ON_ALLOC <> 0 -> FILL_ON_FREE <> 0 ->
  LONG_MAX <= SIZE_MAX ->
  In f features -> value f = Some slot ->
  (forall o, o = o1 \/ o = o2 ->
     match o with
     | Some ds => numeral ds = true /\ decimal ds <= LONG_MAX /\
                  min_value f <= decimal ds <= max_value f
     | None => True
     end) ->
  SetFromProperties (render [(name f, o1); (name f, o2)]) st =
  SetFromProperties (render [(name f, o2)]) st.
Proof.
  intros H1 H2 H3 H4 HT Hin Hv Ho.
  destruct (table_names f Hin) as [Hn Hne].
  assert (Hw : forall o, o = o1 \/ o = o2 -> well_written (name f, o)).
  { intros o H. specialize (Ho o H). unfold well_written. cbn [fst snd].
    destruct o; tauto. }
  assert (Hb : forall o, o = o1 \/ o = o2 ->
             match o with
             | Some ds => min_value f <= decimal ds <= max_value f
             | None => True
             end).
  { intros o H. specialize (Ho o H). destruct o; tauto. }
  pose proof (Hw o1 (or_introl eq_refl)) as Hw1.
  pose proof (Hw o2 (or_intror eq_refl)) as Hw2.
  pose proof (Hb o1 (or_introl eq_refl)) as Hb1.
  pose proof (Hb o2 (or_intror eq_refl)) as Hb2.
  rewrite (SetFromProperties_tokens _
             (map token_of [(name f, o1); (name f, o2)]) st)
    by first
         [ discriminate
         | apply parses_render; [exact HT|];
           first [exact (Forall_cons _ Hw1 (Forall_cons _ Hw2 (Forall_nil _)))
                 |exact (Forall_cons _ Hw2 (Forall_nil _))] ].
  rewrite (SetFromProperties_tokens _ (map token_of [(name f, o2)]) st)
    by first
         [ discriminate
         | apply parses_render; [exact HT|];
           first [exact (Forall_cons _ Hw1 (Forall_cons _ Hw2 (Forall_nil _)))
                 |exact (Forall_cons _ Hw2 (Forall_nil _))] ].
  cbn [map token_of fst snd run_tokens].
  rewrite (feature_loop_accepted f slot o1) by assumption.
  assert (Hf : forall o l,
             valid l = true ->
             found (set_found (store_token (name f) o l)) = true /\
             valid (set_found (store_token (name f) o l)) = true).
  { intros [v|] l Hl; split; try reflexivity; exact Hl. }
  destruct (Hf (option_map decimal o1) (mkLocals "" 0 false false true) eq_refl)
    as [Ef1 Ev1].
  rewrite Ef1, Ev1. cbn [andb negb].
  rewrite !(feature_loop_accepted f slot o2) by assumption.
  destruct (Hf (option_map decimal o2) _ Ev1) as [Ef2 Ev2].
  rewrite Ef2, Ev2.
  destruct (Hf (option_map decimal o2) (mkLocals "" 0 false false true) eq_refl)
    as [Ef3 Ev3].
  rewrite Ef3, Ev3. cbn [andb negb]. rewrite ?Ev2, ?Ev3.
  do 2 f_equal.
  destruct st as [c lg]. unfold set_config_flag, with_config.
  cbn [config errlog].
  destruct (config_ f) as [b|]; cbn [config errlog]; f_equal.
  - set (c0 := init_defaults c).
    set (v1 := match o1 with Some ds => decimal ds | None => default_value f end).
    set (v2 := match o2 with Some ds => decimal ds | None => default_value f end).
    destruct c0, slot, b; cbn [set_bool set_num or_options]; f_equal;
      rewrite <- Z.lor_assoc, Z.lor_diag; reflexivity.
  - set (c0 := init_defaults c).
    set (v1 := match o1 with Some ds => decimal ds | None => default_value f end).
    set (v2 := match o2 with Some ds => decimal ds | None => default_value f end).
    destruct c0, slot; cbn [set_num or_options]; f_equal;
      rewrite <- Z.lor_assoc, Z.lor_diag; reflexivity.
Qed.

End Repeated.

(** ** The further properties on the 64-bit target *)

Lemma X2_witness :
  @SetFromProperties lp64 ("  " ++ "guard=10") start =
  @SetFromProperties lp64 "guard=10" start.
Proof.
  apply (@X2_leading_white_space_ignored lp64 "  " "guard=10" start).
  - reflexivity.
  - vm_compute. discriminate.
Defined.

Lemma X5_witness :
  exists ok st',
    @SetFromProperties lp64 "guard=10 free_track=0" start = Some (ok, st') /\
    forall slot : NumField,
      ok = false \/
        (slot <> p_front_guard_bytes /\ slot <> p_fill_on_free_bytes) ->
      get_num slot (config st') = get_num slot (config start) \/
      in_bounds (@features lp64) slot (get_num slot (config st')).
Proof.
  apply (@X5_stored_values_are_in_bounds lp64 "guard=10 free_track=0" start).
  vm_compute. discriminate.
Defined.

Lemma X6_witness :
  exists ok st',
    @SetFromProperties lp64 "front_guard=10 free_track" start = Some (ok, st') /\
    (ok = true ->
     (Z.land (options (config st')) 1 <> 0 ->
      (16 | front_guard_bytes (config st')) /\
      0 <= front_guard_bytes (config st') <= 18446744073709551615) /\
     (Z.land (options (config st')) 16 <> 0 ->
      fill_on_free_bytes (config st') <> 0)).
Proof.
  apply (@X6_successful_build_is_normalized lp64 "front_guard=10 free_track"
           start).
  - reflexivity.
  - reflexivity.
  - reflexivity.
Defined.

Lemma X9_witness :
  @SetFromProperties lp64 "bogus=3 guard" start =
  Some (false,
        error_log Usage
          (error_log (UnknownOption "bogus")
             (with_config (@init_defaults lp64) start))).
Proof.
  apply (@X9_unknown_first_option lp64 "bogus=3 guard"
           (mkParser " guard" false) "bogus" (Some 3) start).
  - vm_compute. reflexivity.
  - reflexivity.
Defined.

Lemma X10_witness :
  exists st',
    @SetFromProperties lp64 "backtrace=20" start = Some (true, st') /\
    errlog st' = [] /\
    backtrace_frames (config st') = 20 /\
    backtrace_enabled (config st') = true.
Proof.
  destruct (@X10_valid_option_is_applied lp64
              (mkFeature "backtrace" 16 1 256 (Z.lor 4 128)
                 (Some p_backtrace_frames) (Some p_backtrace_enabled) false)
              p_backtrace_frames "20" start)
    as [(st' & E & Hl & _ & Hb & Hn) _].
  - discriminate.
  - discriminate.
  - discriminate.
  - discriminate.
  - vm_compute. discriminate.
  - right. right. right. left. reflexivity.
  - reflexivity.
  - reflexivity.
  - vm_compute. discriminate.
  - vm_compute. split; discriminate.
  - exists st'. split; [exact E|]. split; [exact Hl|].
    split; [exact Hn|exact (Hb p_backtrace_enabled eq_refl)].
Defined.

Lemma X11_witness :
  @SetFromProperties lp64 "guard = 10 leak_track" start =
  @SetFromProperties lp64 "guard=10 leak_track" start.
Proof.
  apply (@X11_white_space_around_equals lp64 "guard" " " " " "10 leak_track"
           start).
  - reflexivity.
  - discriminate.
  - reflexivity.
  - reflexivity.
Defined.

Lemma X12_witness :
  @parses lp64 (mkParser "guard=10 leak_track" false)
    [("guard", Some 10); ("leak_track", None)].
Proof.
  refine (proj1 (@X12_written_options_are_read_back lp64
                   [("guard", Some "10"); ("leak_track", None)] false _ _)).
  - vm_compute. discriminate.
  - apply Forall_cons; [|apply Forall_cons; [|apply Forall_nil]].
    + split; [discriminate|]. split; [reflexivity|].
      split; [reflexivity|]. vm_compute. discriminate.
    + split; [discriminate|]. split; [reflexivity|exact I].
Defined.

Lemma X13_witness :
  exists ok st1 st2,
    @SetFromProperties lp64 "fill=8" start = Some (ok, st1) /\
    @SetFromProperties lp64 "fill_on_alloc=8 fill_on_free=8" start =
      Some (ok, st2) /\
    config st1 = config st2 /\
    (ok = true -> st1 = st2).
Proof.
  apply (@X13_combo_option_is_its_parts lp64
           (mkFeature "fill" 18446744073709551615 1 18446744073709551615 0
              None None true)
           (tl (tl (tl (tl (tl (tl (@features lp64)))))))
           (Some "8") start).
  - discriminate.
  - discriminate.
  - discriminate.
  - discriminate.
  - vm_compute. discriminate.
  - reflexivity.
  - reflexivity.
  - split; [reflexivity|]. vm_compute. discriminate.
Defined.

Lemma X14_witness :
  exists ok st',
    @SetFromProperties lp64 "backtrace=0" start = Some (ok, st') /\
    backtrace_signal (config st') = 45 /\
    fill_alloc_value (config st') = 235 /\
    fill_free_value (config st') = 239 /\
    front_guard_value (config st') = 170 /\
    rear_guard_value (config st') = 187.
Proof.
  apply (@X14_signal_and_patterns_are_fixed lp64 "backtrace=0" start).
  vm_compute. discriminate.
Defined.

Lemma X15_witness :
  @SetFromProperties lp64 "expand_alloc=20 expand_alloc" start =
  @SetFromProperties lp64 "expand_alloc" start.
Proof.
  apply (@X15_later_setting_replaces_earlier lp64
           (mkFeature "expand_alloc" 16 1 16384 32
              (Some p_expand_alloc_bytes) None false)
           p_expand_alloc_bytes (Some "20") None start).
  - discriminate.
  - discriminate.
  - discriminate.
  - discriminate.
  - vm_compute. discriminate.
  - do 8 right. left. reflexivity.
  - reflexivity.
  - intros o [->| ->]; [|exact I].
    split; [reflexivity|]. vm_compute. repeat split; discriminate.
Defined.
